(** * MeetingMemory: the watch / debounce / queue / transcribe / deliver pipeline

    A shallow embedding of [src/tools/transcribe_watcher.py] (and of the
    timestamp helper of [src/tools/reprocess_transcripts.py]) together with
    the properties the specification states about them.

    Conventions of the embedding.
    - A [pathlib.Path] is the string it was built from; paths are assumed
      normalised, so that dictionary keys compare as strings do.
    - Time is an integer number of clock ticks (the unit is irrelevant);
      a [threading.Timer] fires exactly [interval] ticks after its start.
    - A Python [float] is an IEEE-754 binary64 value, [spec_float] with
      [prec = 53] and [emax = 1024].
    - External processes, the file system and the HTTP endpoint are
      oracles: their answers are arguments of the functions that use them,
      and every observable action is appended to a trace. *)

From Stdlib Require Import ZArith List Bool Ascii String Lia.
From Stdlib Require Import Floats.SpecFloat.
From stdpp Require Import base option list gmap strings.

Open Scope Z_scope.

(* ===================================================================== *)
(** ** Python strings *)
(* ===================================================================== *)

Module PyStr.

(** [str.rfind(c)] for a one-character needle. *)
Fixpoint rfind (c : ascii) (s : string) : option nat :=
  match s with
  | EmptyString => None
  | String a rest =>
      match rfind c rest with
      | Some i => Some (S i)
      | None => if Ascii.eqb a c then Some 0%nat else None
      end
  end.

Definition lower_char (c : ascii) : ascii :=
  let n := nat_of_ascii c in
  if ((65 <=? n) && (n <=? 90))%nat then ascii_of_nat (n + 32) else c.

(** [str.lower()] on ASCII text. *)
Fixpoint lower (s : string) : string :=
  match s with
  | EmptyString => EmptyString
  | String a rest => String (lower_char a) (lower rest)
  end.

(** [s.split(sep)] for a one-character separator: never returns the
    empty list, and yields one more part than there are separators. *)
Fixpoint split (sep : ascii) (s : string) : list string :=
  match s with
  | EmptyString => [EmptyString]
  | String a rest =>
      if Ascii.eqb a sep then EmptyString :: split sep rest
      else match split sep rest with
           | [] => [String a EmptyString]
           | p :: ps => String a p :: ps
           end
  end.

(** [sep.join(parts)]. *)
Fixpoint join (sep : string) (parts : list string) : string :=
  match parts with
  | [] => EmptyString
  | [p] => p
  | p :: ps => p +:+ sep +:+ join sep ps
  end.

(** [s.endswith(t)]. *)
Definition endswith (s t : string) : bool :=
  let n := String.length s in
  let k := String.length t in
  (k <=? n)%nat && String.eqb (substring (n - k) k s) t.

(** Characters for which [str.isspace()] holds, within ASCII. *)
Definition isspace (c : ascii) : bool :=
  let n := nat_of_ascii c in
  ((9 <=? n) && (n <=? 13) || (28 <=? n) && (n <=? 32))%nat.

Fixpoint lstrip (s : string) : string :=
  match s with
  | String a rest => if isspace a then lstrip rest else s
  | EmptyString => EmptyString
  end.

Fixpoint rstrip (s : string) : string :=
  match s with
  | EmptyString => EmptyString
  | String a rest =>
      match rstrip rest with
      | EmptyString => if isspace a then EmptyString else String a EmptyString
      | r => String a r
      end
  end.

(** [s.strip()]. *)
Definition strip (s : string) : string := rstrip (lstrip s).

Definition digit_val (c : ascii) : option Z :=
  let n := nat_of_ascii c in
  if ((48 <=? n) && (n <=? 57))%nat then Some (Z.of_nat n - 48) else None.

(** The digit part of an integer literal accepted by [int()]: decimal
    digits, with single underscores allowed between two digits.
    [acc] is the value read so far, [prev] tells whether the previous
    character was a digit. *)
Fixpoint int_digits (s : string) (acc : Z) (prev : bool) : option Z :=
  match s with
  | EmptyString => if prev then Some acc else None
  | String a rest =>
      match digit_val a with
      | Some d => int_digits rest (10 * acc + d) true
      | None =>
          if Ascii.eqb a "_"
          then (if prev then
                  match rest with
                  | EmptyString => None
                  | String b _ =>
                      match digit_val b with
                      | Some _ => int_digits rest acc false
                      | None => None
                      end
                  end
                else None)
          else None
      end
  end.

(** The white space that [int()] skips around an ASCII literal (the
    [isspace] of C): it is less than what [str.strip()] removes. *)
Definition c_isspace (c : ascii) : bool :=
  let n := nat_of_ascii c in
  ((9 <=? n) && (n <=? 13) || (n =? 32))%nat.

Fixpoint c_lstrip (s : string) : string :=
  match s with
  | String a rest => if c_isspace a then c_lstrip rest else s
  | EmptyString => EmptyString
  end.

Fixpoint c_rstrip (s : string) : string :=
  match s with
  | EmptyString => EmptyString
  | String a rest =>
      match c_rstrip rest with
      | EmptyString => if c_isspace a then EmptyString else String a EmptyString
      | r => String a r
      end
  end.

(** [int(s)] in base 10: [None] stands for [ValueError]. *)
Definition int (s : string) : option Z :=
  match c_rstrip (c_lstrip s) with
  | String "+" rest => int_digits rest 0 false
  | String "-" rest => Z.opp <$> int_digits rest 0 false
  | t => int_digits t 0 false
  end.

Definition digit_char (d : Z) : ascii := ascii_of_nat (48 + Z.to_nat d).

Fixpoint str_of_nat_aux (fuel : nat) (n : Z) (acc : string) : string :=
  match fuel with
  | O => acc
  | S fuel' =>
      let acc' := String (digit_char (n mod 10)) acc in
      if n / 10 =? 0 then acc' else str_of_nat_aux fuel' (n / 10) acc'
  end.

(** [str(n)] for an integer. *)
Definition str_of_Z (n : Z) : string :=
  if n <? 0
  then String "-" (str_of_nat_aux (S (Z.to_nat (Z.log2 (- n)))) (- n) EmptyString)
  else str_of_nat_aux (S (Z.to_nat (Z.log2 n))) n EmptyString.

Fixpoint zeros (n : nat) : string :=
  match n with
  | O => EmptyString
  | S k => String "0" (zeros k)
  end.

(** [s.zfill(w)] for a digit string: zeros on the left up to width [w]. *)
Definition zfill (w : nat) (s : string) : string :=
  zeros (w - String.length s) +:+ s.

(** Whether the character [c] does not occur in [s]. *)
Fixpoint free_of (c : ascii) (s : string) : bool :=
  match s with
  | EmptyString => true
  | String a rest => negb (Ascii.eqb a c) && free_of c rest
  end.

End PyStr.

(* ===================================================================== *)
(** ** pathlib *)
(* ===================================================================== *)

Module Pathlib.

(** [Path.name]: the final path component. *)
Definition name (p : string) : string :=
  match PyStr.rfind "/" p with
  | Some i => substring (S i) (String.length p - S i) p
  | None => p
  end.

(** [Path.suffix]: the last dot of the name and what follows it, unless
    that dot is the first or the last character of the name. *)
Definition suffix (p : string) : string :=
  let n := name p in
  match PyStr.rfind "." n with
  | Some i =>
      if ((0 <? i) && (i <? String.length n - 1))%nat
      then substring i (String.length n - i) n
      else EmptyString
  | None => EmptyString
  end.

(** [Path.stem]: the name without its suffix. *)
Definition stem (p : string) : string :=
  let n := name p in
  match PyStr.rfind "." n with
  | Some i =>
      if ((0 <? i) && (i <? String.length n - 1))%nat
      then substring 0 i n
      else n
  | None => n
  end.

(** [dir / name]. *)
Definition joinpath (dir nm : string) : string := dir +:+ "/" +:+ nm.

End Pathlib.

(* ===================================================================== *)
(** ** logging *)
(* ===================================================================== *)

Inductive Level := DEBUG | INFO | WARNING | ERROR.

(** A log record: creation time, level and formatted message. *)
Record LogRecord := { created : Z; levelname : Level; message : string }.

Definition Level_eqb (a b : Level) : bool :=
  match a, b with
  | DEBUG, DEBUG | INFO, INFO | WARNING, WARNING | ERROR, ERROR => true
  | _, _ => false
  end.

(* ===================================================================== *)
(** ** The debounce coalescer: [AudioFileHandler] *)
(* ===================================================================== *)

Module Debounce.

(** A watchdog event. *)
Record FileSystemEvent := { is_directory : bool; src_path : string }.

(** A [threading.Timer] object created by [on_created]: it waits
    [interval] ticks from [started] and then calls [_add_to_queue] on
    [args], unless [finished] was set in the meantime ([cancel()] sets
    it, and so does the timer itself once its function has returned). *)
Record Timer := {
  interval : Z;
  args : string;
  started : Z;
  finished : bool
}.

(** The handler object. [queue] is the content of the shared
    [TranscriptionQueue] (oldest first), [timers] the heap of Timer
    objects ever created, addressed by index, and [pending_files] the
    dictionary from paths to (references to) timers. *)
Record AudioFileHandler := {
  queue : list string;
  debounce_seconds : Z;
  logger : list LogRecord;
  pending_files : gmap string nat;
  timers : list Timer
}.

Definition log (now : Z) (lv : Level) (msg : string) (h : AudioFileHandler) : AudioFileHandler :=
  {| queue := queue h; debounce_seconds := debounce_seconds h;
     logger := logger h ++ [{| created := now; levelname := lv; message := msg |}];
     pending_files := pending_files h; timers := timers h |}.

(** [TranscriptionQueue.add]: [queue.put] followed by an info record. *)
Definition add (now : Z) (audio_file : string) (h : AudioFileHandler) : AudioFileHandler :=
  log now INFO ("Queued for transcription: " +:+ Pathlib.name audio_file)
    {| queue := queue h ++ [audio_file]; debounce_seconds := debounce_seconds h;
       logger := logger h; pending_files := pending_files h; timers := timers h |}.

Definition set_finished (tm : Timer) : Timer :=
  {| interval := interval tm; args := args tm; started := started tm; finished := true |}.

(** [timer.cancel()], and the [finished.set()] that ends [Timer.run]. *)
Definition finish (i : nat) (h : AudioFileHandler) : AudioFileHandler :=
  {| queue := queue h; debounce_seconds := debounce_seconds h; logger := logger h;
     pending_files := pending_files h;
     timers := match timers h !! i with
               | Some tm => <[i := set_finished tm]> (timers h)
               | None => timers h
               end |}.

Definition is_wav (file_path : string) : bool :=
  String.eqb (PyStr.lower (Pathlib.suffix file_path)) ".wav".

(** [AudioFileHandler.on_created], called at time [now]. *)
Definition on_created (now : Z) (event : FileSystemEvent) (h : AudioFileHandler) : AudioFileHandler :=
  if is_directory event then h
  else
    let file_path := src_path event in
    if negb (is_wav file_path) then h
    else
      let h1 := log now DEBUG ("File detected: " +:+ Pathlib.name file_path) h in
      let h2 := match pending_files h1 !! file_path with
                | Some i => finish i h1
                | None => h1
                end in
      let timer := {| interval := debounce_seconds h2; args := file_path;
                      started := now; finished := false |} in
      {| queue := queue h2; debounce_seconds := debounce_seconds h2; logger := logger h2;
         pending_files := <[file_path := length (timers h2)]> (pending_files h2);
         timers := timers h2 ++ [timer] |}.

(** The file system as the timers see it: at each time, the size of
    each existing file. *)
Definition FileSystem := Z -> string -> option Z.

(** [file_path.exists() and file_path.stat().st_size > 0]. *)
Definition has_content (fs : FileSystem) (now : Z) (file_path : string) : bool :=
  match fs now file_path with
  | Some size => 0 <? size
  | None => false
  end.

(** [AudioFileHandler._add_to_queue], running at time [now]. *)
Definition _add_to_queue (fs : FileSystem) (now : Z) (file_path : string)
    (h : AudioFileHandler) : AudioFileHandler :=
  let h1 := {| queue := queue h; debounce_seconds := debounce_seconds h; logger := logger h;
               pending_files := delete file_path (pending_files h);
               timers := timers h |} in
  if has_content fs now file_path then add now file_path h1
  else log now WARNING ("File no longer exists or is empty: " +:+ Pathlib.name file_path) h1.

Definition deadline (tm : Timer) : Z := started tm + interval tm.

(** [Timer.run] for the timer at index [i], observed at time [now]: if
    the wait is over and [finished] is not set, the function runs (at
    the deadline) and [finished] is set. *)
Definition run_timer (fs : FileSystem) (now : Z) (h : AudioFileHandler) (i : nat) : AudioFileHandler :=
  match timers h !! i with
  | Some tm =>
      if negb (finished tm) && (deadline tm <=? now)
      then finish i (_add_to_queue fs (deadline tm) (args tm) h)
      else h
  | None => h
  end.

(** Let the clock reach [now]: every timer that is due fires, in
    creation order (which is deadline order, the interval being the
    same for all timers and events arriving in time order). *)
Definition advance (fs : FileSystem) (now : Z) (h : AudioFileHandler) : AudioFileHandler :=
  foldl (run_timer fs now) h (seq 0 (length (timers h))).

(** A schedule of notifications, each with its delivery time. Timers
    whose deadline is reached when a notification arrives fire first. *)
Fixpoint run (fs : FileSystem) (sched : list (Z * FileSystemEvent)) (h : AudioFileHandler)
    : AudioFileHandler :=
  match sched with
  | [] => h
  | (t, ev) :: rest => run fs rest (on_created t ev (advance fs t h))
  end.

(** [AudioFileHandler.__init__]. *)
Definition init (debounce : Z) : AudioFileHandler :=
  {| queue := []; debounce_seconds := debounce; logger := [];
     pending_files := ∅; timers := [] |}.

(** The handler after the schedule has been delivered and the clock
    has reached [horizon]. *)
Definition observe (fs : FileSystem) (debounce : Z) (sched : list (Z * FileSystemEvent))
    (horizon : Z) : AudioFileHandler :=
  advance fs horizon (run fs sched (init debounce)).


(** Number of jobs for [p] in the queue. *)
Definition jobs_for (p : string) (h : AudioFileHandler) : nat :=
  length (filter (fun q => q = p) (queue h)).

(** Delivery times of the notifications that concern [p]. *)
Definition event_for (p : string) (te : Z * FileSystemEvent) : bool :=
  negb (is_directory te.2) && String.eqb (src_path te.2) p.

Definition times_for (p : string) (sched : list (Z * FileSystemEvent)) : list Z :=
  map fst (List.filter (event_for p) sched).

(** *** Invariants and expected behaviour *)

(** Every timer that can still fire is the one its path maps to, and
    every entry of the dictionary refers to a timer for its key. *)
Definition WF (h : AudioFileHandler) : Prop :=
  (forall i tm, timers h !! i = Some tm -> finished tm = false ->
                pending_files h !! args tm = Some i)
  /\ (forall q i, pending_files h !! q = Some i ->
                  exists tm, timers h !! i = Some tm /\ args tm = q).

(** The handler once [on_created] has cancelled the pending timer. *)
Definition cancelled (q : string) (h : AudioFileHandler) : AudioFileHandler :=
  match pending_files h !! q with
  | Some i => finish i h
  | None => h
  end.

(** No timer for [p] can still fire. *)
Definition Idle (p : string) (h : AudioFileHandler) : Prop :=
  forall i tm, timers h !! i = Some tm -> args tm = p -> finished tm = true.

(** The timer at index [i], started at [tl], is waiting for [p]. *)
Definition Live (p : string) (D : Z) (h : AudioFileHandler) (i : nat) (tl : Z) : Prop :=
  timers h !! i = Some {| interval := D; args := p; started := tl; finished := false |}.

Definition Phase (p : string) (D : Z) (h : AudioFileHandler) (ph : option (nat * Z)) : Prop :=
  match ph with
  | None => Idle p h
  | Some (i, tl) => Live p D h i tl
  end.

Definition St (p : string) (D : Z) (h : AudioFileHandler) (ph : option (nat * Z)) (n : nat)
    : Prop :=
  WF h /\ debounce_seconds h = D /\ jobs_for p h = n /\ Phase p D h ph.

(** One job if the file has content when the timer fires, none otherwise. *)
Definition ok_at (fs : FileSystem) (p : string) (t : Z) : nat :=
  if has_content fs t p then 1%nat else 0%nat.

(** The effect on [p] of letting the clock reach [now]. *)
Definition after_advance (fs : FileSystem) (p : string) (D : Z) (now : Z)
    (ph : option (nat * Z)) (n : nat) : option (nat * Z) * nat :=
  match ph with
  | Some (i, tl) =>
      if tl + D <=? now then (None, (n + ok_at fs p (tl + D))%nat) else (ph, n)
  | None => (None, n)
  end.

(** Jobs produced by a timer started at [tl], seen at time [t]. *)
Definition settled (fs : FileSystem) (p : string) (D : Z) (pend : option Z) (t : Z) : nat :=
  match pend with
  | Some tl => if tl + D <=? t then ok_at fs p (tl + D) else 0%nat
  | None => 0%nat
  end.

(** Jobs to come, from the start time of the waiting timer (if any),
    the times of the notifications still to be delivered, and the time
    at which the queue is inspected. *)
Fixpoint expect (fs : FileSystem) (p : string) (D : Z) (pend : option Z) (ts : list Z)
    (horizon : Z) : nat :=
  match ts with
  | [] => settled fs p D pend horizon
  | t :: rest => (settled fs p D pend t + expect fs p D (Some t) rest horizon)%nat
  end.

(** Notifications arrive in time order, no earlier than [lo] and no
    later than [horizon]. *)
Fixpoint chronological (lo : Z) (sched : list (Z * FileSystemEvent)) (horizon : Z) : Prop :=
  match sched with
  | [] => lo <= horizon
  | (t, _) :: rest => lo <= t /\ chronological t rest horizon
  end.


End Debounce.

Definition created_wav (p : string) : Debounce.FileSystemEvent :=
  {| Debounce.is_directory := false; Debounce.src_path := p |}.

(* ===================================================================== *)
(** ** Python numbers *)
(* ===================================================================== *)

Module PyFloat.

Definition prec : Z := 53.
Definition emax : Z := 1024.

(** An integer as an (unnormalised) finite value with exponent 0. *)
Definition raw_of_int (n : Z) : spec_float :=
  match n with
  | Z0 => S754_zero false
  | Zpos m => S754_finite false m 0
  | Zneg m => S754_finite true m 0
  end.

(** [float(n)]: the nearest double, ties to even; [None] stands for
    [OverflowError] (the integer is too large for a float). *)
Definition of_int (n : Z) : option spec_float :=
  match binary_normalize prec emax n 0 false with
  | S754_infinity _ => None
  | f => Some f
  end.

(** [x / n] for a float [x] and an integer [n <> 0]. *)
Definition div_int (x : spec_float) (n : Z) : option spec_float :=
  match of_int n with
  | Some y => Some (SFdiv prec emax x y)
  | None => None
  end.

(** [a / b] for two integers, [b <> 0]: the correctly rounded quotient;
    [None] stands for [OverflowError]. *)
Definition int_truediv (a b : Z) : option spec_float :=
  match SFdiv prec emax (raw_of_int a) (raw_of_int b) with
  | S754_infinity _ => None
  | f => Some f
  end.

Definition one : spec_float := S754_finite false 4503599627370496 (-52).

(** The value of [max(0, x)] is the integer [0] or the float [x]. *)
Inductive number := Int (n : Z) | Float (x : spec_float).

(** [max(0, x)]: [x] replaces [0] only if [x > 0]. *)
Definition max0 (x : spec_float) : number :=
  if SFltb (S754_zero false) x then Float x else Int 0.

(** The integer nearest to [m * 2^e], ties to even. *)
Definition round_half_even (m : positive) (e : Z) : Z :=
  match e with
  | Zneg k =>
      let q := Z.shiftr (Zpos m) (Zpos k) in
      let r := Zpos m - Z.shiftl q (Zpos k) in
      let half := Z.shiftl 1 (Zpos k - 1) in
      match r ?= half with
      | Lt => q
      | Gt => q + 1
      | Eq => if Z.even q then q else q + 1
      end
  | _ => Z.shiftl (Zpos m) e
  end.

(** [round(x)] with one argument: an integer; [None] stands for the
    [OverflowError] or [ValueError] raised on infinities and NaN. *)
Definition round (x : number) : option Z :=
  match x with
  | Int n => Some n
  | Float (S754_zero _) => Some 0
  | Float (S754_finite s m e) =>
      Some (if s then - round_half_even m e else round_half_even m e)
  | Float _ => None
  end.

(** The exact value of a finite float, as a fraction [(num, den)]. *)
Definition to_fraction (x : spec_float) : option (Z * Z) :=
  match x with
  | S754_zero _ => Some (0, 1)
  | S754_finite s m e =>
      let n := if s then Zneg m else Zpos m in
      Some (match e with
            | Zneg k => (n, Z.shiftl 1 (Zpos k))
            | _ => (Z.shiftl n e, 1)
            end)
  | _ => None
  end.

(** Zero or a finite non-zero number: neither an infinity nor NaN. *)
Definition is_finite (x : spec_float) : bool :=
  match x with
  | S754_zero _ | S754_finite _ _ _ => true
  | _ => false
  end.

(** [x + y] on floats. *)
Definition add (x y : spec_float) : spec_float := SFadd prec emax x y.


End PyFloat.

(* ===================================================================== *)
(** ** datetime (after CPython's [_pydatetime]) *)
(* ===================================================================== *)

Module PyDatetime.

Record datetime := {
  year : Z; month : Z; day : Z;
  hour : Z; minute : Z; second : Z
}.

Definition MINYEAR : Z := 1.
Definition MAXYEAR : Z := 9999.
Definition _MAXORDINAL : Z := 3652059.

Definition _is_leap (y : Z) : bool :=
  (y mod 4 =? 0) && (negb (y mod 100 =? 0) || (y mod 400 =? 0)).

Definition _days_before_year (y : Z) : Z :=
  let y := y - 1 in y * 365 + y / 4 - y / 100 + y / 400.

Definition _DAYS_IN_MONTH : list Z := [-1; 31; 28; 31; 30; 31; 30; 31; 31; 30; 31; 30; 31].
Definition _DAYS_BEFORE_MONTH : list Z :=
  [-1; 0; 31; 59; 90; 120; 151; 181; 212; 243; 273; 304; 334].

Definition _days_in_month (y m : Z) : Z :=
  if (m =? 2) && _is_leap y then 29 else nth (Z.to_nat m) _DAYS_IN_MONTH 0.

Definition _days_before_month (y m : Z) : Z :=
  nth (Z.to_nat m) _DAYS_BEFORE_MONTH 0 + (if (2 <? m) && _is_leap y then 1 else 0).

Definition _ymd2ord (y m d : Z) : Z :=
  _days_before_year y + _days_before_month y m + d.

Definition _DI400Y : Z := 146097.
Definition _DI100Y : Z := 36524.
Definition _DI4Y : Z := 1461.

Definition _ord2ymd (n : Z) : Z * Z * Z :=
  let n := n - 1 in
  let n400 := n / _DI400Y in
  let n := n mod _DI400Y in
  let y := n400 * 400 + 1 in
  let n100 := n / _DI100Y in
  let n := n mod _DI100Y in
  let n4 := n / _DI4Y in
  let n := n mod _DI4Y in
  let n1 := n / 365 in
  let n := n mod 365 in
  let y := y + n100 * 100 + n4 * 4 + n1 in
  if (n1 =? 4) || (n100 =? 4) then (y - 1, 12, 31)
  else
    let leapyear := (n1 =? 3) && (negb (n4 =? 24) || (n100 =? 3)) in
    let m := Z.shiftr (n + 50) 5 in
    let preceding :=
      nth (Z.to_nat m) _DAYS_BEFORE_MONTH 0 + (if (2 <? m) && leapyear then 1 else 0) in
    if n <? preceding
    then
      let m := m - 1 in
      let preceding :=
        preceding - (nth (Z.to_nat m) _DAYS_IN_MONTH 0
                     + (if (m =? 2) && leapyear then 1 else 0)) in
      (y, m, n - preceding + 1)
    else (y, m, n - preceding + 1).

(** The checks of the [datetime(...)] constructor. *)
Definition _check_fields (y m d hh mm ss : Z) : bool :=
  (MINYEAR <=? y) && (y <=? MAXYEAR)
  && (1 <=? m) && (m <=? 12)
  && (1 <=? d) && (d <=? _days_in_month y m)
  && (0 <=? hh) && (hh <=? 23)
  && (0 <=? mm) && (mm <=? 59)
  && (0 <=? ss) && (ss <=? 59).

(** [datetime(y, m, d, hh, mm, ss)]: [None] stands for [ValueError]. *)
Definition make (y m d hh mm ss : Z) : option datetime :=
  if _check_fields y m d hh mm ss
  then Some {| year := y; month := m; day := d; hour := hh; minute := mm; second := ss |}
  else None.

(** Seconds from the start of ordinal day 0. *)
Definition to_seconds (dt : datetime) : Z :=
  _ymd2ord (year dt) (month dt) (day dt) * 86400
  + hour dt * 3600 + minute dt * 60 + second dt.

(** [dt - timedelta(seconds=delta)]: [None] stands for [OverflowError]. *)
Definition sub_seconds (dt : datetime) (delta : Z) : option datetime :=
  let total := to_seconds dt - delta in
  let days := total / 86400 in
  let secs := total mod 86400 in
  if (0 <? days) && (days <=? _MAXORDINAL)
  then
    let '(y, m, d) := _ord2ymd days in
    Some {| year := y; month := m; day := d;
            hour := secs / 3600; minute := (secs mod 3600) / 60; second := secs mod 60 |}
  else None.

(** [dt.astimezone(timezone.utc)] for a naive [dt], read as local time
    with the offset east of UTC (in seconds) that the platform reports
    for it. *)
Definition astimezone_utc (utcoffset : datetime -> Z) (dt : datetime) : option datetime :=
  sub_seconds dt (utcoffset dt).

Definition pad (w : nat) (n : Z) : string := PyStr.zfill w (PyStr.str_of_Z n).

(** [dt.strftime("%Y-%m-%dT%H:%M:%SZ")]. *)
Definition strftime_iso_z (dt : datetime) : string :=
  pad 4 (year dt) +:+ "-" +:+ pad 2 (month dt) +:+ "-" +:+ pad 2 (day dt) +:+ "T"
  +:+ pad 2 (hour dt) +:+ ":" +:+ pad 2 (minute dt) +:+ ":" +:+ pad 2 (second dt) +:+ "Z".

End PyDatetime.

(* ===================================================================== *)
(** ** The watcher service: [TranscribeWatcher] *)
(* ===================================================================== *)

Module Watcher.

(** *** Exceptions, files, actions *)

Inductive ExcClass :=
  ValueError | IndexError | OverflowError | OSError | RequestException | HTTPError.

(** An exception object: its class and its [str()]. *)
Record Exception := { cls : ExcClass; what : string }.

(** [isinstance(e, (ValueError, IndexError))]. *)
Definition is_value_or_index_error (e : Exception) : bool :=
  match cls e with ValueError | IndexError => true | _ => false end.

(** [isinstance(e, requests.exceptions.RequestException)]; [HTTPError]
    is a subclass. *)
Definition is_request_exception (e : Exception) : bool :=
  match cls e with RequestException | HTTPError => true | _ => false end.

(** What the service can learn about a file: its size, its text, and
    (for an audio file) the sample rate written in its header. *)
Record File := { st_size : Z; text : string; sample_rate : Z }.

(** The JSON body of the webhook request. *)
Record WebhookPayload := {
  transcript_path : string;
  transcript_html : string;
  started_at : string;
  audio_duration_seconds : Z
}.

(** Observable actions, in the order they happen. *)
Inductive Action :=
| Log (lv : Level) (msg : string)
| Subprocess (cmd : list string)
| Unlink (file : string)
| Post (endpoint : string) (json : WebhookPayload) (seconds : Z).

(** The result of [subprocess.run]: an exception, or a completed process
    with the file system as the process left it. *)
Inductive RunResult :=
| RunRaises (e : Exception)
| RunCompleted (returncode : Z) (stdout stderr : string) (after : gmap string File).

(** The result of [requests.post]: a transport exception or a response. *)
Inductive PostResult :=
| PostRaises (e : Exception)
| Response (status_code : Z).

(** Everything outside the program. *)
Record Env := {
  sys_executable : string;
  gettempdir : string;
  run_process : list string -> gmap string File -> RunResult;
  unlink_error : string -> option Exception;
  requests_post : string -> WebhookPayload -> Z -> PostResult;
  utcnow : PyDatetime.datetime;
  utcoffset : PyDatetime.datetime -> Z;
  elapsed : string;
  float_repr : spec_float -> string;
  listdir : string -> list string
}.

(** *** Configuration, as read from the YAML file *)

Record NoScribe := {
  path : string;
  language : option string;
  speaker_detection : option string;
  timestamps : option bool;
  pause : option string;
  model : option string
}.

Record Webhook := {
  enabled : option bool;
  url : option string;
  timeout : option Z
}.

Record Config := {
  recordings : string;
  transcripts : string;
  noscribe : NoScribe;
  webhook : option Webhook
}.

(** [config.get('webhook', {}).get('enabled', False)]. *)
Definition webhook_enabled (config : Config) : bool :=
  match webhook config with
  | Some wh => default false (enabled wh)
  | None => false
  end.

(** [config.get('webhook', {}).get('url', '')]. *)
Definition webhook_url (config : Config) : string :=
  match webhook config with
  | Some wh => default EmptyString (url wh)
  | None => EmptyString
  end.

(** [config.get('webhook', {}).get('timeout', 30)]. *)
Definition webhook_timeout (config : Config) : Z :=
  match webhook config with
  | Some wh => default 30 (timeout wh)
  | None => 30
  end.

(** Truth value of a string: non-empty. *)
Definition truthy (s : string) : bool := negb (String.eqb s EmptyString).

(** *** The state and error monad of the embedding *)

Record World := { files : gmap string File; trace : list Action }.

Inductive Outcome (A : Type) :=
| Return (a : A)
| Raise (e : Exception).
Arguments Return {A} a.
Arguments Raise {A} e.

Definition M (A : Type) : Type := World -> Outcome A * World.

Definition ret {A} (a : A) : M A := fun w => (Return a, w).

Definition raise {A} (e : Exception) : M A := fun w => (Raise e, w).

Definition bind {A B} (m : M A) (k : A -> M B) : M B :=
  fun w =>
    match m w with
    | (Return a, w') => k a w'
    | (Raise e, w') => (Raise e, w')
    end.

(** [try: m  except C as e: handler e], where [C] is the set of classes
    that [catches] accepts. *)
Definition try_except {A} (m : M A) (catches : Exception -> bool)
    (handler : Exception -> M A) : M A :=
  fun w =>
    match m w with
    | (Raise e, w') => if catches e then handler e w' else (Raise e, w')
    | r => r
    end.

Definition any_exception (e : Exception) : bool := true.

Definition emit (a : Action) : M unit :=
  fun w => (Return tt, {| files := files w; trace := trace w ++ [a] |}).

Definition log (lv : Level) (msg : string) : M unit := emit (Log lv msg).

(** [p.exists()]. *)
Definition exists_ (p : string) : M bool :=
  fun w => (Return (bool_decide (is_Some (files w !! p))), w).

(** [p.stat()] and [open(p).read()]: the file, or [OSError]. *)
Definition stat (p : string) : M File :=
  fun w =>
    match files w !! p with
    | Some f => (Return f, w)
    | None => (Raise {| cls := OSError; what := "No such file or directory: " +:+ p |}, w)
    end.

(** [p.unlink()]. *)
Definition unlink (env : Env) (p : string) : M unit :=
  fun w =>
    let w1 := {| files := files w; trace := trace w ++ [Unlink p] |} in
    match unlink_error env p with
    | Some e => (Raise e, w1)
    | None => (Return tt, {| files := delete p (files w1); trace := trace w1 |})
    end.

(** [subprocess.run(cmd, capture_output=True, text=True)]. *)
Definition subprocess_run (env : Env) (cmd : list string) : M (Z * string * string) :=
  fun w =>
    let w1 := {| files := files w; trace := trace w ++ [Subprocess cmd] |} in
    match run_process env cmd (files w1) with
    | RunRaises e => (Raise e, w1)
    | RunCompleted rc out err after =>
        (Return (rc, out, err), {| files := after; trace := trace w1 |})
    end.

(** [requests.post(url, json=payload, timeout=timeout)]. *)
Definition post (env : Env) (endpoint : string) (json : WebhookPayload) (seconds : Z) : M Z :=
  fun w =>
    let w1 := {| files := files w; trace := trace w ++ [Post endpoint json seconds] |} in
    match requests_post env endpoint json seconds with
    | PostRaises e => (Raise e, w1)
    | Response status => (Return status, w1)
    end.

(** [response.raise_for_status()]: [HTTPError] on 4xx and 5xx. *)
Definition raise_for_status (status : Z) : M unit :=
  if (400 <=? status) && (status <? 500)
  then raise {| cls := HTTPError; what := PyStr.str_of_Z status +:+ " Client Error" |}
  else if (500 <=? status) && (status <? 600)
  then raise {| cls := HTTPError; what := PyStr.str_of_Z status +:+ " Server Error" |}
  else ret tt.

(** [option] results of the helpers, as raising computations. *)
Definition or_raise {A} (o : option A) (e : Exception) : M A :=
  match o with
  | Some a => ret a
  | None => raise e
  end.

#[global] Instance M_ret : MRet M := @ret.
#[global] Instance M_bind : MBind M := fun A B k m => bind m k.

(** [try: m  except C1 as e: h1 e  except C2 as e: h2 e]. *)
Definition try_except2 {A} (m : M A)
    (c1 : Exception -> bool) (h1 : Exception -> M A)
    (c2 : Exception -> bool) (h2 : Exception -> M A) : M A :=
  fun w =>
    match m w with
    | (Raise e, w') =>
        if c1 e then h1 e w' else if c2 e then h2 e w' else (Raise e, w')
    | r => r
    end.

(** *** Audio premix stage *)

Definition ffprobe_path : string := "/opt/homebrew/bin/ffprobe".
Definition ffmpeg_path : string := "/opt/homebrew/bin/ffmpeg".

Definition probe_cmd (audio_file : string) : list string :=
  [ffprobe_path; "-v"; "error"; "-select_streams"; "a:0";
   "-show_entries"; "stream=channels"; "-of"; "csv=p=0"; audio_file]%string.

(** The channel count: what [ffprobe] printed, or 2 if anything failed. *)
Definition probe_channels (env : Env) (audio_file : string) : M Z :=
  try_except
    ('(_, stdout, _) ← subprocess_run env (probe_cmd audio_file);
     channels ← or_raise (PyStr.int (PyStr.strip stdout))
       {| cls := ValueError;
          what := "invalid literal for int() with base 10: '" +:+ PyStr.strip stdout +:+ "'" |};
     log DEBUG ("Detected " +:+ PyStr.str_of_Z channels +:+ " channels in "
                +:+ Pathlib.name audio_file);;
     mret channels)
    any_exception
    (fun e =>
       log WARNING ("ffprobe failed: " +:+ what e +:+ ", assuming 2 channels");;
       mret 2).

(** [range(n)]. *)
Definition range (n : Z) : list Z := map Z.of_nat (seq 0 (Z.to_nat n)).

(** The terms of the pan filter: the weight given to each input channel. *)
Definition mix_terms (weight : spec_float) (channels : Z) : list (spec_float * Z) :=
  map (fun i => (weight, i)) (range channels).

Definition mix_filter (env : Env) (weight : spec_float) (channels : Z) : string :=
  "pan=mono|c0="
  +:+ PyStr.join "+"
        (map (fun t : spec_float * Z =>
                float_repr env t.1 +:+ "*c" +:+ PyStr.str_of_Z t.2)
             (mix_terms weight channels)).

Definition mix_cmd (audio_file filter mixed_file : string) : list string :=
  [ffmpeg_path; "-y"; "-i"; audio_file; "-af"; filter;
   "-ar"; "48000"; "-c:a"; "pcm_s16le"; mixed_file]%string.

(** [weight = 1.0 / channels]; [None] stands for [OverflowError]. *)
Definition mix_weight (channels : Z) : option spec_float :=
  PyFloat.div_int PyFloat.one channels.

(** Whether the double [x] is within [2^-53] of [1/c], and whether it is
    exactly [1/c] precisely when [c] is a power of two. *)
Definition near_reciprocal (c : Z) (x : spec_float) : bool :=
  match x, PyFloat.to_fraction x with
  | S754_finite false _ _, Some (n, d) =>
      (0 <? d) && (Z.abs (c * n - d) * 2 ^ 53 <=? d)
      && Bool.eqb (c * n =? d) (2 ^ Z.log2 c =? c)
  | _, _ => false
  end.

Definition mixed_path (env : Env) (audio_file : string) : string :=
  Pathlib.joinpath (gettempdir env) (Pathlib.stem audio_file +:+ "_mixed.wav").

(** [TranscribeWatcher._premix_audio]. *)
Definition _premix_audio (env : Env) (audio_file : string) : M string :=
  channels ← probe_channels env audio_file;
  if channels <=? 2 then mret audio_file
  else
    log INFO ("Pre-mixing " +:+ PyStr.str_of_Z channels +:+ "-channel audio to mono");;
    let mixed_file := mixed_path env audio_file in
    weight ← or_raise (mix_weight channels)
      {| cls := OverflowError; what := "int too large to convert to float" |};
    let cmd := mix_cmd audio_file (mix_filter env weight channels) mixed_file in
    try_except
      ('(returncode, _, stderr) ← subprocess_run env cmd;
       ok ← (if returncode =? 0 then exists_ mixed_file else mret false);
       if ok : bool
       then log DEBUG ("Pre-mixed audio saved to: " +:+ mixed_file);; mret mixed_file
       else log WARNING ("Pre-mix failed, using original: " +:+ stderr);; mret audio_file)
      any_exception
      (fun e =>
         log WARNING ("Pre-mix error, using original: " +:+ what e);;
         mret audio_file).

(** *** Webhook delivery *)

(** The exits of [_send_webhook]. *)
Inductive Delivery :=
| UrlNotConfigured
| Sent (status_code : Z)
| RequestFailed
| PreparationFailed.

Definition value_error (msg : string) : Exception := {| cls := ValueError; what := msg |}.

(** The local date and time written in a file stem, or the [ValueError]
    raised by the unpacking, by [int()] or by [datetime()]. *)
Definition parse_local_timestamp (stem : string) : Exception + PyDatetime.datetime :=
  match PyStr.split "_" stem with
  | [date_part; time_part] =>
      match PyStr.split "-" date_part with
      | [y; m; d] =>
          match PyStr.split "-" time_part with
          | [hh; mm; ss] =>
              match PyStr.int y, PyStr.int m, PyStr.int d,
                    PyStr.int hh, PyStr.int mm, PyStr.int ss with
              | Some y, Some m, Some d, Some hh, Some mm, Some ss =>
                  match PyDatetime.make y m d hh mm ss with
                  | Some dt => inr dt
                  | None => inl (value_error "date or time field is out of range")
                  end
              | _, _, _, _, _, _ => inl (value_error "invalid literal for int() with base 10")
              end
          | _ => inl (value_error "wrong number of values to unpack (expected 3)")
          end
      | _ => inl (value_error "wrong number of values to unpack (expected 3)")
      end
  | _ => inl (value_error "wrong number of values to unpack (expected 2)")
  end.

(** The stem [YYYY-MM-DD_HH-MM-SS] of the given fields. *)
Definition canonical_stem (y m d hh mm ss : Z) : string :=
  PyDatetime.pad 4 y +:+ "-" +:+ PyDatetime.pad 2 m +:+ "-" +:+ PyDatetime.pad 2 d +:+ "_"
  +:+ PyDatetime.pad 2 hh +:+ "-" +:+ PyDatetime.pad 2 mm +:+ "-" +:+ PyDatetime.pad 2 ss.




(** [str(dt)] for a naive datetime without microseconds. *)
Definition str_of_datetime (dt : PyDatetime.datetime) : string :=
  PyDatetime.pad 4 (PyDatetime.year dt) +:+ "-" +:+ PyDatetime.pad 2 (PyDatetime.month dt)
  +:+ "-" +:+ PyDatetime.pad 2 (PyDatetime.day dt) +:+ " "
  +:+ PyDatetime.pad 2 (PyDatetime.hour dt) +:+ ":" +:+ PyDatetime.pad 2 (PyDatetime.minute dt)
  +:+ ":" +:+ PyDatetime.pad 2 (PyDatetime.second dt).

(** The inner [try] of [_send_webhook]: the value of [started_at]. *)
Definition build_started_at (env : Env) (stem : string) : M string :=
  try_except
    (local_dt ← match parse_local_timestamp stem with
                | inr dt => mret dt
                | inl e => raise e
                end;
     utc_dt ← or_raise (PyDatetime.astimezone_utc (utcoffset env) local_dt)
       {| cls := OverflowError; what := "date value out of range" |};
     let started_at := PyDatetime.strftime_iso_z utc_dt in
     log DEBUG ("Parsed timestamp: local=" +:+ str_of_datetime local_dt
                +:+ ", utc=" +:+ started_at);;
     mret started_at)
    is_value_or_index_error
    (fun e =>
       log WARNING ("Could not parse timestamp from filename: " +:+ stem
                    +:+ " (" +:+ what e +:+ ")");;
       mret (PyDatetime.strftime_iso_z (utcnow env))).

(** [round(max(0, (audio_size - 44) / 32000))], the value of
    [audio_duration_seconds]; [None] if an exception is raised. *)
Definition duration_of_size (audio_size : Z) : option Z :=
  match PyFloat.int_truediv (audio_size - 44) 32000 with
  | Some q => PyFloat.round (PyFloat.max0 q)
  | None => None
  end.

(** [e.what] of the [HTTPError] that [raise_for_status] raises. *)
Definition http_error_text (status : Z) : string :=
  if status <? 500 then PyStr.str_of_Z status +:+ " Client Error"
  else PyStr.str_of_Z status +:+ " Server Error".

(** [TranscribeWatcher._send_webhook]. The leading emoji of its three
    info and error messages are left out. *)
Definition _send_webhook (env : Env) (config : Config) (audio_file transcript_file : string)
    : M Delivery :=
  let webhook_url := webhook_url config in
  if negb (truthy webhook_url)
  then log DEBUG "Webhook URL not configured, skipping notification";; mret UrlNotConfigured
  else
    try_except2
      (tf ← stat transcript_file;
       let transcript_html := text tf in
       af ← stat audio_file;
       let audio_size := st_size af in
       duration_seconds ← or_raise (PyFloat.max0 <$> PyFloat.int_truediv (audio_size - 44) 32000)
         {| cls := OverflowError; what := "integer division result too large for a float" |};
       started_at ← build_started_at env (Pathlib.stem audio_file);
       rounded ← or_raise (PyFloat.round duration_seconds)
         {| cls := OverflowError; what := "cannot convert float infinity to integer" |};
       let payload := {| transcript_path := transcript_file;
                         transcript_html := transcript_html;
                         started_at := started_at;
                         audio_duration_seconds := rounded |} in
       status ← post env webhook_url payload (webhook_timeout config);
       raise_for_status status;;
       log INFO ("Webhook sent successfully to n8n: " +:+ PyStr.str_of_Z status);;
       log DEBUG ("Payload sent (HTML content: "
                  +:+ PyStr.str_of_Z (Z.of_nat (String.length transcript_html)) +:+ " chars)");;
       mret (Sent status))
      is_request_exception
      (fun e => log ERROR ("Webhook request failed: " +:+ what e);; mret RequestFailed)
      any_exception
      (fun e => log ERROR ("Error preparing webhook: " +:+ what e);; mret PreparationFailed).

(** *** Transcription invoker *)

Definition transcript_path_of (config : Config) (audio_file : string) : string :=
  Pathlib.joinpath (transcripts config) (Pathlib.stem audio_file +:+ ".html").

Definition noscribe_cmd (env : Env) (config : Config) (processed_audio transcript_file : string)
    : list string :=
  let ns := noscribe config in
  [sys_executable env; path ns; processed_audio; transcript_file; "--no-gui"%string;
   "--language"%string; default "auto"%string (language ns);
   "--speaker-detection"%string; default "auto"%string (speaker_detection ns)]
  ++ (if default true (timestamps ns) then ["--timestamps"%string] else [])
  ++ (let pause := default "none"%string (pause ns) in
      if truthy pause && negb (String.eqb pause "none") then ["--pause"%string; pause] else [])
  ++ (match model ns with
      | Some m => if truthy m then ["--model"%string; m] else []
      | None => []
      end).

(** The exits of [_transcribe_file]: the two early returns, and the end
    of the function with what the delivery step did ([None] when the
    webhook is disabled and [_send_webhook] is not called). *)
Inductive Exit :=
| TranscriptionFailed
| LaunchFailed
| Transcribed (delivery : option Delivery).

(** The end of [_transcribe_file]: the webhook notification. *)
Definition deliver (env : Env) (config : Config) (audio_file transcript_file : string) : M Exit :=
  if webhook_enabled config
  then d ← _send_webhook env config audio_file transcript_file; mret (Transcribed (Some d))
  else mret (Transcribed None).

(** The clean-up of the temporary mixed file. *)
Definition cleanup (env : Env) (audio_file processed_audio : string) : M unit :=
  present ← (if negb (String.eqb processed_audio audio_file)
             then exists_ processed_audio else mret false);
  if present : bool
  then try_except
         (unlink env processed_audio;;
          log DEBUG ("Cleaned up temp file: " +:+ processed_audio))
         any_exception
         (fun e => log WARNING ("Failed to cleanup temp file: " +:+ what e))
  else mret tt.

(** [TranscribeWatcher._transcribe_file]. The Python function returns
    [None] on every path; the embedding returns the path taken. *)
Definition _transcribe_file (env : Env) (config : Config) (audio_file : string) : M Exit :=
  let transcript_file := transcript_path_of config audio_file in
  log INFO ("Starting transcription: " +:+ Pathlib.name audio_file);;
  processed_audio ← _premix_audio env audio_file;
  let cmd := noscribe_cmd env config processed_audio transcript_file in
  log DEBUG ("Command: " +:+ PyStr.join " " cmd);;
  returned ← try_except
    ('(returncode, stdout, stderr) ← subprocess_run env cmd;
     if negb (returncode =? 0)
     then
       log ERROR ("noScribe failed with exit code " +:+ PyStr.str_of_Z returncode);;
       log ERROR ("stdout: " +:+ stdout);;
       log ERROR ("stderr: " +:+ stderr);;
       mret (Some TranscriptionFailed)
     else mret None)
    any_exception
    (fun e => log ERROR ("Failed to run noScribe: " +:+ what e);; mret (Some LaunchFailed));
  match returned with
  | Some exit => mret exit
  | None =>
      log INFO ("Transcription complete: " +:+ Pathlib.name transcript_file
                +:+ " (" +:+ elapsed env +:+ "s)");;
      cleanup env audio_file processed_audio;;
      deliver env config audio_file transcript_file
  end.

(** *** Job queue, pipeline loop and startup reconciler *)

Record TranscribeWatcher := {
  queue : list string;
  processing : bool;
  current_file : option string;
  running : bool
}.

(** [TranscriptionQueue.add]. *)
Definition add (audio_file : string) (tw : TranscribeWatcher) : M TranscribeWatcher :=
  log INFO ("Queued for transcription: " +:+ Pathlib.name audio_file);;
  mret {| queue := queue tw ++ [audio_file]; processing := processing tw;
          current_file := current_file tw; running := running tw |}.

(** [TranscribeWatcher._process_queue]. *)
Definition _process_queue (env : Env) (config : Config) (tw : TranscribeWatcher)
    : M TranscribeWatcher :=
  match queue tw with
  | [] => mret tw
  | audio_file :: rest =>
      let tw1 := {| queue := rest; processing := true;
                    current_file := Some audio_file; running := running tw |} in
      try_except
        (_transcribe_file env config audio_file;; mret tt)
        any_exception
        (fun e => log ERROR ("Error transcribing " +:+ Pathlib.name audio_file
                             +:+ ": " +:+ what e));;
      mret {| queue := queue tw1; processing := false;
              current_file := None; running := running tw1 |}
  end.

(** The loop of [start]: [iterations] rounds of
    [while self.running: self._process_queue(); time.sleep(...)]. *)
Fixpoint poll (env : Env) (config : Config) (iterations : nat) (tw : TranscribeWatcher)
    : M TranscribeWatcher :=
  match iterations with
  | O => mret tw
  | S n =>
      if running tw
      then tw' ← _process_queue env config tw; poll env config n tw'
      else mret tw
  end.

(** [recordings_dir.glob("*.wav")]: the names of the directory that end
    in [.wav], in directory order. *)
Definition glob_wav (env : Env) (config : Config) : list string :=
  List.filter (fun nm => PyStr.endswith nm ".wav") (listdir env (recordings config)).

(** The body of the loop of [_process_existing_files]. *)
Definition reconcile_one (config : Config) (tw : TranscribeWatcher) (nm : string)
    : M TranscribeWatcher :=
  let wav_file := Pathlib.joinpath (recordings config) nm in
  let transcript_file := transcript_path_of config wav_file in
  present ← exists_ transcript_file;
  if present : bool then mret tw
  else log INFO ("Found unprocessed file: " +:+ Pathlib.name wav_file);; add wav_file tw.

Fixpoint reconcile_all (config : Config) (names : list string) (tw : TranscribeWatcher)
    : M TranscribeWatcher :=
  match names with
  | [] => mret tw
  | nm :: rest => tw' ← reconcile_one config tw nm; reconcile_all config rest tw'
  end.

(** [TranscribeWatcher._process_existing_files]. *)
Definition _process_existing_files (env : Env) (config : Config) (tw : TranscribeWatcher)
    : M TranscribeWatcher :=
  reconcile_all config (glob_wav env config) tw.

(** The audio files among [names] that have no transcript in [fs]. *)
Definition unprocessed (config : Config) (fs : gmap string File) (names : list string)
    : list string :=
  map (Pathlib.joinpath (recordings config))
    (List.filter
       (fun nm =>
          negb (bool_decide (is_Some
            (fs !! transcript_path_of config (Pathlib.joinpath (recordings config) nm)))))
       names).

(** The watcher object with [more] appended to its queue. *)
Definition enqueue_all (tw : TranscribeWatcher) (more : list string) : TranscribeWatcher :=
  {| queue := queue tw ++ more; processing := processing tw;
     current_file := current_file tw; running := running tw |}.

(** *** Job states of the specification *)

Inductive JobState := Queued | Processing | Delivered | FailedLocal | FailedDelivery.

(** The state a job ends in, from the way [_transcribe_file] ended. *)
Definition job_state (r : Outcome Exit) : JobState :=
  match r with
  | Raise _ => FailedLocal
  | Return TranscriptionFailed => FailedLocal
  | Return LaunchFailed => FailedLocal
  | Return (Transcribed None) => Delivered
  | Return (Transcribed (Some UrlNotConfigured)) => Delivered
  | Return (Transcribed (Some (Sent _))) => Delivered
  | Return (Transcribed (Some RequestFailed)) => FailedDelivery
  | Return (Transcribed (Some PreparationFailed)) => FailedDelivery
  end.

(** Trace queries. *)
Definition is_post (a : Action) : bool :=
  match a with Post _ _ _ => true | _ => false end.

Definition is_unlink_of (p : string) (a : Action) : bool :=
  match a with Unlink q => String.eqb p q | _ => false end.

Definition is_error_log (a : Action) : bool :=
  match a with Log ERROR _ => true | _ => false end.

Definition posts (t : list Action) : list Action := List.filter is_post t.

(** The world after one more log record. *)
Definition snoc_log (w : World) (lv : Level) (msg : string) : World :=
  {| files := files w; trace := trace w ++ [Log lv msg] |}.

(** What the two handlers of [_send_webhook] do with an exception. *)
Definition preparation_failed (w : World) (e : Exception) : Outcome Delivery * World :=
  if is_request_exception e
  then (Return RequestFailed, snoc_log w ERROR ("Webhook request failed: " +:+ what e))
  else (Return PreparationFailed, snoc_log w ERROR ("Error preparing webhook: " +:+ what e)).

(** [m] only appends actions that satisfy [P] to the trace. *)
Definition emits {A} (P : Action -> Prop) (m : M A) : Prop :=
  forall w r w', m w = (r, w') -> exists t, trace w' = trace w ++ t /\ Forall P t.

(** Neither a request nor a file removal. *)
Definition quiet (a : Action) : Prop :=
  match a with
  | Log _ _ | Subprocess _ => True
  | _ => False
  end.

(** The watcher object once the head of its queue has been processed. *)
Definition dequeued (tw : TranscribeWatcher) : TranscribeWatcher :=
  match queue tw with
  | [] => tw
  | _ :: rest => {| queue := rest; processing := false;
                    current_file := None; running := running tw |}
  end.

(** The error records written when the transcription subprocess fails. *)
Definition failure_records (r : RunResult) : list Action :=
  match r with
  | RunCompleted returncode stdout stderr _ =>
      [Log ERROR ("noScribe failed with exit code " +:+ PyStr.str_of_Z returncode);
       Log ERROR ("stdout: " +:+ stdout);
       Log ERROR ("stderr: " +:+ stderr)]
  | RunRaises e => [Log ERROR ("Failed to run noScribe: " +:+ what e)]
  end.

(** The actions of [w'] that come after those of [w]. *)
Definition new_actions (w w' : World) : list Action :=
  drop (length (trace w)) (trace w').

End Watcher.

(* ===================================================================== *)
(** ** The batch script [reprocess_transcripts.py] *)
(* ===================================================================== *)

Module Reprocess.
Import Watcher.

(** [parse_timestamp_from_filename]: the same conversion, without log
    records; a [ValueError] gives the current time, any other exception
    leaves the function. *)
Definition parse_timestamp_from_filename (env : Env) (filename : string)
    : Exception + string :=
  match parse_local_timestamp (Pathlib.stem filename) with
  | inr local_dt =>
      match PyDatetime.astimezone_utc (utcoffset env) local_dt with
      | Some utc_dt => inr (PyDatetime.strftime_iso_z utc_dt)
      | None => inl {| cls := OverflowError; what := "date value out of range" |}
      end
  | inl e =>
      if is_value_or_index_error e
      then inr (PyDatetime.strftime_iso_z (utcnow env))
      else inl e
  end.

End Reprocess.

(* ===================================================================== *)
(** ** Concrete scenarios *)
(* ===================================================================== *)

Module Scenario.
Import Watcher.

Definition audio : string := "/rec/2025-12-05_15-56-47.wav".
Definition transcript : string := "/tr/2025-12-05_15-56-47.html".
Definition mixed : string := "/tmp/2025-12-05_15-56-47_mixed.wav".
Definition endpoint : string := "http://localhost:5678/webhook/transcript".

Definition config (on : bool) (endpoint : string) : Config :=
  {| recordings := "/rec"; transcripts := "/tr";
     noscribe := {| path := "/opt/noScribe/noScribe.py"; language := None;
                    speaker_detection := None; timestamps := None;
                    pause := None; model := None |};
     webhook := Some {| enabled := Some on; url := Some endpoint; timeout := None |} |}.

(** A recording of [size] bytes sampled at [rate] Hz. *)
Definition recording (size rate : Z) : gmap string File :=
  <[audio := {| st_size := size; text := ""; sample_rate := rate |}]> ∅.

Definition html : File := {| st_size := 21; text := "<html>hello</html>"; sample_rate := 0 |}.

Definition head_is (prog : string) (cmd : list string) : bool :=
  match cmd with
  | c :: _ => String.eqb c prog
  | [] => false
  end.

(** An environment five hours west of UTC in which [ffprobe] prints
    [probe_out], [ffmpeg] succeeds and writes its last argument, the
    transcription engine ends as [engine] says (writing the transcript
    when it exits with 0) and the endpoint answers as [answer] says. *)
Definition env (probe_out : string) (engine : option Z) (answer : PostResult) : Env :=
  {| sys_executable := "/usr/bin/python3";
     gettempdir := "/tmp";
     run_process := fun cmd fs =>
       if head_is ffprobe_path cmd then RunCompleted 0 probe_out "" fs
       else if head_is ffmpeg_path cmd
       then RunCompleted 0 "" ""
              (<[List.last cmd EmptyString :=
                   {| st_size := 1000; text := ""; sample_rate := 48000 |}]> fs)
       else match engine with
            | Some 0 => RunCompleted 0 "done" "" (<[transcript := html]> fs)
            | Some rc => RunCompleted rc "some output" "some error" fs
            | None => RunRaises {| cls := OSError; what := "No such file or directory" |}
            end;
     unlink_error := fun _ => None;
     requests_post := fun _ _ _ => answer;
     utcnow := {| PyDatetime.year := 2026; PyDatetime.month := 1; PyDatetime.day := 2;
                  PyDatetime.hour := 3; PyDatetime.minute := 4; PyDatetime.second := 5 |};
     utcoffset := fun _ => -18000;
     elapsed := "12.3";
     float_repr := fun _ => "w";
     listdir := fun _ => [] |}.

(** The same, with [names] as the content of every directory. *)
Definition env_with_dir (names : list string) : Env :=
  let e := env "2" (Some 0) (Response 200) in
  {| sys_executable := sys_executable e; gettempdir := gettempdir e;
     run_process := run_process e; unlink_error := unlink_error e;
     requests_post := requests_post e; utcnow := utcnow e; utcoffset := utcoffset e;
     elapsed := elapsed e; float_repr := float_repr e;
     listdir := fun _ => names |}.

Definition world (fs : gmap string File) : World := {| files := fs; trace := [] |}.

Definition watcher (jobs : list string) : TranscribeWatcher :=
  {| queue := jobs; processing := false; current_file := None; running := true |}.

(** Files that are always, or never, there with some content. *)
Definition present : Debounce.FileSystem := fun _ _ => Some 64000.

Definition absent : Debounce.FileSystem := fun _ _ => None.

Definition burst_schedule : list (Z * Debounce.FileSystemEvent) :=
  [(10, created_wav "/rec/a.wav"); (11, created_wav "/rec/b.wav");
   (11, created_wav "/rec/a.wav"); (12, created_wav "/rec/a.wav")].

Definition handler_with_timer : Debounce.AudioFileHandler :=
  Debounce.on_created 10 (created_wav "/rec/a.wav") (Debounce.init 2).

Definition delivered_world : Watcher.World :=
  world (<[transcript := html]> (recording 72930092 16000)).

Definition failing_queue : Watcher.TranscribeWatcher :=
  watcher [audio; "/rec/next.wav"%string].

Definition two_recordings : Watcher.Env := env_with_dir ["a.wav"; "b.wav"; "notes.txt"]%string.

Definition only_b_transcribed : Watcher.World :=
  world (<["/tr/b.html"%string := html]> ∅).

End Scenario.

(* ===================================================================== *)
(** ** The service as a whole: [TranscribeWatcher.start] and [stop] *)
(* ===================================================================== *)

Module Service.
Import Watcher.

(** [TranscribeWatcher.stop]. The observer thread is outside the model. *)
Definition stop (tw : TranscribeWatcher) : M TranscribeWatcher :=
  log INFO "Stopping watcher...";;
  let tw1 := {| queue := queue tw; processing := processing tw;
                current_file := current_file tw; running := false |} in
  log INFO "Watcher stopped.";;
  mret tw1.

(** [TranscribeWatcher.start], for the first [rounds] rounds of its
    loop and as long as no notification arrives: the reconciler runs
    first, then the loop takes one job per round. *)
Definition start (env : Env) (config : Config) (rounds : nat) (tw : TranscribeWatcher)
    : M TranscribeWatcher :=
  log INFO "Starting TranscribeWatcher...";;
  log INFO ("Watching: " +:+ recordings config);;
  log INFO ("Transcripts: " +:+ transcripts config);;
  tw1 ← _process_existing_files env config tw;
  let tw2 := {| queue := queue tw1; processing := processing tw1;
                current_file := current_file tw1; running := true |} in
  log INFO "Watcher started. Press Ctrl+C to stop.";;
  poll env config rounds tw2.

(** [TranscribeWatcher.__init__], as far as the queue is concerned. *)
Definition init : TranscribeWatcher :=
  {| queue := []; processing := false; current_file := None; running := false |}.

(** The first record that [_transcribe_file] writes for a job. *)
Definition start_record (audio_file : string) : Action :=
  Log INFO ("Starting transcription: " +:+ Pathlib.name audio_file).

(** [m] leaves the file system as it is. *)
Definition keeps_files {A} (m : M A) : Prop :=
  forall w r w', m w = (r, w') -> files w' = files w.

(** An action that is not a request. *)
Definition no_post (a : Action) : Prop := is_post a = false.

(** An action that removes nothing but the temporary mixed file of
    [audio_file], and never [audio_file] itself. *)
Definition spares (env : Env) (audio_file : string) (a : Action) : Prop :=
  match a with
  | Unlink p => p = mixed_path env audio_file /\ p <> audio_file
  | _ => True
  end.

(** How a delivery ends, from the answer to its request. *)
Definition outcome (answer : PostResult) : Delivery :=
  match answer with
  | PostRaises e => if is_request_exception e then RequestFailed else PreparationFailed
  | Response status =>
      if (400 <=? status) && (status <? 600) then RequestFailed else Sent status
  end.

End Service.

(* ===================================================================== *)
(** ** Schedules of notifications *)
(* ===================================================================== *)

Module Schedule.
Import Debounce.




End Schedule.

(* ===================================================================== *)
(** ** The recorder: how [meeting_recorder.py] names its files *)
(* ===================================================================== *)

Module Recorder.

(** [now.strftime("%Y-%m-%d_%H-%M-%S")], for a year of four digits. *)
Definition strftime_stem (now : PyDatetime.datetime) : string :=
  Watcher.canonical_stem (PyDatetime.year now) (PyDatetime.month now) (PyDatetime.day now)
    (PyDatetime.hour now) (PyDatetime.minute now) (PyDatetime.second now).

(** The [output_file] of [MeetingRecorderApp._start_recording], started
    at local time [now]. *)
Definition output_file (recordings_dir : string) (now : PyDatetime.datetime) : string :=
  Pathlib.joinpath recordings_dir (strftime_stem now +:+ ".wav").

End Recorder.

(* ===================================================================== *)
(** ** More scenarios *)
(* ===================================================================== *)

Module Situation.
Import Watcher.

(** [env] with another behaviour of the subprocesses. *)
Definition with_run_process (env : Env)
    (run : list string -> gmap string File -> RunResult) : Env :=
  {| sys_executable := sys_executable env; gettempdir := gettempdir env;
     run_process := run; unlink_error := unlink_error env;
     requests_post := requests_post env; utcnow := utcnow env; utcoffset := utcoffset env;
     elapsed := elapsed env; float_repr := float_repr env; listdir := listdir env |}.

(** Three channels are detected, and the mixer fails. *)
Definition broken_mixer : Env :=
  with_run_process (Scenario.env "3" (Some 0) (Response 200))
    (fun cmd fs =>
       if Scenario.head_is ffprobe_path cmd then RunCompleted 0 "3" "" fs
       else if Scenario.head_is ffmpeg_path cmd
       then RunCompleted 1 "" "Invalid data found when processing input" fs
       else RunCompleted 0 "done" "" (<[Scenario.transcript := Scenario.html]> fs)).

(** A channel count beyond the range of a float: [10 ** 400]. *)
Definition absurd_channel_count : string := PyStr.str_of_Z (10 ^ 400).

End Situation.

(* ===================================================================== *)
(** ** The rest of the batch script [reprocess_transcripts.py] *)
(* ===================================================================== *)

Module Batch.
Import Watcher.

Definition WEBHOOK_URL : string := "http://localhost:5678/webhook/transcript-mvp".

(** What [requests.post] does: it times out, raises another exception,
    or returns a response with a status and a body. *)
Inductive Reply :=
| TimesOut
| Breaks (e : Exception)
| Answers (status_code : Z) (text : string).

(** What the script does to the outside, in the order it happens. *)
Inductive Output :=
| Print (line : string)
| Request (endpoint : string) (json : WebhookPayload) (seconds : Z)
| Sleep (seconds : Z).

(** The endpoint and the value of [TRANSCRIPTS_DIR] on the host. *)
Record Host := {
  post : string -> WebhookPayload -> Z -> Reply;
  TRANSCRIPTS_DIR : string
}.

(** [x * n] for a float [x] and an integer [n]; [None] stands for the
    [OverflowError] of the conversion of [n]. *)
Definition mul_int (x : spec_float) (n : Z) : option spec_float :=
  match PyFloat.of_int n with
  | Some y => Some (SFmul PyFloat.prec PyFloat.emax x y)
  | None => None
  end.

(** [int(x)]: truncation towards zero; [None] stands for the
    [OverflowError] or [ValueError] raised on infinities and NaN. *)
Definition int_of_float (x : spec_float) : option Z :=
  match x with
  | S754_zero _ => Some 0
  | S754_finite s m e =>
      let a := match e with
               | Zneg k => Z.shiftr (Zpos m) (Zpos k)
               | _ => Z.shiftl (Zpos m) e
               end in
      Some (if s then - a else a)
  | _ => None
  end.

(** [estimate_duration], for the size that [stat()] reports. *)
Definition estimate_duration (st_size : Z) : Exception + Z :=
  match PyFloat.int_truediv st_size 1024 with
  | None => inl {| cls := OverflowError;
                   what := "integer division result too large for a float" |}
  | Some size_kb =>
      match mul_int size_kb 30 ≫= int_of_float with
      | None => inl {| cls := OverflowError;
                       what := "cannot convert float infinity to integer" |}
      | Some seconds => inr (Z.max 60 seconds)
      end
  end.

(** The exceptions that leave the [try] block of [process_transcript],
    by the handler that catches them. *)
Inductive Escape := Timeout | Error (e : Exception).

Definition nl : string := String (ascii_of_nat 10) EmptyString.

(** The [try] block of [process_transcript]: what it does, and how it
    ends. *)
Definition attempt (env : Env) (host : Host) (fs : gmap string File) (transcript_path : string)
    : list Output * (Escape + bool) :=
  match fs !! transcript_path with
  | None =>
      ([], inl (Error {| cls := OSError;
                         what := "No such file or directory: " +:+ transcript_path |}))
  | Some f =>
      let transcript_html := text f in
      match Reprocess.parse_timestamp_from_filename env (Pathlib.name transcript_path) with
      | inl e => ([], inl (Error e))
      | inr started_at =>
          match estimate_duration (st_size f) with
          | inl e => ([], inl (Error e))
          | inr duration =>
              let payload := {| transcript_path := transcript_path;
                                transcript_html := transcript_html;
                                started_at := started_at;
                                audio_duration_seconds := duration |} in
              let request := Request WEBHOOK_URL payload 180 in
              match post host WEBHOOK_URL payload 180 with
              | TimesOut => ([request], inl Timeout)
              | Breaks e => ([request], inl (Error e))
              | Answers status_code body =>
                  if status_code =? 200
                  then ([request; Print ("    OK (" +:+ elapsed env +:+ "s)")], inr true)
                  else ([request;
                         Print ("    FAILED: HTTP " +:+ PyStr.str_of_Z status_code);
                         Print ("    Response: " +:+ substring 0 200 body)],
                        inr false)
              end
          end
      end
  end.

(** [process_transcript]. *)
Definition process_transcript (env : Env) (host : Host) (fs : gmap string File)
    (transcript_path : string) (index total : Z) : bool * list Output :=
  let header := Print (nl +:+ "[" +:+ PyStr.str_of_Z index +:+ "/" +:+ PyStr.str_of_Z total
                       +:+ "] Processing: " +:+ Pathlib.name transcript_path) in
  match attempt env host fs transcript_path with
  | (out, inr ok) => (ok, header :: out)
  | (out, inl Timeout) => (false, header :: out ++ [Print "    TIMEOUT after 180s"])
  | (out, inl (Error e)) => (false, header :: out ++ [Print ("    ERROR: " +:+ what e)])
  end.

(** [sorted(...)] on names: ascending in the order of their characters. *)
Fixpoint insert (x : string) (l : list string) : list string :=
  match l with
  | [] => [x]
  | y :: rest => if String.leb x y then x :: l else y :: insert x rest
  end.

Definition sorted (l : list string) : list string := foldr insert [] l.

(** [s * n] for a string. *)
Fixpoint times (s : string) (n : nat) : string :=
  match n with
  | O => EmptyString
  | S k => s +:+ times s k
  end.

(** [TRANSCRIPTS_DIR.glob("*.html")], as names. *)
Definition glob_html (env : Env) (host : Host) : list string :=
  List.filter (fun nm => PyStr.endswith nm ".html") (listdir env (TRANSCRIPTS_DIR host)).

(** The [for] loop of [main], from transcript number [i] on: the two
    counters at its end, and what it did. *)
Fixpoint loop (env : Env) (host : Host) (fs : gmap string File) (transcripts : list string)
    (i total success failed : Z) : Z * Z * list Output :=
  match transcripts with
  | [] => (success, failed, [])
  | transcript :: rest =>
      let '(ok, out) := process_transcript env host fs transcript i total in
      let success := if ok then success + 1 else success in
      let failed := if ok then failed else failed + 1 in
      let pause := if i <? total then [Sleep 2] else [] in
      let '(success, failed, out') := loop env host fs rest (i + 1) total success failed in
      (success, failed, out ++ pause ++ out')
  end.

(** [main]: the exit status, and what the script did. *)
Definition main (env : Env) (host : Host) (fs : gmap string File) : Z * list Output :=
  let transcripts :=
    map (Pathlib.joinpath (TRANSCRIPTS_DIR host)) (sorted (glob_html env host)) in
  let total := Z.of_nat (length transcripts) in
  let '(success, failed, out) := loop env host fs transcripts 1 total 0 0 in
  (if failed =? 0 then 0 else 1,
   [Print ("Found " +:+ PyStr.str_of_Z total +:+ " transcripts to process");
    Print ("Estimated time: ~" +:+ PyStr.str_of_Z (total * 30 / 60) +:+ " minutes");
    Print (times "=" 50)]
   ++ out
   ++ [Print (nl +:+ times "=" 50);
       Print ("COMPLETE: " +:+ PyStr.str_of_Z success +:+ " succeeded, "
              +:+ PyStr.str_of_Z failed +:+ " failed")]).

(** Queries on what was done. *)
Definition is_request (o : Output) : bool :=
  match o with Request _ _ _ => true | _ => false end.

Definition is_sleep (o : Output) : bool :=
  match o with Sleep _ => true | _ => false end.

(** Whether a transcript is processed with success. *)
Definition succeeds (env : Env) (host : Host) (fs : gmap string File) (transcript_path : string)
    : bool :=
  match attempt env host fs transcript_path with
  | (_, inr true) => true
  | _ => false
  end.

(** A host whose endpoint answers every request in the same way. *)
Definition answering (reply : Reply) : Host :=
  {| post := fun _ _ _ => reply; TRANSCRIPTS_DIR := "/tr" |}.

End Batch.

(* ===================================================================== *)
(** ** The recorder's [AudioRecorder] class *)
(* ===================================================================== *)

Module Capture.

(** A chunk of audio handed to the callback: frames of samples. *)
Definition Frame := list Z.
Definition Chunk := list Frame.

(** The [sd.InputStream] object held in [self.stream]: created only, or
    started. *)
Inductive Stream := Created | Active.

(** The [AudioRecorder] object. *)
Record AudioRecorder := {
  sample_rate : Z;
  channels : Z;
  device : option Z;
  recording : bool;
  audio_data : list Chunk;
  stream : option Stream;
  output_file : option string
}.

(** What the sound device does when a stream is opened and started. *)
Inductive Device := OpenFails (e : string) | StartFails (e : string) | Starts.

(** What [sf.write] has written: for each path, the frames and the
    sample rate. *)
Definition Disk := gmap string (list Frame * Z).

Definition update (r : AudioRecorder) (recording : bool) (audio_data : list Chunk)
    (stream : option Stream) (output_file : option string) : AudioRecorder :=
  {| sample_rate := sample_rate r; channels := channels r; device := device r;
     recording := recording; audio_data := audio_data; stream := stream;
     output_file := output_file |}.

(** [AudioRecorder.start]: [False] while a recording is going on,
    [True] when the stream has started, and a [RuntimeError] (on the
    left, with its message) when the device fails. *)
Definition start (dev : Device) (file : string) (r : AudioRecorder)
    : (string + bool) * AudioRecorder :=
  if recording r then (inr false, r)
  else
    match dev with
    | Starts => (inr true, update r true [] (Some Active) (Some file))
    | OpenFails e =>
        (inl ("Failed to start recording: " +:+ e), update r false [] (stream r) (Some file))
    | StartFails e =>
        (inl ("Failed to start recording: " +:+ e), update r false [] (Some Created) (Some file))
    end.

(** [AudioRecorder._audio_callback], without the status line that it
    may print. *)
Definition _audio_callback (indata : Chunk) (r : AudioRecorder) : AudioRecorder :=
  if recording r
  then update r (recording r) (audio_data r ++ [indata]) (stream r) (output_file r)
  else r.

(** [AudioRecorder.stop]: the file that was saved, if any; on the left,
    the exception of [mkdir] or [sf.write], as [write_error] gives it.
    Stopping and closing the stream is assumed not to fail. *)
Definition stop (write_error : string -> option string) (r : AudioRecorder) (disk : Disk)
    : (string + option string) * AudioRecorder * Disk :=
  if negb (recording r) then (inr None, r, disk)
  else
    let r1 := update r false (audio_data r) None (output_file r) in
    match audio_data r1, output_file r1 with
    | _ :: _, Some file =>
        match write_error file with
        | Some e => (inl e, r1, disk)
        | None =>
            (inr (Some file), r1, <[file := (concat (audio_data r1), sample_rate r1)]> disk)
        end
    | _, _ => (inr None, r1, disk)
    end.

(** The callback is called once for each of [chunks], in order. *)
Definition capture (chunks : list Chunk) (r : AudioRecorder) : AudioRecorder :=
  foldl (fun r indata => _audio_callback indata r) r chunks.

(** [AudioRecorder.__init__] for the default configuration. *)
Definition init : AudioRecorder :=
  {| sample_rate := 16000; channels := 1; device := None;
     recording := false; audio_data := []; stream := None; output_file := None |}.

End Capture.

(* ===================================================================== *)
(** ** The import script [process_markdown_transcripts.py] *)
(* ===================================================================== *)

Module Markdown.
Import Watcher.

(** The characters that [\d] and [\w] match, within ASCII. *)
Definition is_digit (c : ascii) : bool :=
  let n := nat_of_ascii c in ((48 <=? n) && (n <=? 57))%nat.

Definition is_word (c : ascii) : bool :=
  let n := nat_of_ascii c in
  (is_digit c || (65 <=? n) && (n <=? 90) || (97 <=? n) && (n <=? 122) || (n =? 95))%nat.



(** What follows the minutes in [\b(\d{1,2}):(\d{2})\b]: a colon, two
    digits and a word boundary. The result is the two groups and the
    length of the match. *)
Definition match_rest (mins : string) (after : string) : option (string * string * nat) :=
  match after with
  | String colon (String c (String d rest)) =>
      let boundary := match rest with
                      | String e _ => negb (is_word e)
                      | EmptyString => true
                      end in
      if Ascii.eqb colon ":" && is_digit c && is_digit d && boundary
      then Some (mins, String c (String d ""), (String.length mins + 3)%nat)
      else None
  | _ => None
  end.

(** An attempt to match [\b(\d{1,2}):(\d{2})\b] at the start of [s],
    the previous character being a word character or not: two digits of
    minutes are tried first, then one. *)
Definition match_here (prev_word : bool) (s : string) : option (string * string * nat) :=
  if prev_word then None
  else
    match s with
    | String a after1 =>
        if is_digit a
        then
          let two := match after1 with
                     | String b after2 =>
                         if is_digit b then match_rest (String a (String b "")) after2
                         else None
                     | EmptyString => None
                     end in
          match two with
          | Some found => Some found
          | None => match_rest (String a "") after1
          end
        else None
    | EmptyString => None
    end.

(** [re.findall(r'\b(\d{1,2}):(\d{2})\b', content)], from left to right:
    [skip] characters of a match are still to be passed over, and
    [prev_word] tells whether the previous character is a word
    character. *)
Fixpoint findall (skip : nat) (prev_word : bool) (s : string) : list (string * string) :=
  match s with
  | EmptyString => []
  | String c rest =>
      match skip with
      | S k => findall k (is_word c) rest
      | O =>
          match match_here prev_word s with
          | Some (mins, secs, len) => (mins, secs) :: findall (len - 1) (is_word c) rest
          | None => findall 0 (is_word c) rest
          end
      end
  end.

(** [len(content.split())]: the number of maximal runs of characters
    that are not white space. *)
Fixpoint count_words (in_word : bool) (s : string) : Z :=
  match s with
  | EmptyString => 0
  | String c rest =>
      if PyStr.isspace c then count_words false rest
      else (if in_word then 0 else 1) + count_words true rest
  end.

(** The loop over the timestamps: the largest [int(mins) * 60 + int(secs)]. *)
Definition largest (timestamps : list (string * string)) : Z :=
  fold_left
    (fun max_seconds t =>
       Z.max max_seconds (default 0 (PyStr.int t.1) * 60 + default 0 (PyStr.int t.2)))
    timestamps 0.

(** [estimate_duration]. *)
Definition estimate_duration (content : string) : Z :=
  let max_seconds := largest (findall 0 false content) in
  if 0 <? max_seconds then max_seconds
  else
    let words := count_words false content in
    Z.max 60 (words / 150 * 60).

(** *** Checks by enumeration *)





End Markdown.

(* ===================================================================== *)
(** ** The menu bar application (src/tools/meeting_recorder.py) *)
(* ===================================================================== *)

Module Devices.

(** An entry of [sd.query_devices()]. *)
Record DeviceInfo := { name : string; max_input_channels : Z }.

(** [sub in s] for strings. *)
Fixpoint contains (sub s : string) : bool :=
  String.prefix sub s
  || match s with
     | EmptyString => false
     | String _ rest => contains sub rest
     end.

(** The loop of [get_audio_device_index], from index [i] on. *)
Fixpoint first_match (wanted : string) (i : Z) (devices : list DeviceInfo) : option Z :=
  match devices with
  | [] => None
  | dev :: rest =>
      if contains wanted (PyStr.lower (name dev)) then Some i
      else first_match wanted (i + 1) rest
  end.

(** [get_audio_device_index], for the list that [sd.query_devices()]
    returns; names are ASCII text. *)
Definition get_audio_device_index (devices : list DeviceInfo) (device_name : string)
    : option Z :=
  if String.eqb (PyStr.lower device_name) "default" then None
  else first_match (PyStr.lower device_name) 0 devices.

(** [s] occurs in [t]. *)
Definition occurs (s t : string) : Prop := exists pre post, t = pre +:+ s +:+ post.

End Devices.

Module Menu.

(** The title of the application in the menu bar. *)
Inductive Title := TITLE_IDLE | TITLE_RECORDING.

(** A call of [rumps.notification]; its title is always
    "MeetingRecorder". *)
Record Notification := { subtitle : string; message : string }.

(** The [MeetingRecorderApp] object, with the title of the menu item
    that toggles the recording (the [sender] of its callback) and the
    notifications shown so far. *)
Record MeetingRecorderApp := {
  recordings_dir : string;
  recorder : Capture.AudioRecorder;
  recording_start_time : option PyDatetime.datetime;
  title : Title;
  sender_title : string;
  notifications : list Notification
}.

Definition notification (n : Notification) (app : MeetingRecorderApp) : MeetingRecorderApp :=
  {| recordings_dir := recordings_dir app; recorder := recorder app;
     recording_start_time := recording_start_time app; title := title app;
     sender_title := sender_title app; notifications := notifications app ++ [n] |}.

Definition with_recorder (r : Capture.AudioRecorder) (app : MeetingRecorderApp)
    : MeetingRecorderApp :=
  {| recordings_dir := recordings_dir app; recorder := r;
     recording_start_time := recording_start_time app; title := title app;
     sender_title := sender_title app; notifications := notifications app |}.

(** [MeetingRecorderApp._start_recording]: [now] is the time read for
    the file name, [now'] the time read once the recorder has started.
    A notification is assumed not to fail. *)
Definition _start_recording (dev : Capture.Device) (now now' : PyDatetime.datetime)
    (app : MeetingRecorderApp) : MeetingRecorderApp :=
  let output_file := Recorder.output_file (recordings_dir app) now in
  match Capture.start dev output_file (recorder app) with
  | (inr _, r) =>
      notification
        {| subtitle := "Recording started";
           message := "Saving to: " +:+ Pathlib.name output_file |}
        {| recordings_dir := recordings_dir app; recorder := r;
           recording_start_time := Some now'; title := TITLE_RECORDING;
           sender_title := "Stop Recording"; notifications := notifications app |}
  | (inl e, r) =>
      notification {| subtitle := "Error"; message := e |} (with_recorder r app)
  end.

(** [MeetingRecorderApp._stop_recording]. [elapsed] gives the whole
    minutes and the remaining seconds since the given start time; an
    exception of [recorder.stop()] leaves the method (on the left). *)
Definition _stop_recording (write_error : string -> option string)
    (elapsed : PyDatetime.datetime -> Z * Z)
    (app : MeetingRecorderApp) (disk : Capture.Disk)
    : (string + unit) * MeetingRecorderApp * Capture.Disk :=
  match Capture.stop write_error (recorder app) disk with
  | (inl e, r, disk') => (inl e, with_recorder r app, disk')
  | (inr output_file, r, disk') =>
      let duration :=
        match recording_start_time app with
        | Some began =>
            let '(minutes, seconds) := elapsed began in
            " (" +:+ PyStr.str_of_Z minutes +:+ "m " +:+ PyStr.str_of_Z seconds +:+ "s)"
        | None => EmptyString
        end in
      let app1 := {| recordings_dir := recordings_dir app; recorder := r;
                     recording_start_time := None; title := TITLE_IDLE;
                     sender_title := "Start Recording";
                     notifications := notifications app |} in
      let saved :=
        match output_file with
        | Some file => if bool_decide (is_Some (disk' !! file)) then Some file else None
        | None => None
        end in
      (inr tt,
       match saved with
       | Some file =>
           notification
             {| subtitle := "Recording saved" +:+ duration;
                message := "File: " +:+ Pathlib.name file +:+ Batch.nl
                           +:+ "Transcription will start automatically." |} app1
       | None =>
           notification
             {| subtitle := "Recording stopped"; message := "No audio was captured." |} app1
       end,
       disk')
  end.

(** [MeetingRecorderApp.toggle_recording]. *)
Definition toggle_recording (dev : Capture.Device) (write_error : string -> option string)
    (elapsed : PyDatetime.datetime -> Z * Z) (now now' : PyDatetime.datetime)
    (app : MeetingRecorderApp) (disk : Capture.Disk)
    : (string + unit) * MeetingRecorderApp * Capture.Disk :=
  if Capture.recording (recorder app)
  then _stop_recording write_error elapsed app disk
  else (inr tt, _start_recording dev now now' app, disk).

(** [MeetingRecorderApp.__init__], for an idle recorder. *)
Definition init (recordings_dir : string) (r : Capture.AudioRecorder) : MeetingRecorderApp :=
  {| recordings_dir := recordings_dir; recorder := r; recording_start_time := None;
     title := TITLE_IDLE; sender_title := "Start Recording"; notifications := [] |}.

(** The menu shows what the recorder does. *)
Definition in_step (app : MeetingRecorderApp) : Prop :=
  title app = (if Capture.recording (recorder app) then TITLE_RECORDING else TITLE_IDLE)
  /\ sender_title app
     = (if Capture.recording (recorder app) then "Stop Recording" else "Start Recording")%string.

End Menu.

(* ===================================================================== *)
(** * Properties *)
(* ===================================================================== *)

(** ** Sanity checks of the string and path helpers *)

Example name_ex : Pathlib.name "/rec/2025-12-05_15-56-47.wav" = "2025-12-05_15-56-47.wav"%string.
Proof. reflexivity. Qed.
Example suffix_ex : Pathlib.suffix "/rec/a.b.WAV" = ".WAV"%string.
Proof. reflexivity. Qed.
Example suffix_hidden : Pathlib.suffix "/rec/.wav" = ""%string.
Proof. reflexivity. Qed.
Example stem_ex : Pathlib.stem "/rec/2025-12-05_15-56-47.wav" = "2025-12-05_15-56-47"%string.
Proof. reflexivity. Qed.
Example split_ex : PyStr.split "-" "2025-12-05" = ["2025"; "12"; "05"]%string.
Proof. reflexivity. Qed.
Example split_empty : PyStr.split "_" "" = [""]%string.
Proof. reflexivity. Qed.
Example int_ex : PyStr.int " +05 " = Some 5.
Proof. reflexivity. Qed.
Example int_us : PyStr.int "1_0" = Some 10.
Proof. reflexivity. Qed.
Example int_bad : PyStr.int "1__0" = None /\ PyStr.int "" = None /\ PyStr.int "a" = None /\ PyStr.int "_1" = None /\ PyStr.int "1_" = None.
Proof. repeat split; reflexivity. Qed.
Example int_space :
  PyStr.int (String (ascii_of_nat 9) (String "5" (String (ascii_of_nat 10) ""))) = Some 5
  /\ PyStr.int (String (ascii_of_nat 28) "5") = None
  /\ PyStr.int (PyStr.strip (String (ascii_of_nat 28) "5")) = Some 5
  /\ PyStr.int "00012" = Some 12 /\ PyStr.int "-3" = Some (-3)
  /\ PyStr.int "- 3" = None /\ PyStr.int "+-3" = None /\ PyStr.int "1 2" = None
  /\ PyStr.int "0x10" = None /\ PyStr.int "+" = None.
Proof. repeat split; reflexivity. Qed.
Example path_ex :
  (Pathlib.suffix "a.tar.gz", Pathlib.stem "a.tar.gz") = (".gz", "a.tar")%string
  /\ (Pathlib.suffix "a.", Pathlib.stem "a.") = ("", "a.")%string
  /\ (Pathlib.suffix ".bashrc", Pathlib.stem ".bashrc") = ("", ".bashrc")%string
  /\ (Pathlib.suffix "a.b.", Pathlib.stem "a.b.") = ("", "a.b.")%string
  /\ (Pathlib.suffix "/x/y.z/w", Pathlib.stem "/x/y.z/w") = ("", "w")%string
  /\ (Pathlib.suffix "a..wav", Pathlib.stem "a..wav") = (".wav", "a.")%string
  /\ (Pathlib.suffix "x/.a.wav", Pathlib.stem "x/.a.wav") = (".wav", ".a")%string
  /\ PyStr.split "_" "a__b" = ["a"; ""; "b"]%string
  /\ PyStr.split "_" "_" = [""; ""]%string.
Proof. repeat split; reflexivity. Qed.
Example str_ex : PyStr.str_of_Z 48000 = "48000"%string /\ PyStr.str_of_Z 0 = "0"%string /\ PyStr.str_of_Z (-7) = "-7"%string.
Proof. repeat split; reflexivity. Qed.
Example zfill_ex :
  PyStr.zfill 2 (PyStr.str_of_Z 5) = "05"%string
  /\ PyStr.zfill 4 (PyStr.str_of_Z 2025) = "2025"%string
  /\ PyStr.zfill 4 (PyStr.str_of_Z 5) = "0005"%string
  /\ PyStr.zfill 2 (PyStr.str_of_Z 123) = "123"%string.
Proof. repeat split; reflexivity. Qed.
Example debounce_two_events :
  Debounce.queue (Debounce.observe (fun _ _ => Some 1000) 2
     [(10, created_wav "/r/a.wav"); (11, created_wav "/r/a.wav")] 13) = ["/r/a.wav"%string]
  /\ Debounce.queue (Debounce.observe (fun _ _ => Some 1000) 2
     [(10, created_wav "/r/a.wav"); (11, created_wav "/r/a.wav")] 12) = []
  /\ Debounce.queue (Debounce.observe (fun _ _ => Some 1000) 2
     [(10, created_wav "/r/a.wav"); (12, created_wav "/r/a.wav")] 14)
     = ["/r/a.wav"%string; "/r/a.wav"%string].
Proof. repeat split; vm_compute; reflexivity. Qed.

(** ** Sanity checks of the number and calendar helpers *)

Example ord_epoch : PyDatetime._ymd2ord 1970 1 1 = 719163.
Proof. reflexivity. Qed.
Example ord_max : PyDatetime._ymd2ord 9999 12 31 = PyDatetime._MAXORDINAL.
Proof. reflexivity. Qed.
Example ord2ymd_ex :
  PyDatetime._ord2ymd 719163 = (1970, 1, 1)
  /\ PyDatetime._ord2ymd 1 = (1, 1, 1)
  /\ PyDatetime._ord2ymd 3652059 = (9999, 12, 31)
  /\ PyDatetime._ord2ymd (PyDatetime._ymd2ord 2024 2 29) = (2024, 2, 29)
  /\ PyDatetime._ord2ymd (PyDatetime._ymd2ord 2024 12 31) = (2024, 12, 31)
  /\ PyDatetime._ord2ymd (PyDatetime._ymd2ord 2025 3 1) = (2025, 3, 1).
Proof. repeat split; reflexivity. Qed.
Example ord2ymd_more :
  map PyDatetime._ord2ymd [2; 365; 366; 730; 1461; 1462; 36524; 36525; 146097; 146098;
                           738000; 59; 60; 61; 730120; 730119]
  = [(1, 1, 2); (1, 12, 31); (2, 1, 1); (2, 12, 31); (4, 12, 31); (5, 1, 1);
     (100, 12, 31); (101, 1, 1); (400, 12, 31); (401, 1, 1); (2021, 7, 29);
     (1, 2, 28); (1, 3, 1); (1, 3, 2); (2000, 1, 1); (1999, 12, 31)].
Proof. reflexivity. Qed.
Example round_ties :
  map (fun ab : Z * Z => PyFloat.round <$> (PyFloat.Float <$> PyFloat.int_truediv ab.1 ab.2))
    [(1, 2); (3, 2); (5, 2); (7, 2); (-1, 2); (-3, 2); (1, 10)]
  = [Some (Some 0); Some (Some 2); Some (Some 2); Some (Some 4);
     Some (Some 0); Some (Some (-2)); Some (Some 0)]
  /\ PyFloat.round (PyFloat.Float (S754_finite false 0x14000000000001 (-51))) = Some 3
  /\ PyFloat.round (PyFloat.Float (S754_finite false 0x1fffffffffffff (-54))) = Some 0.
Proof. repeat split; reflexivity. Qed.
Example truediv_more :
  PyFloat.int_truediv (10 ^ 18) 32000 = Some (S754_finite false 0x1c6bf526340000 (-8))
  /\ PyFloat.int_truediv (2 ^ 70 + 12345) 32000 = Some (S754_finite false 0x10624dd2f1a9fc 3)
  /\ PyFloat.int_truediv (-5) 32000 = Some (S754_finite true 0x147ae147ae147b (-65))
  /\ PyFloat.of_int (2 ^ 53 + 1) = Some (S754_finite false (2 ^ 52) 1)
  /\ PyFloat.of_int (2 ^ 60 + 2 ^ 7 + 1) = Some (S754_finite false (2 ^ 52 + 1) 8)
  /\ PyFloat.of_int (2 ^ 1024) = None.
Proof. repeat split; reflexivity. Qed.
Example float_one : PyFloat.of_int 1 = Some PyFloat.one.
Proof. reflexivity. Qed.
Example truediv_ex :
  (PyFloat.round <$> (PyFloat.max0 <$> PyFloat.int_truediv (72930092 - 44) 32000)) = Some (Some 2279)
  /\ (PyFloat.round <$> (PyFloat.max0 <$> PyFloat.int_truediv (16044 - 44) 32000)) = Some (Some 0)
  /\ (PyFloat.round <$> (PyFloat.max0 <$> PyFloat.int_truediv (48044 - 44) 32000)) = Some (Some 2)
  /\ (PyFloat.round <$> (PyFloat.max0 <$> PyFloat.int_truediv (16045 - 44) 32000)) = Some (Some 1)
  /\ (PyFloat.round <$> (PyFloat.max0 <$> PyFloat.int_truediv (0 - 44) 32000)) = Some (Some 0).
Proof. repeat split; reflexivity. Qed.
Example third :
  PyFloat.div_int PyFloat.one 3 = Some (S754_finite false 6004799503160661 (-54)).
Proof. reflexivity. Qed.

(* ===================================================================== *)
(** ** The debounce coalescer *)
(* ===================================================================== *)

Section DebounceFacts.
Import Debounce.

Variable fs : FileSystem.

Lemma lookup_finish h i k :
  timers (finish i h) !! k
  = if decide (k = i) then set_finished <$> timers h !! i else timers h !! k.
Proof.
  unfold finish; simpl. destruct (timers h !! i) as [tm|] eqn:E.
  - destruct (decide (k = i)) as [->|Hne].
    + rewrite list_lookup_insert_eq; [done|]. by eapply lookup_lt_Some.
    + by rewrite list_lookup_insert_ne.
  - destruct (decide (k = i)) as [->|Hne]; [by rewrite E|done].
Qed.

Lemma length_finish h i : length (timers (finish i h)) = length (timers h).
Proof.
  unfold finish; simpl. destruct (timers h !! i); [apply length_insert|done].
Qed.

Lemma WF_init d : WF (init d).
Proof.
  split; simpl.
  - intros i tm H. by rewrite lookup_nil in H.
  - intros q i H. by rewrite lookup_empty in H.
Qed.

Lemma _add_to_queue_timers now q h : timers (_add_to_queue fs now q h) = timers h.
Proof. unfold _add_to_queue. by destruct (has_content fs now q). Qed.

Lemma _add_to_queue_pending now q h :
  pending_files (_add_to_queue fs now q h) = delete q (pending_files h).
Proof. unfold _add_to_queue. by destruct (has_content fs now q). Qed.

Lemma _add_to_queue_debounce now q h :
  debounce_seconds (_add_to_queue fs now q h) = debounce_seconds h.
Proof. unfold _add_to_queue. by destruct (has_content fs now q). Qed.

Lemma _add_to_queue_queue now q h :
  queue (_add_to_queue fs now q h)
  = if has_content fs now q then queue h ++ [q] else queue h.
Proof. unfold _add_to_queue. by destruct (has_content fs now q). Qed.

(** What firing does, field by field. *)
Lemma run_timer_fire now h i tm :
  timers h !! i = Some tm -> finished tm = false -> deadline tm <= now ->
  run_timer fs now h i = finish i (_add_to_queue fs (deadline tm) (args tm) h).
Proof.
  intros E F Hd. unfold run_timer. rewrite E, F. simpl.
  destruct (Z.leb_spec (deadline tm) now); [done|lia].
Qed.

Lemma run_timer_skip now h i :
  (forall tm, timers h !! i = Some tm -> finished tm = true \/ now < deadline tm) ->
  run_timer fs now h i = h.
Proof.
  intros H. unfold run_timer. destruct (timers h !! i) as [tm|] eqn:E; [|done].
  destruct (H tm eq_refl) as [F|Hd].
  - by rewrite F.
  - destruct (Z.leb_spec (deadline tm) now); [lia|]. by rewrite andb_false_r.
Qed.

Lemma run_timer_cases now h i :
  run_timer fs now h i = h
  \/ exists tm, timers h !! i = Some tm /\ finished tm = false /\ deadline tm <= now
                /\ run_timer fs now h i = finish i (_add_to_queue fs (deadline tm) (args tm) h).
Proof.
  destruct (timers h !! i) as [tm|] eqn:E.
  - destruct (finished tm) eqn:F.
    + left. apply run_timer_skip. intros tm' E'. left. congruence.
    + destruct (Z.le_gt_cases (deadline tm) now).
      * right. exists tm. repeat split; try done. by apply run_timer_fire.
      * left. apply run_timer_skip. intros tm' E'. right. by simplify_eq.
  - left. apply run_timer_skip. intros tm' E'. congruence.
Qed.

Lemma run_timer_length now h i : length (timers (run_timer fs now h i)) = length (timers h).
Proof.
  destruct (run_timer_cases now h i) as [->|(tm & _ & _ & _ & ->)]; [done|].
  by rewrite length_finish, _add_to_queue_timers.
Qed.

Lemma run_timer_debounce now h i :
  debounce_seconds (run_timer fs now h i) = debounce_seconds h.
Proof.
  destruct (run_timer_cases now h i) as [->|(tm & _ & _ & _ & ->)]; [done|].
  unfold finish; simpl. apply _add_to_queue_debounce.
Qed.

Lemma WF_run_timer now h i : WF h -> WF (run_timer fs now h i).
Proof.
  intros [Hlive Hptr].
  destruct (run_timer_cases now h i) as [->|(tm & E & F & _ & ->)]; [done|].
  split.
  - intros k tm' Ek Fk. rewrite lookup_finish, _add_to_queue_timers in Ek.
    change (pending_files (finish i ?x)) with (pending_files x).
    rewrite _add_to_queue_pending.
    destruct (decide (k = i)) as [->|Hne].
    + rewrite E in Ek. simpl in Ek. by injection Ek as <-.
    + rewrite lookup_delete_ne; [by apply Hlive|].
      intros Heq. pose proof (Hlive _ _ E F) as H1.
      pose proof (Hlive _ _ Ek Fk) as H2. rewrite Heq in H1. congruence.
  - intros q k Hq.
    change (pending_files (finish i ?x)) with (pending_files x) in Hq.
    rewrite _add_to_queue_pending in Hq.
    apply lookup_delete_Some in Hq as [Hne Hq].
    destruct (Hptr _ _ Hq) as (tm' & Ek & Ha).
    rewrite lookup_finish, _add_to_queue_timers.
    destruct (decide (k = i)) as [->|Hki].
    + rewrite E. simpl. eexists; split; [done|]. simpl. congruence.
    + eauto.
Qed.

Lemma on_created_ignore now ev h :
  is_directory ev = true \/ is_wav (src_path ev) = false ->
  on_created now ev h = h.
Proof.
  intros [H|H]; unfold on_created; rewrite H; [done|].
  by destruct (is_directory ev).
Qed.

Section Accepted.
Variables (now : Z) (ev : FileSystemEvent) (h : AudioFileHandler).
Hypothesis Hfile : is_directory ev = false.
Hypothesis Hwav : is_wav (src_path ev) = true.

Lemma on_created_timers :
  timers (on_created now ev h)
  = timers (cancelled (src_path ev) h)
    ++ [{| interval := debounce_seconds h; args := src_path ev;
           started := now; finished := false |}].
Proof.
  unfold on_created, cancelled. rewrite Hfile, Hwav. simpl.
  by destruct (pending_files h !! src_path ev).
Qed.

Lemma on_created_pending :
  pending_files (on_created now ev h)
  = <[src_path ev := length (timers h)]> (pending_files h).
Proof.
  unfold on_created. rewrite Hfile, Hwav. simpl.
  destruct (pending_files h !! src_path ev) as [i|]; simpl; [|done].
  f_equal. destruct (timers h !! i); [apply length_insert|done].
Qed.

Lemma on_created_queue : queue (on_created now ev h) = queue h.
Proof.
  unfold on_created. rewrite Hfile, Hwav. simpl.
  by destruct (pending_files h !! src_path ev).
Qed.

Lemma on_created_debounce : debounce_seconds (on_created now ev h) = debounce_seconds h.
Proof.
  unfold on_created. rewrite Hfile, Hwav. simpl.
  by destruct (pending_files h !! src_path ev).
Qed.
End Accepted.

Lemma length_cancelled q h : length (timers (cancelled q h)) = length (timers h).
Proof. unfold cancelled. destruct (pending_files h !! q); [apply length_finish|done]. Qed.

Lemma lookup_cancelled q h k :
  timers (cancelled q h) !! k
  = match pending_files h !! q with
    | Some i => if decide (k = i) then set_finished <$> timers h !! i else timers h !! k
    | None => timers h !! k
    end.
Proof. unfold cancelled. destruct (pending_files h !! q); [apply lookup_finish|done]. Qed.

Lemma on_created_debounce_any now ev h :
  debounce_seconds (on_created now ev h) = debounce_seconds h.
Proof.
  destruct (is_directory ev) eqn:Hd; [by rewrite on_created_ignore; auto|].
  destruct (is_wav (src_path ev)) eqn:Hw; [|by rewrite on_created_ignore; auto].
  by apply on_created_debounce.
Qed.

Lemma WF_on_created now ev h : WF h -> WF (on_created now ev h).
Proof.
  intros [Hlive Hptr].
  destruct (is_directory ev) eqn:Hd; [by rewrite on_created_ignore; auto|].
  destruct (is_wav (src_path ev)) eqn:Hw; [|by rewrite on_created_ignore; auto].
  split.
  - intros k tm Ek Fk. rewrite on_created_pending by done.
    rewrite on_created_timers in Ek by done.
    apply lookup_app_Some in Ek as [Ek|[Hlen Ek]].
    + rewrite lookup_cancelled in Ek.
      assert (timers h !! k = Some tm /\ pending_files h !! src_path ev <> Some k) as [Ek' Hne].
      { destruct (pending_files h !! src_path ev) as [i|] eqn:Ep; [|done].
        destruct (decide (k = i)) as [->|Hne].
        - destruct (timers h !! i); simpl in Ek; [|done]. by simplify_eq.
        - split; [done|congruence]. }
      rewrite lookup_insert_ne; [by apply Hlive|].
      intros Heq. apply Hne. rewrite Heq. by apply Hlive.
    + rewrite length_cancelled in Hlen, Ek.
      apply list_lookup_singleton_Some in Ek as [Hk <-]. simpl.
      rewrite lookup_insert_eq. f_equal. lia.
  - intros q k Hq. rewrite on_created_pending in Hq by done.
    rewrite on_created_timers by done.
    apply lookup_insert_Some in Hq as [[<- <-]|[Hne Hq]].
    + eexists. split; [apply list_lookup_middle; by rewrite length_cancelled|done].
    + destruct (Hptr _ _ Hq) as (tm & Ek & Ha).
      assert (exists tm', timers (cancelled (src_path ev) h) !! k = Some tm' /\ args tm' = q)
        as (tm' & Ek' & Ha').
      { rewrite lookup_cancelled.
        destruct (pending_files h !! src_path ev) as [i|]; [|eauto].
        destruct (decide (k = i)) as [->|Hki]; [|eauto].
        rewrite Ek. simpl. eauto. }
      exists tm'. split; [|done]. by apply lookup_app_l_Some.
Qed.



Lemma count_snoc (p q : string) (l : list string) :
  length (filter (fun x => x = p) (l ++ [q]))
  = (length (filter (fun x => x = p) l) + if decide (q = p) then 1 else 0)%nat.
Proof.
  rewrite filter_app, length_app. f_equal.
  destruct (decide (q = p)) as [->|Hne].
  - by rewrite filter_cons_True.
  - by rewrite filter_cons_False.
Qed.

(** *** One path under observation *)

Variable p : string.
Variable D : Z.

Lemma jobs_after_fire i t q h :
  jobs_for p (finish i (_add_to_queue fs t q h))
  = (jobs_for p h + if decide (q = p) then (if has_content fs t q then 1 else 0) else 0)%nat.
Proof.
  unfold jobs_for at 1. change (queue (finish i ?x)) with (queue x).
  rewrite _add_to_queue_queue. destruct (has_content fs t q).
  - by rewrite count_snoc.
  - fold (jobs_for p h). destruct (decide (q = p)); lia.
Qed.

Lemma step_keep now h j ph n :
  St p D h ph n ->
  match ph with Some (i, tl) => j <> i \/ now < tl + D | None => True end ->
  St p D (run_timer fs now h j) ph n.
Proof.
  intros (Hwf & Hd & Hn & Hph) Hcond.
  destruct (run_timer_cases now h j) as [->|(tm & E & F & Hdue & Hrun)]; [done|].
  assert (args tm <> p) as Hne.
  { intros Ha. destruct ph as [[i tl]|]; simpl in Hph; unfold Live, Idle in *.
    - destruct Hwf as [Hlive _].
      pose proof (Hlive _ _ E F) as H1. pose proof (Hlive _ _ Hph eq_refl) as H2.
      simpl in H2. rewrite Ha in H1. assert (j = i) as -> by congruence.
      rewrite Hph in E. injection E as <-.
    unfold deadline in Hdue. simpl in Hdue.
      destruct Hcond; [done|lia].
    - specialize (Hph _ _ E Ha). congruence. }
  split; [by apply WF_run_timer|]. split; [by rewrite run_timer_debounce|].
  rewrite Hrun. split.
  - rewrite jobs_after_fire. destruct (decide (args tm = p)); [done|lia].
  - destruct ph as [[i tl]|]; simpl in *; unfold Live, Idle in *.
    + unfold Live. rewrite lookup_finish, _add_to_queue_timers.
      destruct (decide (i = j)) as [->|]; [|done].
      rewrite Hph in E. by simplify_eq.
    + intros k tm' Ek Ha. rewrite lookup_finish, _add_to_queue_timers in Ek.
      destruct (decide (k = j)) as [->|]; [|by eapply Hph].
      rewrite E in Ek. simpl in Ek. by injection Ek as <-.
Qed.

Lemma step_fire now h i tl n :
  St p D h (Some (i, tl)) n -> tl + D <= now ->
  St p D (run_timer fs now h i) None (n + ok_at fs p (tl + D)).
Proof.
  intros (Hwf & Hd & Hn & Hph) Hdue. simpl in Hph; unfold Live, Idle in *.
  split; [by apply WF_run_timer|]. split; [by rewrite run_timer_debounce|].
  rewrite (run_timer_fire now h i _ Hph) by (done || (unfold deadline; simpl; lia)).
  unfold deadline; simpl. split.
  - rewrite jobs_after_fire. rewrite decide_True by done. by rewrite Hn.
  - intros k tm Ek Ha. rewrite lookup_finish, _add_to_queue_timers in Ek.
    destruct (decide (k = i)) as [->|Hne].
    + rewrite Hph in Ek. simpl in Ek. by injection Ek as <-.
    + destruct (finished tm) eqn:F; [done|]. exfalso. apply Hne.
      destruct Hwf as [Hlive _].
      pose proof (Hlive _ _ Ek F) as H1. pose proof (Hlive _ _ Hph eq_refl) as H2.
      simpl in H2. rewrite Ha in H1. congruence.
Qed.

Lemma fold_keep now l h ph n :
  St p D h ph n ->
  match ph with Some (i, tl) => i ∉ l \/ now < tl + D | None => True end ->
  St p D (foldl (run_timer fs now) h l) ph n.
Proof.
  revert h. induction l as [|j l IH]; intros h Hst Hcond; simpl; [done|].
  apply IH.
  - apply step_keep; [done|]. destruct ph as [[i tl]|]; [|done].
    destruct Hcond as [Hni|]; [left|by right]. set_solver.
  - destruct ph as [[i tl]|]; [|done].
    destruct Hcond as [Hni|]; [left|by right]. set_solver.
Qed.

Lemma advance_St now h ph n :
  St p D h ph n ->
  St p D (advance fs now h) (after_advance fs p D now ph n).1 (after_advance fs p D now ph n).2.
Proof.
  intros Hst. unfold advance, after_advance.
  destruct ph as [[i tl]|]; [|by apply fold_keep].
  destruct (Z.leb_spec (tl + D) now) as [Hdue|Hearly]; simpl.
  - assert (i < length (timers h))%nat as Hi.
    { destruct Hst as (_ & _ & _ & Hph). by eapply lookup_lt_Some. }
    assert (seq 0 (length (timers h))
            = seq 0 i ++ [i] ++ seq (S i) (length (timers h) - S i)) as ->.
    { replace (length (timers h)) with (i + S (length (timers h) - S i))%nat at 1 by lia.
      by rewrite seq_app. }
    rewrite !foldl_app. simpl.
    apply (fold_keep now _ _ None); [|done].
    apply step_fire; [|done].
    apply fold_keep; [done|]. left. rewrite elem_of_seq. lia.
  - apply fold_keep; [done|]. by right.
Qed.

Lemma event_for_true t ev :
  event_for p (t, ev) = true <-> is_directory ev = false /\ src_path ev = p.
Proof.
  unfold event_for; simpl. rewrite andb_true_iff, negb_true_iff.
  by rewrite String.eqb_eq.
Qed.

Hypothesis Hwav : is_wav p = true.

Lemma on_created_St_same now ev h ph n :
  St p D h ph n -> event_for p (now, ev) = true ->
  St p D (on_created now ev h) (Some (length (timers h), now)) n.
Proof.
  intros (Hwf & Hd & Hn & Hph) [Hdir Hsrc]%event_for_true.
  assert (is_wav (src_path ev) = true) as Hw by (by rewrite Hsrc).
  split; [by apply WF_on_created|]. split; [by rewrite on_created_debounce_any|].
  split.
  - unfold jobs_for. by rewrite on_created_queue.
  - simpl. unfold Live. rewrite on_created_timers by done.
    rewrite Hd, Hsrc. apply list_lookup_middle. by rewrite length_cancelled.
Qed.

Lemma on_created_St_other now ev h ph n :
  St p D h ph n -> event_for p (now, ev) = false ->
  St p D (on_created now ev h) ph n.
Proof.
  intros (Hwf & Hd & Hn & Hph) Hev.
  destruct (is_directory ev) eqn:Hdir; [by rewrite on_created_ignore; auto|].
  destruct (is_wav (src_path ev)) eqn:Hw; [|by rewrite on_created_ignore; auto].
  assert (src_path ev <> p) as Hne.
  { intros Heq. assert (event_for p (now, ev) = true) by (by apply event_for_true).
    congruence. }
  split; [by apply WF_on_created|]. split; [by rewrite on_created_debounce_any|].
  split; [unfold jobs_for; by rewrite on_created_queue|].
  destruct Hwf as [Hlive Hptr].
  destruct ph as [[i tl]|]; simpl in *; unfold Live, Idle in *.
  - unfold Live. rewrite on_created_timers by done.
    apply lookup_app_l_Some. rewrite lookup_cancelled.
    destruct (pending_files h !! src_path ev) as [k|] eqn:Ep; [|done].
    destruct (decide (i = k)) as [->|]; [|done].
    destruct (Hptr _ _ Ep) as (tm & Ek & Ha). rewrite Hph in Ek. by simplify_eq.
  - intros k tm Ek Ha. rewrite on_created_timers in Ek by done.
    apply lookup_app_Some in Ek as [Ek|[_ Ek]].
    + rewrite lookup_cancelled in Ek.
      destruct (pending_files h !! src_path ev) as [j|]; [|by eapply Hph].
      destruct (decide (k = j)) as [->|]; [|by eapply Hph].
      destruct (timers h !! j); simpl in Ek; [|done]. by simplify_eq.
    + apply list_lookup_singleton_Some in Ek as [_ <-]. by simpl in Ha.
Qed.

(** *** The number of jobs a schedule produces for [p] *)

Lemma chronological_weaken lo lo' sched horizon :
  lo' <= lo -> chronological lo sched horizon -> chronological lo' sched horizon.
Proof. destruct sched as [|[t ev] rest]; simpl; intros; [lia|]. split; [lia|tauto]. Qed.


Lemma expect_fired tl lo sched horizon :
  tl + D <= lo -> chronological lo sched horizon ->
  expect fs p D (Some tl) (times_for p sched) horizon
  = (ok_at fs p (tl + D) + expect fs p D None (times_for p sched) horizon)%nat.
Proof.
  revert lo. induction sched as [|[t ev] rest IH]; simpl; intros lo Hlo Hch.
  - destruct (Z.leb_spec (tl + D) horizon); lia.
  - destruct Hch as [Hlt Hch]. unfold times_for in *. simpl.
    destruct (event_for p (t, ev)); simpl.
    + destruct (Z.leb_spec (tl + D) t); lia.
    + apply (IH t); [lia|done].
Qed.

Lemma run_jobs sched : forall h ph n lo horizon,
  St p D h ph n -> chronological lo sched horizon ->
  jobs_for p (advance fs horizon (run fs sched h))
  = (n + expect fs p D (snd <$> ph) (times_for p sched) horizon)%nat.
Proof.
  induction sched as [|[t ev] rest IH]; intros h ph n lo horizon Hst Hch.
  - simpl. pose proof (advance_St horizon h ph n Hst) as (_ & _ & Hn & _).
    rewrite Hn. destruct ph as [[i tl]|]; simpl; [|lia].
    destruct (tl + D <=? horizon); simpl; lia.
  - destruct Hch as [Hlo Hch]. simpl.
    pose proof (advance_St t h ph n Hst) as Hadv.
    destruct (event_for p (t, ev)) eqn:Hev.
    + eapply on_created_St_same in Hadv; [|done].
      rewrite (IH _ _ _ _ _ Hadv Hch). unfold times_for. simpl. rewrite Hev. simpl.
      destruct ph as [[i tl]|]; simpl; [|lia].
      destruct (tl + D <=? t); simpl; lia.
    + eapply on_created_St_other in Hadv; [|done].
      rewrite (IH _ _ _ _ _ Hadv Hch). unfold times_for. simpl. rewrite Hev.
      fold (times_for p rest).
      destruct ph as [[i tl]|]; simpl; [|lia].
      destruct (Z.leb_spec (tl + D) t); simpl; [|lia].
      rewrite (expect_fired tl t rest horizon) by done. lia.
Qed.




End DebounceFacts.



(** Only paths with the [.wav] suffix ever reach the queue. *)
Lemma queue_only_wav fs debounce sched horizon q :
  q ∈ Debounce.queue (Debounce.observe fs debounce sched horizon) ->
  Debounce.is_wav q = true.
Proof.
  set (Inv := fun h : Debounce.AudioFileHandler =>
    (forall i tm, Debounce.timers h !! i = Some tm -> Debounce.is_wav (Debounce.args tm) = true)
    /\ (forall x, x ∈ Debounce.queue h -> Debounce.is_wav x = true)).
  assert (Hstep : forall now h i, Inv h -> Inv (Debounce.run_timer fs now h i)).
  { intros now h i [Ht Hq].
    destruct (run_timer_cases fs now h i) as [->|(tm & E & _ & _ & ->)]; [done|].
    split.
    - intros k tm' Ek. rewrite lookup_finish, _add_to_queue_timers in Ek.
      destruct (decide (k = i)) as [->|]; [|by eapply Ht].
      rewrite E in Ek. simpl in Ek. injection Ek as <-. simpl. by eapply Ht.
    - intros x Hx. change (Debounce.queue (Debounce.finish i ?y)) with (Debounce.queue y) in Hx.
      rewrite _add_to_queue_queue in Hx.
      destruct (Debounce.has_content fs _ _); [|by apply Hq].
      apply elem_of_app in Hx as [Hx|Hx]; [by apply Hq|].
      apply list_elem_of_singleton in Hx as ->. by eapply Ht. }
  assert (Hadv : forall now h, Inv h -> Inv (Debounce.advance fs now h)).
  { intros now h. unfold Debounce.advance.
    generalize (seq 0 (length (Debounce.timers h))). intros l. revert h.
    induction l as [|i l IH]; intros h Hinv; simpl; [done|]. by apply IH, Hstep. }
  assert (Hev : forall now ev h, Inv h -> Inv (Debounce.on_created now ev h)).
  { intros now ev h [Ht Hq].
    destruct (Debounce.is_directory ev) eqn:Hd; [by rewrite on_created_ignore; auto|].
    destruct (Debounce.is_wav (Debounce.src_path ev)) eqn:Hw;
      [|by rewrite on_created_ignore; auto].
    split.
    - intros k tm Ek. rewrite on_created_timers in Ek by done.
      apply lookup_app_Some in Ek as [Ek|[_ Ek]].
      + rewrite lookup_cancelled in Ek.
        destruct (Debounce.pending_files h !! Debounce.src_path ev) as [j|]; [|by eapply Ht].
        destruct (decide (k = j)) as [->|]; [|by eapply Ht].
        destruct (Debounce.timers h !! j) as [tm'|] eqn:Ej; simpl in Ek; [|done].
        injection Ek as <-. simpl. by eapply Ht.
      + apply list_lookup_singleton_Some in Ek as [_ <-]. done.
    - intros x Hx. rewrite on_created_queue in Hx by done. by apply Hq. }
  assert (Hrun : forall h, Inv h -> Inv (Debounce.run fs sched h)).
  { induction sched as [|[t ev] rest IH]; intros h Hinv; simpl; [done|].
    by apply IH, Hev, Hadv. }
  intros Hq. refine (proj2 (Hadv horizon _ (Hrun _ _)) q Hq).
  split; simpl.
  - intros i tm H. rewrite ?lookup_nil in H. done.
  - intros x Hx. by apply elem_of_nil in Hx.
Qed.

(** A path whose suffix is not [.wav] never gets a job. *)
Lemma other_suffix_no_job fs debounce sched horizon p :
  Debounce.is_wav p = false ->
  Debounce.jobs_for p (Debounce.observe fs debounce sched horizon) = 0%nat.
Proof.
  intros Hp. unfold Debounce.jobs_for.
  destruct (filter _ _) as [|x xs] eqn:E; [done|].
  assert (x ∈ filter (fun q => q = p)
            (Debounce.queue (Debounce.observe fs debounce sched horizon)))
    as [-> Hx]%list_elem_of_filter by (rewrite E; left).
  apply queue_only_wav in Hx. congruence.
Qed.




(** C9. When a timer fires, the dictionary has no entry for its path
    afterwards, also when the file is missing or empty and nothing is
    enqueued; a later creation event for that path then cancels nothing
    and registers a new timer. *)
Theorem settle_clears_pending_entry fs now h i tm :
  Debounce.timers h !! i = Some tm ->
  Debounce.finished tm = false ->
  Debounce.deadline tm <= now ->
  let h' := Debounce.run_timer fs now h i in
  Debounce.pending_files h' !! Debounce.args tm = None
  /\ (Debounce.has_content fs (Debounce.deadline tm) (Debounce.args tm) = false ->
      Debounce.queue h' = Debounce.queue h)
  /\ forall t, Debounce.is_wav (Debounce.args tm) = true ->
       let h'' := Debounce.on_created t (created_wav (Debounce.args tm)) h' in
       Debounce.timers h''
       = Debounce.timers h'
         ++ [{| Debounce.interval := Debounce.debounce_seconds h;
                Debounce.args := Debounce.args tm;
                Debounce.started := t; Debounce.finished := false |}]
       /\ Debounce.pending_files h'' !! Debounce.args tm
          = Some (length (Debounce.timers h')).
Proof.
  intros E F Hdue h'. subst h'. rewrite (run_timer_fire fs now h i tm E F Hdue).
  set (h1 := Debounce.finish i _).
  assert (Debounce.pending_files h1 !! Debounce.args tm = None) as Hnone.
  { subst h1. change (Debounce.pending_files (Debounce.finish i ?y))
      with (Debounce.pending_files y).
    rewrite _add_to_queue_pending. apply lookup_delete_eq. }
  split; [done|]. split.
  - intros Hc. subst h1.
    change (Debounce.queue (Debounce.finish i ?y)) with (Debounce.queue y).
    by rewrite _add_to_queue_queue, Hc.
  - intros t Hw h''. subst h''.
    assert (Debounce.debounce_seconds h1 = Debounce.debounce_seconds h) as Hdeb.
    { subst h1. change (Debounce.debounce_seconds (Debounce.finish i ?y))
        with (Debounce.debounce_seconds y). apply _add_to_queue_debounce. }
    split.
    + rewrite on_created_timers by done.
      change (Debounce.src_path (created_wav ?x)) with x.
      unfold Debounce.cancelled. by rewrite Hnone, Hdeb.
    + rewrite on_created_pending by done. apply lookup_insert_eq.
Qed.

Lemma settle_clears_pending_entry_witness :
  Debounce.pending_files Scenario.handler_with_timer !! "/rec/a.wav"%string = Some 0%nat
  /\ Debounce.pending_files
       (Debounce.run_timer Scenario.absent 12 Scenario.handler_with_timer 0) !! "/rec/a.wav"%string
     = None.
Proof.
  split; [reflexivity|].
  refine (proj1 (settle_clears_pending_entry Scenario.absent 12 Scenario.handler_with_timer 0
            {| Debounce.interval := 2; Debounce.args := "/rec/a.wav";
               Debounce.started := 10; Debounce.finished := false |} _ _ _)).
  - reflexivity.
  - reflexivity.
  - unfold Debounce.deadline. simpl. lia.
Defined.

(* ===================================================================== *)
(** ** Python numbers: rounding and the binary64 division *)
(* ===================================================================== *)

Section FloatFacts.

Lemma round_half_even_nonneg m e : 0 <= PyFloat.round_half_even m e.
Proof.
  unfold PyFloat.round_half_even. destruct e as [|k|k].
  - by apply Z.shiftl_nonneg.
  - by apply Z.shiftl_nonneg.
  - assert (0 <= Z.shiftr (Z.pos m) (Z.pos k)) by (by apply Z.shiftr_nonneg).
    destruct (_ ?= _); [destruct (Z.even _)| |]; lia.
Qed.

Lemma round_max0_nonneg q n : PyFloat.round (PyFloat.max0 q) = Some n -> 0 <= n.
Proof.
  unfold PyFloat.max0, SFltb. destruct q as [s|s| |s m e]; simpl.
  - intros [= <-]. lia.
  - destruct s; simpl; [intros [= <-]; lia|done].
  - intros [= <-]. lia.
  - destruct s; simpl; intros [= <-]; [lia|apply round_half_even_nonneg].
Qed.

Lemma duration_of_size_nonneg audio_size n :
  Watcher.duration_of_size audio_size = Some n -> 0 <= n.
Proof.
  unfold Watcher.duration_of_size. destruct (PyFloat.int_truediv _ _); [|done].
  apply round_max0_nonneg.
Qed.

(** Sizes below the 44 bytes of the header give a duration of 0. *)
Lemma duration_of_size_below_header audio_size :
  0 <= audio_size < 44 -> Watcher.duration_of_size audio_size = Some 0.
Proof.
  intros H.
  assert (forallb (fun k => match Watcher.duration_of_size (Z.of_nat k) with
                            | Some 0 => true
                            | _ => false
                            end) (seq 0 44) = true) as Hall by (vm_compute; reflexivity).
  rewrite forallb_forall in Hall.
  specialize (Hall (Z.to_nat audio_size)).
  rewrite Z2Nat.id in Hall by lia.
  assert (In (Z.to_nat audio_size) (seq 0 44)) as Hin by (apply in_seq; lia).
  specialize (Hall Hin). by repeat case_match.
Qed.

Lemma Zdigits2_bounds p :
  2 ^ (Zdigits2 (Zpos p) - 1) <= Zpos p < 2 ^ Zdigits2 (Zpos p).
Proof.
  simpl. induction p as [p IH|p IH|].
  - simpl digits2_pos. rewrite Pos2Z.inj_succ, Z.pow_succ_r by lia.
    replace (Z.succ (Z.pos (digits2_pos p)) - 1) with (Z.succ (Z.pos (digits2_pos p) - 1)) by lia.
    rewrite Z.pow_succ_r by lia. lia.
  - simpl digits2_pos. rewrite Pos2Z.inj_succ, Z.pow_succ_r by lia.
    replace (Z.succ (Z.pos (digits2_pos p)) - 1) with (Z.succ (Z.pos (digits2_pos p) - 1)) by lia.
    rewrite Z.pow_succ_r by lia. lia.
  - simpl. lia.
Qed.

Lemma Zdigits2_nonneg m : 0 <= Zdigits2 m.
Proof. destruct m; simpl; lia. Qed.

Lemma Zdigits2_upper m : 0 <= m -> m < 2 ^ Zdigits2 m.
Proof.
  destruct m as [|p|p]; [simpl; lia| |lia]. intros _. apply Zdigits2_bounds.
Qed.

Lemma Zdigits2_le m k : 0 <= m -> 0 <= k -> m < 2 ^ k -> Zdigits2 m <= k.
Proof.
  destruct m as [|p|p]; [simpl; lia| |lia]. intros _ Hk Hm.
  pose proof (Zdigits2_bounds p) as [Hlo _].
  destruct (Z.le_gt_cases (Zdigits2 (Z.pos p)) k) as [|Hgt]; [done|].
  assert (2 ^ k <= 2 ^ (Zdigits2 (Z.pos p) - 1)) by (apply Z.pow_le_mono_r; lia). lia.
Qed.

Lemma shr_1_m r : 0 <= shr_m r -> shr_m (shr_1 r) = shr_m r / 2.
Proof.
  destruct r as [m rb sb]. simpl. intros Hm.
  destruct m as [|[p|p|]|p]; simpl; try lia; try reflexivity.
  - rewrite Pos2Z.inj_xI. apply Z.div_unique with 1; lia.
  - rewrite Pos2Z.inj_xO. apply Z.div_unique with 0; lia.
Qed.

Lemma iter_shr_1_m n : forall r,
  0 <= shr_m r -> shr_m (SpecFloat.iter_pos shr_1 n r) = shr_m r / 2 ^ Zpos n.
Proof.
  induction n as [n IH|n IH|]; intros r Hr; simpl SpecFloat.iter_pos.
  - assert (0 <= shr_m (shr_1 r)) by (rewrite shr_1_m by done; apply Z.div_pos; lia).
    assert (0 <= shr_m (SpecFloat.iter_pos shr_1 n (shr_1 r)))
      by (rewrite IH by done; apply Z.div_pos; lia).
    rewrite !IH, shr_1_m by done.
    rewrite !Z.div_div by lia. f_equal.
    rewrite Pos2Z.inj_xI. rewrite <- Z.pow_add_r, <- (Z.pow_1_r 2) at 1 by lia.
    rewrite <- Z.pow_add_r by lia. f_equal. lia.
  - assert (0 <= shr_m (SpecFloat.iter_pos shr_1 n r))
      by (rewrite IH by done; apply Z.div_pos; lia).
    rewrite !IH by done. rewrite Z.div_div by lia. f_equal.
    rewrite Pos2Z.inj_xO, <- Z.pow_add_r by lia. f_equal. lia.
  - rewrite shr_1_m by done. by rewrite Z.pow_1_r.
Qed.

Lemma shr_record_of_loc_m m l : shr_m (shr_record_of_loc m l) = m.
Proof. by destruct l as [|[]]. Qed.

Lemma shr_fexp_spec m e l :
  0 <= m ->
  0 <= shr_m (shr_fexp 53 1024 m e l).1 < 2 ^ 53
  /\ (shr_fexp 53 1024 m e l).2 = Z.max e (fexp 53 1024 (Zdigits2 m + e)).
Proof.
  intros Hm. unfold shr_fexp, shr.
  pose proof (Zdigits2_upper m Hm) as Hup. pose proof (Zdigits2_nonneg m) as Hd.
  assert (fexp 53 1024 (Zdigits2 m + e) = Z.max (Zdigits2 m + e - 53) (-1074)) as Hf
    by reflexivity.
  destruct (fexp 53 1024 (Zdigits2 m + e) - e) as [|n|n] eqn:En; simpl.
  - rewrite shr_record_of_loc_m. split; [|lia]. split; [done|].
    assert (2 ^ Zdigits2 m <= 2 ^ 53) by (apply Z.pow_le_mono_r; lia). lia.
  - rewrite iter_shr_1_m by (by rewrite shr_record_of_loc_m).
    rewrite shr_record_of_loc_m. split; [|lia]. split; [apply Z.div_pos; lia|].
    apply Z.div_lt_upper_bound; [lia|]. rewrite <- Z.pow_add_r by lia.
    assert (2 ^ Zdigits2 m <= 2 ^ (Z.pos n + 53)) by (apply Z.pow_le_mono_r; lia). lia.
  - rewrite shr_record_of_loc_m. split; [|lia]. split; [done|].
    assert (2 ^ Zdigits2 m <= 2 ^ 53) by (apply Z.pow_le_mono_r; lia). lia.
Qed.

Lemma round_nearest_even_bounds mx lx :
  mx <= round_nearest_even mx lx <= mx + 1.
Proof. destruct lx as [|[]]; simpl; try destruct (Z.even mx); lia. Qed.

(** Rounding a non-negative mantissa with a moderate exponent gives a
    finite result. *)
Lemma binary_round_aux_finite s mx ex lx :
  0 <= mx -> ex <= 970 -> Zdigits2 mx + ex <= 1023 ->
  PyFloat.is_finite (binary_round_aux 53 1024 s mx ex lx) = true.
Proof.
  intros Hm He Hd. unfold binary_round_aux.
  pose proof (shr_fexp_spec mx ex lx Hm) as [Hm1 He1].
  destruct (shr_fexp 53 1024 mx ex lx) as [r1 e1]. simpl in Hm1, He1.
  pose proof (round_nearest_even_bounds (shr_m r1) (loc_of_shr_record r1)) as Hr.
  set (m2 := round_nearest_even (shr_m r1) (loc_of_shr_record r1)) in *.
  assert (0 <= m2) as Hm2 by lia.
  pose proof (shr_fexp_spec m2 e1 loc_Exact Hm2) as [Hm3 He3].
  destruct (shr_fexp 53 1024 m2 e1 loc_Exact) as [r2 e2]. simpl in Hm3, He3.
  assert (Zdigits2 m2 <= 54) as Hd2.
  { apply Zdigits2_le; [done|lia|].
    change (2 ^ 54) with (2 * 2 ^ 53). lia. }
  assert (fexp 53 1024 (Zdigits2 mx + ex) = Z.max (Zdigits2 mx + ex - 53) (-1074)) as Hf1
    by reflexivity.
  assert (fexp 53 1024 (Zdigits2 m2 + e1) = Z.max (Zdigits2 m2 + e1 - 53) (-1074)) as Hf2
    by reflexivity.
  destruct (shr_m r2) as [|p|p]; [done| |lia].
  destruct (Z.leb_spec e2 (1024 - 53)); [done|lia].
Qed.

Lemma SFdiv_core_binary_bounds a b :
  let r := SFdiv_core_binary 53 1024 (Zpos a) 0 (Zpos b) 0 in
  0 <= r.1.1 /\ r.1.2 <= 0 /\ Zdigits2 r.1.1 + r.1.2 <= Zdigits2 (Zpos a).
Proof.
  unfold SFdiv_core_binary.
  set (e' := Z.min _ _). set (s := 0 - 0 - e').
  set (m' := match s with Z.pos _ => Z.shiftl (Z.pos a) s | 0 => Z.pos a | Z.neg _ => 0 end).
  assert (e' <= 0) as He by (subst e'; lia).
  assert (m' = Z.pos a * 2 ^ s) as Hm'.
  { subst m'. destruct s as [|p|p] eqn:Es; [lia| |lia]. by rewrite Z.shiftl_mul_pow2. }
  pose proof (Z.div_eucl_eq m' (Z.pos b) ltac:(lia)) as Heq.
  pose proof (Z.mod_pos_bound m' (Z.pos b) ltac:(lia)) as Hmod.
  unfold Z.modulo in Hmod.
  destruct (Z.div_eucl m' (Z.pos b)) as [q r]. simpl.
  assert (0 <= s) by lia.
  assert (0 < 2 ^ s) by (apply Z.pow_pos_nonneg; lia).
  assert (0 <= q) as Hq by nia.
  assert (q <= m') as Hqm by nia.
  split; [done|]. split; [done|].
  pose proof (Zdigits2_bounds a) as [_ Hup].
  change (Z.pos (digits2_pos a)) with (Zdigits2 (Z.pos a)).
  assert (s = - e') as Hs by (subst s; lia).
  assert (Zdigits2 q <= Zdigits2 (Z.pos a) + s); [|lia].
  apply Zdigits2_le; [done|pose proof (Zdigits2_nonneg (Z.pos a)); lia|].
  rewrite Z.pow_add_r by (pose proof (Zdigits2_nonneg (Z.pos a)); lia). nia.
Qed.

(** The quotient of two integers is a finite double, unless the
    dividend has more than 1023 bits. *)
Lemma int_truediv_finite a b :
  0 < b -> Z.abs a < 2 ^ 1023 ->
  exists x, PyFloat.int_truediv a b = Some x /\ PyFloat.is_finite x = true.
Proof.
  intros Hb Ha. unfold PyFloat.int_truediv.
  destruct b as [|b|b]; try lia.
  assert (forall s p, Z.pos p < 2 ^ 1023 ->
            PyFloat.is_finite
              (SFdiv PyFloat.prec PyFloat.emax (S754_finite s p 0) (S754_finite false b 0))
            = true) as Hfin.
  { intros s p Hp. unfold SFdiv.
    pose proof (SFdiv_core_binary_bounds p b) as (H1 & H2 & H3). simpl in H1, H2, H3.
    unfold PyFloat.prec, PyFloat.emax.
    destruct (SFdiv_core_binary 53 1024 (Z.pos p) 0 (Z.pos b) 0) as [[mz ez] lz].
    simpl in H1, H2, H3. apply binary_round_aux_finite; [done|lia|].
    change (Z.pos (digits2_pos p)) with (Zdigits2 (Z.pos p)) in H3.
    assert (Zdigits2 (Z.pos p) <= 1023); [|lia].
    apply Zdigits2_le; lia. }
  destruct a as [|p|p]; simpl PyFloat.raw_of_int.
  - eexists. split; reflexivity.
  - specialize (Hfin false p ltac:(lia)).
    destruct (SFdiv _ _ _ _) as [| | |]; try done; eauto.
  - specialize (Hfin true p ltac:(lia)).
    destruct (SFdiv _ _ _ _) as [| | |]; try done; eauto.
Qed.

(** The duration is defined for every file size. *)
Lemma duration_of_size_defined audio_size :
  0 <= audio_size < 2 ^ 1023 -> is_Some (Watcher.duration_of_size audio_size).
Proof.
  intros H. unfold Watcher.duration_of_size.
  destruct (int_truediv_finite (audio_size - 44) 32000) as (x & -> & Hx); [lia|lia|].
  unfold PyFloat.max0. destruct (SFltb _ x); [|done].
  by destruct x.
Qed.

End FloatFacts.

(* ===================================================================== *)
(** ** The state and error monad *)
(* ===================================================================== *)

Ltac munfold :=
  unfold mbind, Watcher.M_bind, Watcher.bind, mret, Watcher.M_ret, Watcher.ret,
    Watcher.raise, Watcher.or_raise, Watcher.log, Watcher.emit,
    Watcher.try_except, Watcher.try_except2, Watcher.stat, Watcher.exists_,
    Watcher.post, Watcher.subprocess_run, Watcher.unlink in *.

Lemma bind_eq {A B} (m : Watcher.M A) (k : A -> Watcher.M B) w :
  (m ≫= k) w
  = match m w with
    | (Watcher.Return a, w') => k a w'
    | (Watcher.Raise e, w') => (Watcher.Raise e, w')
    end.
Proof. reflexivity. Qed.

Lemma log_eq lv msg w :
  Watcher.log lv msg w = (Watcher.Return tt, Watcher.snoc_log w lv msg).
Proof. reflexivity. Qed.

Section MonadFacts.
Import Watcher.

Lemma new_actions_app w t : new_actions w {| files := files w; trace := trace w ++ t |} = t.
Proof. unfold new_actions. simpl. by rewrite drop_app_length. Qed.

Lemma new_actions_app' w fs t : new_actions w {| files := fs; trace := trace w ++ t |} = t.
Proof. unfold new_actions. simpl. by rewrite drop_app_length. Qed.

Lemma try_except2_returns {A} (m : M A) c1 h1 h2 w :
  (forall e w1, exists a w', h1 e w1 = (Return a, w')) ->
  (forall e w1, exists a w', h2 e w1 = (Return a, w')) ->
  exists a w', try_except2 m c1 h1 any_exception h2 w = (Return a, w').
Proof.
  intros H1 H2. unfold try_except2, any_exception.
  destruct (m w) as [[a|e] w1]; [eauto|]. destruct (c1 e); eauto.
Qed.

Lemma try_except_returns {A} (m : M A) h w :
  (forall e w1, exists a w', h e w1 = (Return a, w')) ->
  exists a w', try_except m any_exception h w = (Return a, w').
Proof.
  intros H. unfold try_except, any_exception.
  destruct (m w) as [[a|e] w1]; eauto.
Qed.

End MonadFacts.

Section TraceFacts.
Import Watcher.
Context {A B : Type} (P : Action -> Prop).

Lemma emits_ret (a : A) : emits P (mret a).
Proof. intros w r w' [= <- <-]. exists []. by rewrite app_nil_r. Qed.

Lemma emits_raise e : emits P (raise e : M A).
Proof. intros w r w' [= <- <-]. exists []. by rewrite app_nil_r. Qed.

Lemma emits_or_raise (o : option A) e : emits P (or_raise o e).
Proof. destruct o; [apply emits_ret|apply emits_raise]. Qed.

Lemma emits_bind (m : M A) (k : A -> M B) :
  emits P m -> (forall a, emits P (k a)) -> emits P (m ≫= k).
Proof.
  intros Hm Hk w r w' H. unfold mbind, M_bind, bind in H.
  destruct (m w) as [[a|e] w1] eqn:E.
  - destruct (Hm _ _ _ E) as (t1 & Ht1 & H1).
    destruct (Hk a _ _ _ H) as (t2 & Ht2 & H2).
    exists (t1 ++ t2). rewrite Ht2, Ht1, app_assoc. split; [done|by apply Forall_app].
  - injection H as <- <-. eauto.
Qed.

Lemma emits_try_except (m : M A) c h :
  emits P m -> (forall e, emits P (h e)) -> emits P (try_except m c h).
Proof.
  intros Hm Hh w r w' H. unfold try_except in H.
  destruct (m w) as [[a|e] w1] eqn:E.
  - injection H as <- <-. eauto.
  - destruct (c e).
    + destruct (Hm _ _ _ E) as (t1 & Ht1 & H1).
      destruct (Hh e _ _ _ H) as (t2 & Ht2 & H2).
      exists (t1 ++ t2). rewrite Ht2, Ht1, app_assoc. split; [done|by apply Forall_app].
    + injection H as <- <-. eauto.
Qed.

Lemma emits_emit a : P a -> emits P (emit a).
Proof. intros Ha w r w' [= <- <-]. exists [a]. split; [done|by constructor]. Qed.

Lemma emits_log lv msg : P (Log lv msg) -> emits P (log lv msg).
Proof. apply emits_emit. Qed.

Lemma emits_exists p : emits P (exists_ p).
Proof. intros w r w' [= <- <-]. exists []. by rewrite app_nil_r. Qed.

Lemma emits_subprocess_run env cmd : P (Subprocess cmd) -> emits P (subprocess_run env cmd).
Proof.
  intros Ha w r w' H. unfold subprocess_run in H. simpl in H.
  destruct (run_process env cmd (files w)); injection H as <- <-;
    exists [Subprocess cmd]; (split; [done|by constructor]).
Qed.

End TraceFacts.

Ltac emits_step :=
  first
    [ apply emits_ret | apply emits_raise | apply emits_or_raise | apply emits_exists
    | apply emits_log; exact I | apply emits_subprocess_run; exact I
    | apply emits_bind; [|intros]
    | apply emits_try_except; [|intros]
    | match goal with
      | |- Watcher.emits _ (match ?x with _ => _ end) => destruct x
      | |- Watcher.emits _ (let _ := _ in _) => cbv zeta
      end ].

Lemma posts_quiet t : Forall Watcher.quiet t -> Watcher.posts t = [].
Proof.
  induction 1 as [|a t Ha _ IH]; [done|].
  unfold Watcher.posts in *. simpl. rewrite IH. by destruct a.
Qed.

Lemma no_unlink_quiet p t :
  Forall Watcher.quiet t -> List.filter (Watcher.is_unlink_of p) t = [].
Proof.
  induction 1 as [|a t Ha _ IH]; [done|]. simpl. rewrite IH. by destruct a.
Qed.

(* ===================================================================== *)
(** ** The premix stage *)
(* ===================================================================== *)

(** The premix stage only writes log records and runs subprocesses. *)
Lemma _premix_audio_quiet env audio :
  Watcher.emits Watcher.quiet (Watcher._premix_audio env audio).
Proof.
  unfold Watcher._premix_audio, Watcher.probe_channels. repeat emits_step.
Qed.

Section PremixFacts.
Import Watcher.

(** The probe never raises. *)
Lemma probe_channels_returns env audio w :
  exists c w1, probe_channels env audio w = (Return c, w1).
Proof. unfold probe_channels. apply try_except_returns. intros e w1. munfold. eauto. Qed.






(** Up to 1024 channels, by evaluation of the binary64 division. *)
Lemma mix_weight_near_reciprocal c :
  2 < c <= 1024 ->
  exists weight, mix_weight c = Some weight /\ near_reciprocal c weight = true.
Proof.
  intros Hc.
  assert (forallb (fun k => match mix_weight (Z.of_nat k + 3) with
                            | Some x => near_reciprocal (Z.of_nat k + 3) x
                            | None => false
                            end) (seq 0 1022) = true) as Hall by (vm_compute; reflexivity).
  rewrite forallb_forall in Hall.
  specialize (Hall (Z.to_nat (c - 3))).
  replace (Z.of_nat (Z.to_nat (c - 3)) + 3) with c in Hall by lia.
  assert (In (Z.to_nat (c - 3)) (seq 0 1022)) as Hin by (apply in_seq; lia).
  specialize (Hall Hin). destruct (mix_weight c) as [x|]; [eauto|done].
Qed.


End PremixFacts.




(** C6, evaluated. The mixer is always asked for 48000 Hz, whatever the
    input: for a three-channel recording sampled at 16000 Hz the command
    run is the one below. The encoding is 16-bit PCM and the output goes
    to the temporary directory. *)
Theorem mixer_resamples_to_48000 :
  (forall audio filter mixed_file,
     exists front,
       Watcher.mix_cmd audio filter mixed_file
       = front ++ ["-ar"; "48000"; "-c:a"; "pcm_s16le"; mixed_file]%string)
  /\ let before := Scenario.world (Scenario.recording 96044 16000) in
     let after :=
       (Watcher._premix_audio (Scenario.env "3" (Some 0) (Watcher.Response 200))
          Scenario.audio before).2 in
     (Watcher.sample_rate <$> Watcher.files before !! Scenario.audio) = Some 16000
     /\ Watcher.Subprocess
          ["/opt/homebrew/bin/ffmpeg"; "-y"; "-i"; Scenario.audio;
           "-af"; "pan=mono|c0=w*c0+w*c1+w*c2";
           "-ar"; "48000"; "-c:a"; "pcm_s16le"; Scenario.mixed]%string
        ∈ Watcher.trace after.
Proof.
  split.
  - intros audio filter mixed_file. by eexists [_; _; _; _; _; _].
  - vm_compute. split; [reflexivity|].
    do 3 apply list_elem_of_further. apply list_elem_of_here.
Qed.

(* ===================================================================== *)
(** ** Timestamps in file names *)
(* ===================================================================== *)

Section SplitFacts.
Variable c : ascii.

Lemma app_cons a s t : String a s +:+ t = String a (s +:+ t).
Proof. reflexivity. Qed.

Lemma app_nil s : "" +:+ s = s.
Proof. reflexivity. Qed.







End SplitFacts.

Section StemFacts.
Import Watcher.

Lemma app_assoc_s (a b c : string) : (a +:+ b) +:+ c = a +:+ (b +:+ c).
Proof. induction a as [|x a IH]; [done|]. by rewrite !app_cons, IH. Qed.







End StemFacts.


Lemma length_app_s (a b : string) :
  String.length (a +:+ b) = (String.length a + String.length b)%nat.
Proof. induction a as [|x a IH]; [done|]. rewrite app_cons. simpl. by rewrite IH. Qed.




Section StartedAtFacts.
Import Watcher.

Lemma parse_error_is_value_error stem e :
  parse_local_timestamp stem = inl e -> cls e = ValueError.
Proof.
  unfold parse_local_timestamp. intros H.
  repeat (case_match; try discriminate); injection H as <-; reflexivity.
Qed.

(** [build_started_at], case by case. *)
Lemma build_started_at_eq env stem w :
  build_started_at env stem w
  = match parse_local_timestamp stem with
    | inr dt =>
        match PyDatetime.astimezone_utc (utcoffset env) dt with
        | Some utc =>
            (Return (PyDatetime.strftime_iso_z utc),
             snoc_log w DEBUG ("Parsed timestamp: local=" +:+ str_of_datetime dt
                               +:+ ", utc=" +:+ PyDatetime.strftime_iso_z utc))
        | None => (Raise {| cls := OverflowError; what := "date value out of range" |}, w)
        end
    | inl e =>
        (Return (PyDatetime.strftime_iso_z (utcnow env)),
         snoc_log w WARNING ("Could not parse timestamp from filename: " +:+ stem
                             +:+ " (" +:+ what e +:+ ")"))
    end.
Proof.
  unfold build_started_at. munfold.
  destruct (parse_local_timestamp stem) as [e|dt] eqn:E.
  - apply parse_error_is_value_error in E. unfold is_value_or_index_error. by rewrite E.
  - destruct (PyDatetime.astimezone_utc (utcoffset env) dt); reflexivity.
Qed.

Lemma build_started_at_files env stem w r w1 :
  build_started_at env stem w = (r, w1) ->
  files w1 = files w
  /\ exists t, trace w1 = trace w ++ t /\ Forall (fun a => is_post a = false) t.
Proof.
  rewrite build_started_at_eq. intros H.
  repeat case_match; injection H as <- <-; (split; [done|]); simpl.
  - eexists [_]. split; [done|]. by repeat constructor.
  - eexists [_]. split; [done|]. by repeat constructor.
  - exists []. split; [by rewrite app_nil_r|]. constructor.
Qed.

End StartedAtFacts.

(* ===================================================================== *)
(** ** Webhook delivery *)
(* ===================================================================== *)

Section DeliveryFacts.
Import Watcher.

(** [_send_webhook] returns normally, whatever happens. *)
Lemma _send_webhook_returns env config audio transcript w :
  exists d w', _send_webhook env config audio transcript w = (Return d, w').
Proof.
  unfold _send_webhook. destruct (negb (truthy (webhook_url config))).
  - munfold. eauto.
  - apply try_except2_returns; intros e w1; munfold; eauto.
Qed.

Section Attempt.
Variables (env : Env) (config : Config) (audio transcript : string) (w : World).
Variables (tf af : File) (q : spec_float) (started : string) (w1 : World) (rounded : Z).
Hypothesis Hurl : truthy (webhook_url config) = true.
Hypothesis Htf : files w !! transcript = Some tf.
Hypothesis Haf : files w !! audio = Some af.
Hypothesis Hq : PyFloat.int_truediv (st_size af - 44) 32000 = Some q.
Hypothesis Hstarted : build_started_at env (Pathlib.stem audio) w = (Return started, w1).
Hypothesis Hround : PyFloat.round (PyFloat.max0 q) = Some rounded.

Let payload : WebhookPayload :=
  {| transcript_path := transcript; transcript_html := text tf;
     started_at := started; audio_duration_seconds := rounded |}.

Let w2 : World :=
  {| files := files w1;
     trace := trace w1 ++ [Post (webhook_url config) payload (webhook_timeout config)] |}.

(** The request is made once, and what follows depends on its result. *)
Lemma _send_webhook_attempt :
  _send_webhook env config audio transcript w
  = match requests_post env (webhook_url config) payload (webhook_timeout config) with
    | PostRaises e =>
        if is_request_exception e
        then (Return RequestFailed, snoc_log w2 ERROR ("Webhook request failed: " +:+ what e))
        else (Return PreparationFailed,
              snoc_log w2 ERROR ("Error preparing webhook: " +:+ what e))
    | Response status =>
        if (400 <=? status) && (status <? 600)
        then (Return RequestFailed,
              snoc_log w2 ERROR ("Webhook request failed: " +:+ http_error_text status))
        else (Return (Sent status),
              snoc_log
                (snoc_log w2 INFO ("Webhook sent successfully to n8n: "
                                   +:+ PyStr.str_of_Z status))
                DEBUG ("Payload sent (HTML content: "
                       +:+ PyStr.str_of_Z (Z.of_nat (String.length (text tf)))
                       +:+ " chars)"))
    end.
Proof.
  unfold _send_webhook. rewrite Hurl. simpl. unfold try_except2.
  unfold mbind at 1, M_bind at 1, bind at 1. unfold stat at 1. rewrite Htf.
  unfold mbind at 1, M_bind at 1, bind at 1. unfold stat at 1. rewrite Haf.
  unfold mbind at 1, M_bind at 1, bind at 1. rewrite Hq. simpl.
  unfold mbind at 1, M_bind at 1, bind at 1. rewrite Hstarted.
  unfold mbind at 1, M_bind at 1, bind at 1. rewrite Hround. simpl.
  unfold mbind at 1, M_bind at 1, bind at 1. unfold post.
  fold payload.
  destruct (requests_post env (webhook_url config) payload (webhook_timeout config))
    as [e|status]; [by destruct (is_request_exception e)|].
  unfold raise_for_status, http_error_text.
  destruct (Z.leb_spec 400 status), (Z.ltb_spec status 500), (Z.ltb_spec status 600),
    (Z.leb_spec 500 status); simpl; try lia; reflexivity.
Qed.

End Attempt.

Lemma _send_webhook_cases env config audio transcript w :
  truthy (webhook_url config) = true ->
  (exists w1 e t,
     _send_webhook env config audio transcript w = preparation_failed w1 e
     /\ trace w1 = trace w ++ t /\ Forall (fun a => is_post a = false) t)
  \/ (exists tf af q started w1 rounded,
        files w !! transcript = Some tf
        /\ files w !! audio = Some af
        /\ PyFloat.int_truediv (st_size af - 44) 32000 = Some q
        /\ build_started_at env (Pathlib.stem audio) w = (Return started, w1)
        /\ PyFloat.round (PyFloat.max0 q) = Some rounded).
Proof.
  intros Hurl.
  destruct (files w !! transcript) as [tf|] eqn:Htf.
  2:{ left. exists w, {| cls := OSError; what := "No such file or directory: " +:+ transcript |}, [].
      split; [|split; [by rewrite app_nil_r|constructor]].
      unfold _send_webhook. rewrite Hurl. simpl. unfold try_except2.
      unfold mbind at 1, M_bind at 1, bind at 1, stat at 1. by rewrite Htf. }
  destruct (files w !! audio) as [af|] eqn:Haf.
  2:{ left. exists w, {| cls := OSError; what := "No such file or directory: " +:+ audio |}, [].
      split; [|split; [by rewrite app_nil_r|constructor]].
      unfold _send_webhook. rewrite Hurl. simpl. unfold try_except2.
      unfold mbind at 1, M_bind at 1, bind at 1, stat at 1. rewrite Htf.
      unfold mbind at 1, M_bind at 1, bind at 1, stat at 1. by rewrite Haf. }
  destruct (PyFloat.int_truediv (st_size af - 44) 32000) as [q|] eqn:Hq.
  2:{ left.
      exists w, {| cls := OverflowError;
                   what := "integer division result too large for a float" |}, [].
      split; [|split; [by rewrite app_nil_r|constructor]].
      unfold _send_webhook. rewrite Hurl. simpl. unfold try_except2.
      unfold mbind at 1, M_bind at 1, bind at 1, stat at 1. rewrite Htf.
      unfold mbind at 1, M_bind at 1, bind at 1, stat at 1. rewrite Haf.
      unfold mbind at 1, M_bind at 1, bind at 1. rewrite Hq. reflexivity. }
  destruct (build_started_at env (Pathlib.stem audio) w) as [[started|e] w1] eqn:Hst.
  2:{ left. destruct (build_started_at_files _ _ _ _ _ Hst) as (_ & t & Ht & Hall).
      exists w1, e, t. split; [|done].
      unfold _send_webhook. rewrite Hurl. simpl. unfold try_except2.
      unfold mbind at 1, M_bind at 1, bind at 1, stat at 1. rewrite Htf.
      unfold mbind at 1, M_bind at 1, bind at 1, stat at 1. rewrite Haf.
      unfold mbind at 1, M_bind at 1, bind at 1. rewrite Hq. simpl.
      unfold mbind at 1, M_bind at 1, bind at 1. rewrite Hst. reflexivity. }
  destruct (PyFloat.round (PyFloat.max0 q)) as [rounded|] eqn:Hr.
  2:{ left. destruct (build_started_at_files _ _ _ _ _ Hst) as (_ & t & Ht & Hall).
      exists w1, {| cls := OverflowError;
                    what := "cannot convert float infinity to integer" |}, t.
      split; [|done].
      unfold _send_webhook. rewrite Hurl. simpl. unfold try_except2.
      unfold mbind at 1, M_bind at 1, bind at 1, stat at 1. rewrite Htf.
      unfold mbind at 1, M_bind at 1, bind at 1, stat at 1. rewrite Haf.
      unfold mbind at 1, M_bind at 1, bind at 1. rewrite Hq. simpl.
      unfold mbind at 1, M_bind at 1, bind at 1. rewrite Hst.
      unfold mbind at 1, M_bind at 1, bind at 1. rewrite Hr. reflexivity. }
  right. by exists tf, af, q, started, w1, rounded.
Qed.

Lemma _send_webhook_unconfigured env config audio transcript w :
  truthy (webhook_url config) = false ->
  _send_webhook env config audio transcript w
  = (Return UrlNotConfigured,
     snoc_log w DEBUG "Webhook URL not configured, skipping notification").
Proof. intros H. unfold _send_webhook. by rewrite H. Qed.

End DeliveryFacts.







(** C10. Every payload the watcher posts carries a non-negative
    [audio_duration_seconds]: it is [round(max(0, (size - 44) / 32000))]
    for the size of the audio file, which is 0 when the file is smaller
    than the 44 bytes of the header. The computation succeeds, with a
    non-negative integer, for every file size. *)
Theorem payload_duration_nonnegative
    env config audio transcript w r w' endpoint payload seconds :
  Watcher._send_webhook env config audio transcript w = (r, w') ->
  Watcher.Post endpoint payload seconds ∈ Watcher.new_actions w w' ->
  0 <= Watcher.audio_duration_seconds payload
  /\ (exists af,
        Watcher.files w !! audio = Some af
        /\ Watcher.duration_of_size (Watcher.st_size af)
           = Some (Watcher.audio_duration_seconds payload)
        /\ (0 <= Watcher.st_size af < 44 -> Watcher.audio_duration_seconds payload = 0))
  /\ (forall audio_size,
        0 <= audio_size < 2 ^ 1023 ->
        exists n, Watcher.duration_of_size audio_size = Some n /\ 0 <= n).
Proof.
  intros Hsend Hin.
  assert (forall audio_size,
            0 <= audio_size < 2 ^ 1023 ->
            exists n, Watcher.duration_of_size audio_size = Some n /\ 0 <= n) as Htotal.
  { intros audio_size Hsize.
    destruct (duration_of_size_defined audio_size Hsize) as [n Hn].
    exists n. split; [done|]. by eapply duration_of_size_nonneg. }
  cut (0 <= Watcher.audio_duration_seconds payload
       /\ exists af,
            Watcher.files w !! audio = Some af
            /\ Watcher.duration_of_size (Watcher.st_size af)
               = Some (Watcher.audio_duration_seconds payload)
            /\ (0 <= Watcher.st_size af < 44 -> Watcher.audio_duration_seconds payload = 0)).
  { intros [H1 H2]. by repeat split. }
  assert (forall w1 t lv msg,
            Watcher.trace w1 = Watcher.trace w ++ t ->
            Forall (fun a => Watcher.is_post a = false) t ->
            w' = Watcher.snoc_log w1 lv msg -> False) as Hnone.
  { intros w1 t lv msg Ht Hall ->. unfold Watcher.new_actions in Hin. simpl in Hin.
    rewrite Ht, <- app_assoc, drop_app_length in Hin.
    apply elem_of_app in Hin as [Hin|Hin].
    - rewrite Forall_forall in Hall. by specialize (Hall _ Hin).
    - apply list_elem_of_singleton in Hin. discriminate. }
  destruct (Watcher.truthy (Watcher.webhook_url config)) eqn:Hurl.
  2:{ rewrite _send_webhook_unconfigured in Hsend by done. injection Hsend as _ <-.
      exfalso. eapply (Hnone w []); [by rewrite app_nil_r|constructor|reflexivity]. }
  destruct (_send_webhook_cases env config audio transcript w Hurl)
    as [(w1 & e & t & Heq & Ht & Hall)|(tf & af & q & started & w1 & rounded & H)].
  { rewrite Heq in Hsend. unfold Watcher.preparation_failed in Hsend. exfalso.
    destruct (Watcher.is_request_exception e); injection Hsend as _ <-;
      eapply Hnone; eauto. }
  destruct H as (Htf & Haf & Hq & Hst & Hr).
  assert (Watcher.duration_of_size (Watcher.st_size af) = Some rounded) as Hdur.
  { unfold Watcher.duration_of_size. by rewrite Hq. }
  assert (Watcher.audio_duration_seconds payload = rounded) as ->.
  { rewrite (_send_webhook_attempt env config audio transcript w tf af q started w1 rounded)
      in Hsend by done.
    destruct (build_started_at_files _ _ _ _ _ Hst) as (_ & t & Ht & Hall).
    rewrite Forall_forall in Hall.
    assert (exists t', Watcher.new_actions w w'
                       = t ++ [Watcher.Post (Watcher.webhook_url config)
                                 {| Watcher.transcript_path := transcript;
                                    Watcher.transcript_html := Watcher.text tf;
                                    Watcher.started_at := started;
                                    Watcher.audio_duration_seconds := rounded |}
                                 (Watcher.webhook_timeout config)] ++ t'
                       /\ Forall (fun a => Watcher.is_post a = false) t') as (t' & Hnew & Hall').
    { unfold Watcher.new_actions.
      repeat case_match; injection Hsend as _ <-; unfold Watcher.snoc_log; simpl;
        rewrite Ht, <- !app_assoc, drop_app_length; eexists; (split; [reflexivity|]);
        by repeat constructor. }
    rewrite Hnew in Hin. rewrite Forall_forall in Hall'.
    apply elem_of_app in Hin as [Hin|Hin]; [by specialize (Hall _ Hin)|].
    apply elem_of_app in Hin as [Hin|Hin]; [|by specialize (Hall' _ Hin)].
    apply list_elem_of_singleton in Hin. by injection Hin as _ -> _. }
  split; [by eapply duration_of_size_nonneg|].
  exists af. repeat split; [done..|].
  intros Hsmall. rewrite (duration_of_size_below_header _ Hsmall) in Hdur. congruence.
Qed.

Lemma payload_duration_nonnegative_witness :
  0 <= 2279
  /\ exists af,
       Watcher.files Scenario.delivered_world !! Scenario.audio = Some af
       /\ Watcher.duration_of_size (Watcher.st_size af) = Some 2279
       /\ (0 <= Watcher.st_size af < 44 -> 2279 = 0).
Proof.
  refine ((fun H => conj (proj1 H) (proj1 (proj2 H))) _).
  eapply (payload_duration_nonnegative
            (Scenario.env "1" (Some 0) (Watcher.Response 200))
            (Scenario.config true Scenario.endpoint)
            Scenario.audio Scenario.transcript Scenario.delivered_world _ _
            Scenario.endpoint
            {| Watcher.transcript_path := Scenario.transcript;
               Watcher.transcript_html := "<html>hello</html>";
               Watcher.started_at := "2025-12-05T20:56:47Z";
               Watcher.audio_duration_seconds := 2279 |}
            30).
  - vm_compute. reflexivity.
  - vm_compute. apply list_elem_of_further, list_elem_of_here.
Defined.

(* ===================================================================== *)
(** ** Transcription, clean-up and the pipeline loop *)
(* ===================================================================== *)

Section TranscribeFacts.
Import Watcher.
Variables (env : Env) (config : Config) (audio : string) (w : World).

Let w0 : World := snoc_log w INFO ("Starting transcription: " +:+ Pathlib.name audio).

(** An exception of the premix stage leaves [_transcribe_file] as it is. *)
Lemma _transcribe_file_premix_raises e w1 :
  _premix_audio env audio w0 = (Raise e, w1) ->
  _transcribe_file env config audio w = (Raise e, w1).
Proof.
  unfold w0. intros H. unfold _transcribe_file. cbv zeta.
  rewrite bind_eq, log_eq, bind_eq, H. reflexivity.
Qed.

Variables (processed : string) (w1 : World).
Hypothesis Hpremix : _premix_audio env audio w0 = (Return processed, w1).

Let transcript : string := transcript_path_of config audio.
Let cmd : list string := noscribe_cmd env config processed transcript.
Let w2 : World := snoc_log w1 DEBUG ("Command: " +:+ PyStr.join " " cmd).
Let w3 : World := {| files := files w2; trace := trace w2 ++ [Subprocess cmd] |}.

(** The function up to the end of the transcription subprocess. *)
Lemma _transcribe_file_eq :
  _transcribe_file env config audio w
  = match run_process env cmd (files w2) with
    | RunRaises e =>
        (Return LaunchFailed,
         {| files := files w3; trace := trace w3 ++ failure_records (RunRaises e) |})
    | RunCompleted returncode stdout stderr after =>
        if negb (returncode =? 0)
        then (Return TranscriptionFailed,
              {| files := after;
                 trace := trace w3
                          ++ failure_records (RunCompleted returncode stdout stderr after) |})
        else
          (log INFO ("Transcription complete: " +:+ Pathlib.name transcript
                     +:+ " (" +:+ elapsed env +:+ "s)");;
           cleanup env audio processed;;
           deliver env config audio transcript)
            {| files := after; trace := trace w3 |}
    end.
Proof.
  unfold w0 in Hpremix. unfold w3, w2, cmd, transcript.
  unfold _transcribe_file. cbv zeta.
  rewrite bind_eq, log_eq, bind_eq, Hpremix, bind_eq, log_eq, bind_eq.
  unfold try_except at 1, any_exception. rewrite bind_eq. unfold subprocess_run at 1.
  cbn [files trace snoc_log].
  destruct (run_process env _ (files w1)) as [e|rc out err after].
  - rewrite bind_eq, log_eq. reflexivity.
  - destruct (rc =? 0); cbn [negb].
    + reflexivity.
    + repeat (rewrite bind_eq || rewrite log_eq).
      unfold mret, M_ret, ret, snoc_log, failure_records. cbn [files trace].
      by rewrite <- !app_assoc.
Qed.

End TranscribeFacts.

Section LoopFacts.
Import Watcher.
Variables (env : Env) (config : Config).

Lemma _process_queue_eq tw w audio rest :
  queue tw = audio :: rest ->
  _process_queue env config tw w
  = match _transcribe_file env config audio w with
    | (Return _, w') => (Return (dequeued tw), w')
    | (Raise e, w') =>
        (Return (dequeued tw),
         snoc_log w' ERROR ("Error transcribing " +:+ Pathlib.name audio
                            +:+ ": " +:+ what e))
    end.
Proof.
  intros Hq. unfold _process_queue, dequeued. rewrite Hq. cbv zeta.
  rewrite bind_eq. unfold try_except, any_exception. rewrite bind_eq.
  destruct (_transcribe_file env config audio w) as [[x|e] w']; reflexivity.
Qed.

(** No job can make [_process_queue] raise: the loop goes on. *)
Lemma _process_queue_returns tw w :
  exists w', _process_queue env config tw w = (Return (dequeued tw), w').
Proof.
  destruct (queue tw) as [|audio rest] eqn:Hq.
  - exists w. unfold _process_queue, dequeued. by rewrite Hq.
  - rewrite (_process_queue_eq tw w audio rest Hq).
    destruct (_transcribe_file env config audio w) as [[x|e] w']; eauto.
Qed.

Lemma poll_step n tw w w' :
  running tw = true ->
  _process_queue env config tw w = (Return (dequeued tw), w') ->
  poll env config (S n) tw w = poll env config n (dequeued tw) w'.
Proof. intros Hr Hp. cbn [poll]. by rewrite Hr, bind_eq, Hp. Qed.

End LoopFacts.

(** A failed transcription, step by step: how [_transcribe_file] ends,
    what it has written, and what it has left in the file system. *)
Lemma _transcribe_file_failure env config audio w processed w1 :
  Watcher._premix_audio env audio
    (Watcher.snoc_log w INFO ("Starting transcription: " +:+ Pathlib.name audio))
  = (Watcher.Return processed, w1) ->
  let cmd := Watcher.noscribe_cmd env config processed
               (Watcher.transcript_path_of config audio) in
  let w2 := Watcher.snoc_log w1 DEBUG ("Command: " +:+ PyStr.join " " cmd) in
  let result := Watcher.run_process env cmd (Watcher.files w2) in
  match result with
  | Watcher.RunCompleted returncode _ _ _ => returncode <> 0
  | Watcher.RunRaises _ => True
  end ->
  exists exit w',
    Watcher._transcribe_file env config audio w = (Watcher.Return exit, w')
    /\ Watcher.job_state (Watcher.Return exit) = Watcher.FailedLocal
    /\ Watcher.trace w'
       = Watcher.trace w2 ++ Watcher.Subprocess cmd :: Watcher.failure_records result
    /\ Forall Watcher.quiet (Watcher.new_actions w w')
    /\ Watcher.files w'
       = match result with
         | Watcher.RunCompleted _ _ _ after => after
         | Watcher.RunRaises _ => Watcher.files w1
         end.
Proof.
  intros Hpremix cmd w2 result Hfail.
  pose proof (_transcribe_file_eq env config audio w processed w1 Hpremix) as Heq.
  cbv zeta in Heq. fold cmd in Heq. fold w2 in Heq. fold result in Heq.
  assert (exists exit w',
            Watcher._transcribe_file env config audio w = (Watcher.Return exit, w')
            /\ Watcher.job_state (Watcher.Return exit) = Watcher.FailedLocal
            /\ Watcher.trace w'
               = Watcher.trace w2 ++ Watcher.Subprocess cmd :: Watcher.failure_records result
            /\ Watcher.files w'
               = match result with
                 | Watcher.RunCompleted _ _ _ after => after
                 | Watcher.RunRaises _ => Watcher.files w1
                 end)
    as (exit & w' & Ht & Hst & Htr & Hfs).
  { destruct result as [e|rc out err after] eqn:Er.
    - eexists _, _. split; [exact Heq|]. split; [done|]. simpl. by rewrite <- app_assoc.
    - destruct (Z.eqb_spec rc 0) as [->|Hne]; [done|]. simpl in Heq.
      eexists _, _. split; [exact Heq|]. split; [done|]. simpl. by rewrite <- app_assoc. }
  exists exit, w'. repeat split; try done.
  destruct (_premix_audio_quiet env audio _ _ _ Hpremix) as (t & Ht1 & Hquiet).
  unfold Watcher.new_actions. rewrite Htr. subst w2. simpl. rewrite Ht1. simpl.
  rewrite <- !app_assoc, drop_app_length.
  constructor; [done|]. apply Forall_app. split; [done|].
  constructor; [done|]. constructor; [done|].
  destruct result; simpl; by repeat constructor.
Qed.

(** On both early exits the temporary mixed file stays: if the
    subprocess has not removed it, it is still there when
    [_transcribe_file] returns, and no removal was attempted. *)
Lemma temporary_file_kept_on_failure env config audio w processed w1 :
  Watcher._premix_audio env audio
    (Watcher.snoc_log w INFO ("Starting transcription: " +:+ Pathlib.name audio))
  = (Watcher.Return processed, w1) ->
  let cmd := Watcher.noscribe_cmd env config processed
               (Watcher.transcript_path_of config audio) in
  let w2 := Watcher.snoc_log w1 DEBUG ("Command: " +:+ PyStr.join " " cmd) in
  match Watcher.run_process env cmd (Watcher.files w2) with
  | Watcher.RunCompleted returncode _ _ after =>
      returncode <> 0 /\ is_Some (after !! processed)
  | Watcher.RunRaises _ => is_Some (Watcher.files w1 !! processed)
  end ->
  exists exit w',
    Watcher._transcribe_file env config audio w = (Watcher.Return exit, w')
    /\ is_Some (Watcher.files w' !! processed)
    /\ List.filter (Watcher.is_unlink_of processed) (Watcher.new_actions w w') = [].
Proof.
  intros Hpremix cmd w2 Hres.
  destruct (_transcribe_file_failure env config audio w processed w1 Hpremix)
    as (exit & w' & Ht & _ & _ & Hquiet & Hfs).
  { fold cmd. fold w2. destruct (Watcher.run_process env cmd (Watcher.files w2)); tauto. }
  exists exit, w'. split; [done|]. split; [|by apply no_unlink_quiet].
  rewrite Hfs. fold cmd. fold w2.
  destruct (Watcher.run_process env cmd (Watcher.files w2)); tauto.
Qed.

(** C2 (as amended). The premix stage has handed over [processed], and
    the transcription subprocess either exits with a non-zero code or
    cannot be launched. Then the job ends as [FailedLocal]; what is
    written after the command is run is, at error level, the exit code,
    stdout and stderr in the first case and the exception in the second;
    no request is made to the webhook; and the loop goes on with the
    rest of the queue. *)
Theorem transcription_failure_is_local env config tw audio rest w processed w1 :
  Watcher.queue tw = audio :: rest ->
  Watcher.running tw = true ->
  Watcher._premix_audio env audio
    (Watcher.snoc_log w INFO ("Starting transcription: " +:+ Pathlib.name audio))
  = (Watcher.Return processed, w1) ->
  let cmd := Watcher.noscribe_cmd env config processed
               (Watcher.transcript_path_of config audio) in
  let w2 := Watcher.snoc_log w1 DEBUG ("Command: " +:+ PyStr.join " " cmd) in
  let result := Watcher.run_process env cmd (Watcher.files w2) in
  match result with
  | Watcher.RunCompleted returncode _ _ _ => returncode <> 0
  | Watcher.RunRaises _ => True
  end ->
  exists exit w',
    Watcher._transcribe_file env config audio w = (Watcher.Return exit, w')
    /\ Watcher.job_state (Watcher.Return exit) = Watcher.FailedLocal
    /\ Watcher.trace w'
       = Watcher.trace w2 ++ Watcher.Subprocess cmd :: Watcher.failure_records result
    /\ Watcher.posts (Watcher.new_actions w w') = []
    /\ forall n,
         Watcher.poll env config (S n) tw w
         = Watcher.poll env config n
             {| Watcher.queue := rest; Watcher.processing := false;
                Watcher.current_file := None; Watcher.running := true |} w'.
Proof.
  intros Hq Hrun Hpremix cmd w2 result Hfail.
  destruct (_transcribe_file_failure env config audio w processed w1 Hpremix Hfail)
    as (exit & w' & Ht & Hst & Htr & Hquiet & _).
  exists exit, w'. repeat split; try done.
  - by apply posts_quiet.
  - intros n.
    rewrite (poll_step env config n tw w w') by
      (done || (rewrite (_process_queue_eq env config tw w audio rest Hq); by rewrite Ht)).
    unfold Watcher.dequeued. by rewrite Hq, Hrun.
Qed.

Lemma transcription_failure_is_local_witness :
  exists exit w',
    Watcher._transcribe_file (Scenario.env "2" (Some 1) (Watcher.Response 200))
      (Scenario.config true Scenario.endpoint) Scenario.audio
      (Scenario.world (Scenario.recording 64044 16000))
    = (Watcher.Return exit, w')
    /\ Watcher.job_state (Watcher.Return exit) = Watcher.FailedLocal
    /\ Watcher.posts
         (Watcher.new_actions (Scenario.world (Scenario.recording 64044 16000)) w') = []
    /\ forall n,
         Watcher.poll (Scenario.env "2" (Some 1) (Watcher.Response 200))
           (Scenario.config true Scenario.endpoint) (S n) Scenario.failing_queue
           (Scenario.world (Scenario.recording 64044 16000))
         = Watcher.poll (Scenario.env "2" (Some 1) (Watcher.Response 200))
             (Scenario.config true Scenario.endpoint) n
             (Scenario.watcher ["/rec/next.wav"%string]) w'.
Proof.
  edestruct (transcription_failure_is_local
               (Scenario.env "2" (Some 1) (Watcher.Response 200))
               (Scenario.config true Scenario.endpoint)
               Scenario.failing_queue Scenario.audio ["/rec/next.wav"%string]
               (Scenario.world (Scenario.recording 64044 16000)))
    as (exit & w' & H1 & H2 & _ & H4 & H5).
  - reflexivity.
  - reflexivity.
  - vm_compute. reflexivity.
  - vm_compute. discriminate.
  - exists exit, w'. repeat split; assumption.
Defined.

(** C2 as stated fails when the subprocess cannot be launched: there
    is no stdout or stderr to log, and the only error record is the one
    with the exception. *)
Lemma launch_failure_logs_no_output :
  let r := Watcher._transcribe_file (Scenario.env "2" None (Watcher.Response 200))
             (Scenario.config true Scenario.endpoint) Scenario.audio
             (Scenario.world (Scenario.recording 64044 16000)) in
  r.1 = Watcher.Return Watcher.LaunchFailed
  /\ List.filter Watcher.is_error_log (Watcher.trace r.2)
     = [Watcher.Log ERROR "Failed to run noScribe: No such file or directory"].
Proof. vm_compute. split; reflexivity. Qed.

(** C4, evaluated. A three-channel recording is premixed to a temporary
    file. When the transcription engine exits with code 1, or cannot be
    launched, [_transcribe_file] returns before its clean-up: the
    temporary file is still there and no removal was attempted. When the
    engine succeeds, the file is removed. *)
Theorem mixed_file_survives_failed_transcription :
  let run := fun engine =>
    Watcher._transcribe_file (Scenario.env "3" engine (Watcher.Response 200))
      (Scenario.config false Scenario.endpoint) Scenario.audio
      (Scenario.world (Scenario.recording 96044 48000)) in
  let left_behind := {| Watcher.st_size := 1000; Watcher.text := "";
                        Watcher.sample_rate := 48000 |} in
  ((run (Some 1)).1 = Watcher.Return Watcher.TranscriptionFailed
   /\ Watcher.files (run (Some 1)).2 !! Scenario.mixed = Some left_behind
   /\ List.filter (Watcher.is_unlink_of Scenario.mixed) (Watcher.trace (run (Some 1)).2) = [])
  /\ ((run None).1 = Watcher.Return Watcher.LaunchFailed
      /\ Watcher.files (run None).2 !! Scenario.mixed = Some left_behind
      /\ List.filter (Watcher.is_unlink_of Scenario.mixed) (Watcher.trace (run None).2) = [])
  /\ ((run (Some 0)).1 = Watcher.Return (Watcher.Transcribed None)
      /\ Watcher.files (run (Some 0)).2 !! Scenario.mixed = None
      /\ List.filter (Watcher.is_unlink_of Scenario.mixed) (Watcher.trace (run (Some 0)).2)
         = [Watcher.Unlink Scenario.mixed]).
Proof. vm_compute. repeat split; reflexivity. Qed.

(* ===================================================================== *)
(** ** The startup reconciler *)
(* ===================================================================== *)

Section ReconcilerFacts.
Import Watcher.
Variable config : Config.

Lemma reconcile_all_eq names : forall tw w,
  exists t,
    reconcile_all config names tw w
    = (Return (enqueue_all tw (unprocessed config (files w) names)),
       {| files := files w; trace := trace w ++ t |}).
Proof.
  induction names as [|nm rest IH]; intros tw w.
  - exists []. unfold unprocessed, enqueue_all. simpl. rewrite !app_nil_r.
    by destruct tw, w.
  - cbn [reconcile_all]. rewrite bind_eq. unfold reconcile_one. cbv zeta.
    rewrite bind_eq. unfold exists_ at 1. unfold unprocessed. cbn [List.filter].
    destruct (bool_decide _) eqn:Hb; cbn [negb].
    + unfold mret at 1, M_ret at 1, ret at 1. destruct (IH tw w) as [t ->]. by exists t.
    + rewrite bind_eq, log_eq. unfold add. rewrite bind_eq, log_eq.
      unfold mret at 1, M_ret at 1, ret at 1.
      match goal with
      | |- context [reconcile_all config rest ?tw' ?w'] =>
          destruct (IH tw' w') as [t Ht]; rewrite Ht
      end.
      eexists (_ :: _ :: t). unfold enqueue_all, unprocessed, snoc_log.
      cbn [queue processing current_file running files trace map].
      by rewrite <- !app_assoc.
Qed.

Lemma joinpath_inj dir a b : Pathlib.joinpath dir a = Pathlib.joinpath dir b -> a = b.
Proof.
  unfold Pathlib.joinpath. intros H.
  apply (inj (String.app dir)) in H. by apply (inj (String.app "/")) in H.
Qed.

Lemma unprocessed_elem fs names nm :
  nm ∈ names ->
  (Pathlib.joinpath (recordings config) nm ∈ unprocessed config fs names
   <-> fs !! transcript_path_of config (Pathlib.joinpath (recordings config) nm) = None).
Proof.
  intros Hin. unfold unprocessed. rewrite list_elem_of_fmap. split.
  - intros (nm' & Heq & Hnm'). apply joinpath_inj in Heq as <-.
    apply list_elem_of_In, filter_In in Hnm' as [_ Hb].
    apply negb_true_iff, bool_decide_eq_false in Hb.
    by apply eq_None_not_Some.
  - intros Hnone. exists nm. split; [done|].
    apply list_elem_of_In, filter_In. split; [by apply list_elem_of_In|].
    apply negb_true_iff, bool_decide_eq_false. by apply eq_None_not_Some.
Qed.

Lemma unprocessed_NoDup fs names : NoDup names -> NoDup (unprocessed config fs names).
Proof.
  intros Hnd. unfold unprocessed. apply NoDup_fmap_2.
  - intros a b. apply joinpath_inj.
  - apply NoDup_ListNoDup, List.NoDup_filter, NoDup_ListNoDup, Hnd.
Qed.

Lemma unprocessed_done fs names :
  (forall nm, nm ∈ names ->
     is_Some (fs !! transcript_path_of config (Pathlib.joinpath (recordings config) nm))) ->
  unprocessed config fs names = [].
Proof.
  intros Hall. unfold unprocessed.
  induction names as [|nm rest IH]; [done|]. cbn [List.filter].
  rewrite bool_decide_eq_true_2 by (apply Hall; left). cbn [negb].
  apply IH. intros nm' Hin. apply Hall. by right.
Qed.

End ReconcilerFacts.

(** C8 (as amended). One run of the reconciler appends to the queue,
    in directory order, exactly the [.wav] files of the recordings
    directory whose transcript ([stem.html] in the transcripts directory)
    does not exist: a file is enqueued if and only if it has no
    transcript, and once per run. The run changes no file, so a second
    run in a row enqueues the same files again; it enqueues nothing only
    once every file has its transcript. *)
Theorem reconciler_enqueues_unprocessed env config tw w :
  let names := Watcher.glob_wav env config in
  let found := Watcher.unprocessed config (Watcher.files w) names in
  exists w',
    Watcher._process_existing_files env config tw w
    = (Watcher.Return (Watcher.enqueue_all tw found), w')
    /\ Watcher.files w' = Watcher.files w
    /\ (forall nm, nm ∈ names ->
          (Pathlib.joinpath (Watcher.recordings config) nm ∈ found
           <-> Watcher.files w
                 !! Watcher.transcript_path_of config
                      (Pathlib.joinpath (Watcher.recordings config) nm) = None))
    /\ (NoDup (Watcher.listdir env (Watcher.recordings config)) -> NoDup found)
    /\ (exists w'',
          Watcher._process_existing_files env config (Watcher.enqueue_all tw found) w'
          = (Watcher.Return (Watcher.enqueue_all (Watcher.enqueue_all tw found) found), w''))
    /\ (forall tw2 w2,
          (forall nm, nm ∈ names ->
             is_Some (Watcher.files w2
                        !! Watcher.transcript_path_of config
                             (Pathlib.joinpath (Watcher.recordings config) nm))) ->
          exists tw3 w3,
            Watcher._process_existing_files env config tw2 w2 = (Watcher.Return tw3, w3)
            /\ Watcher.queue tw3 = Watcher.queue tw2).
Proof.
  intros names found. unfold Watcher._process_existing_files. fold names.
  destruct (reconcile_all_eq config names tw w) as [t Ht].
  eexists. split; [exact Ht|]. split; [done|]. split; [|split; [|split]].
  - intros nm Hnm. by apply unprocessed_elem.
  - intros Hnd. apply unprocessed_NoDup.
    apply NoDup_ListNoDup, List.NoDup_filter, NoDup_ListNoDup, Hnd.
  - destruct (reconcile_all_eq config names (Watcher.enqueue_all tw found)
                {| Watcher.files := Watcher.files w;
                   Watcher.trace := Watcher.trace w ++ t |}) as [t' Ht'].
    eexists. exact Ht'.
  - intros tw2 w2 Hall.
    destruct (reconcile_all_eq config names tw2 w2) as [t2 Ht2].
    eexists _, _. split; [exact Ht2|].
    rewrite (unprocessed_done config _ _ Hall). simpl. by rewrite app_nil_r.
Qed.

Lemma reconciler_enqueues_unprocessed_witness :
  exists w',
    Watcher._process_existing_files Scenario.two_recordings (Scenario.config false "")
      (Scenario.watcher []) Scenario.only_b_transcribed
    = (Watcher.Return (Scenario.watcher ["/rec/a.wav"%string]), w')
    /\ NoDup ["/rec/a.wav"%string].
Proof.
  destruct (reconciler_enqueues_unprocessed Scenario.two_recordings (Scenario.config false "")
              (Scenario.watcher []) Scenario.only_b_transcribed)
    as (w' & Hrun & _ & _ & Hnd & _).
  exists w'. split.
  - exact Hrun.
  - apply Hnd. refine (bool_decide_unpack _ _). vm_compute. exact I.
Defined.

(** C8 as stated fails: two runs in a row enqueue a file without
    transcript twice. *)
Lemma reconciler_twice_enqueues_twice :
  let once := Watcher._process_existing_files Scenario.two_recordings (Scenario.config false "")
                (Scenario.watcher []) Scenario.only_b_transcribed in
  let twice := match once with
               | (Watcher.Return tw, w) =>
                   Watcher._process_existing_files Scenario.two_recordings
                     (Scenario.config false "") tw w
               | r => r
               end in
  (Watcher.queue <$> match once.1 with Watcher.Return tw => Some tw | _ => None end)
  = Some ["/rec/a.wav"%string]
  /\ (Watcher.queue <$> match twice.1 with Watcher.Return tw => Some tw | _ => None end)
     = Some ["/rec/a.wav"%string; "/rec/a.wav"%string].
Proof. vm_compute. split; reflexivity. Qed.
(* ===================================================================== *)
(** ** What a run of the pipeline writes and removes *)
(* ===================================================================== *)

Section MoreTraceFacts.
Import Watcher.
Context {A B : Type} (P : Action -> Prop).

(** As [emits_bind], when the continuation is only known to behave on
    the values that [m] returns. *)
Lemma emits_bind_returned (m : M A) (k : A -> M B) :
  emits P m -> (forall w a w', m w = (Return a, w') -> emits P (k a)) ->
  emits P (m ≫= k).
Proof.
  intros Hm Hk w r w' H. unfold mbind, M_bind, bind in H.
  destruct (m w) as [[a|e] w1] eqn:E.
  - destruct (Hm _ _ _ E) as (t1 & Ht1 & H1).
    destruct (Hk _ _ _ E _ _ _ H) as (t2 & Ht2 & H2).
    exists (t1 ++ t2). rewrite Ht2, Ht1, app_assoc. split; [done|by apply Forall_app].
  - injection H as <- <-. eauto.
Qed.

Lemma emits_try_except2 (m : M A) c1 h1 c2 h2 :
  emits P m -> (forall e, emits P (h1 e)) -> (forall e, emits P (h2 e)) ->
  emits P (try_except2 m c1 h1 c2 h2).
Proof.
  intros Hm H1 H2 w r w' H. unfold try_except2 in H.
  destruct (m w) as [[a|e] w1] eqn:E.
  - injection H as <- <-. eauto.
  - destruct (Hm _ _ _ E) as (t1 & Ht1 & Hall1).
    destruct (c1 e); [|destruct (c2 e)].
    + destruct (H1 e _ _ _ H) as (t2 & Ht2 & Hall2).
      exists (t1 ++ t2). rewrite Ht2, Ht1, app_assoc. split; [done|by apply Forall_app].
    + destruct (H2 e _ _ _ H) as (t2 & Ht2 & Hall2).
      exists (t1 ++ t2). rewrite Ht2, Ht1, app_assoc. split; [done|by apply Forall_app].
    + injection H as <- <-. eauto.
Qed.

Lemma emits_stat p : emits P (stat p).
Proof.
  intros w r w' H. unfold stat in H.
  destruct (files w !! p); injection H as <- <-; exists []; by rewrite app_nil_r.
Qed.

Lemma emits_unlink env p : P (Unlink p) -> emits P (unlink env p).
Proof.
  intros Ha w r w' H. unfold unlink in H. simpl in H.
  destruct (unlink_error env p); injection H as <- <-;
    exists [Unlink p]; (split; [done|by constructor]).
Qed.

Lemma emits_post env endpoint json seconds :
  P (Post endpoint json seconds) -> emits P (post env endpoint json seconds).
Proof.
  intros Ha w r w' H. unfold post in H. simpl in H.
  destruct (requests_post env endpoint json seconds); injection H as <- <-;
    exists [Post endpoint json seconds]; (split; [done|by constructor]).
Qed.

End MoreTraceFacts.

Lemma emits_raise_for_status P status : Watcher.emits P (Watcher.raise_for_status status).
Proof.
  unfold Watcher.raise_for_status.
  repeat case_match; first [apply emits_raise | apply emits_ret].
Qed.

Lemma emits_weaken {A} (P Q : Watcher.Action -> Prop) (m : Watcher.M A) :
  (forall a, P a -> Q a) -> Watcher.emits P m -> Watcher.emits Q m.
Proof.
  intros HPQ Hm w r w' H. destruct (Hm _ _ _ H) as (t & Ht & Hall).
  exists t. split; [done|]. eapply Forall_impl; eauto.
Qed.

Lemma emits_new_actions {A} (P : Watcher.Action -> Prop) (m : Watcher.M A) w r w' :
  Watcher.emits P m -> m w = (r, w') -> Forall P (Watcher.new_actions w w').
Proof.
  intros Hm H. destruct (Hm _ _ _ H) as (t & Ht & Hall).
  unfold Watcher.new_actions. by rewrite Ht, drop_app_length.
Qed.

(** One step of a proof that a computation only emits actions that
    satisfy a predicate; [tac] proves the predicate of each action. *)
Ltac emits_with tac :=
  first
    [ apply emits_ret | apply emits_raise | apply emits_or_raise | apply emits_exists
    | apply emits_stat | apply emits_raise_for_status
    | apply emits_log; tac | apply emits_subprocess_run; tac
    | apply emits_unlink; tac | apply emits_post; tac
    | apply emits_bind; [|intros]
    | apply emits_try_except; [|intros]
    | apply emits_try_except2; [|intros|intros]
    | match goal with
      | |- Watcher.emits _ (match ?x with _ => _ end) => destruct x
      | |- Watcher.emits _ (let _ := _ in _) => cbv zeta
      end ].

Section PremixResult.
Import Watcher.

(** The probe, with its exception handler resolved: the exit code of
    [ffprobe] plays no part. *)
Lemma probe_channels_eq env audio w :
  probe_channels env audio w
  = let w1 := {| files := files w; trace := trace w ++ [Subprocess (probe_cmd audio)] |} in
    match run_process env (probe_cmd audio) (files w) with
    | RunRaises e =>
        (Return 2, snoc_log w1 WARNING ("ffprobe failed: " +:+ what e
                                        +:+ ", assuming 2 channels"))
    | RunCompleted _ stdout _ after =>
        let w2 := {| files := after; trace := trace w1 |} in
        match PyStr.int (PyStr.strip stdout) with
        | Some channels =>
            (Return channels,
             snoc_log w2 DEBUG ("Detected " +:+ PyStr.str_of_Z channels +:+ " channels in "
                                +:+ Pathlib.name audio))
        | None =>
            (Return 2,
             snoc_log w2 WARNING
               ("ffprobe failed: "
                +:+ ("invalid literal for int() with base 10: '"
                     +:+ PyStr.strip stdout +:+ "'")
                +:+ ", assuming 2 channels"))
        end
    end.
Proof.
  unfold probe_channels, try_except, any_exception. rewrite bind_eq.
  unfold subprocess_run at 1. cbn [files trace].
  destruct (run_process env _ _) as [e|rc out err after]; [reflexivity|].
  rewrite bind_eq. destruct (PyStr.int _) as [c|]; reflexivity.
Qed.

(** The three ways the premix stage can end: with the original path,
    with the path of a temporary file that exists, or with the
    [OverflowError] of [1.0 / channels]. *)
Lemma _premix_audio_cases env audio w r w' :
  _premix_audio env audio w = (r, w') ->
  r = Return audio
  \/ (r = Return (mixed_path env audio) /\ is_Some (files w' !! mixed_path env audio))
  \/ (r = Raise {| cls := OverflowError; what := "int too large to convert to float" |}
      /\ exists c w1, probe_channels env audio w = (Return c, w1) /\ 1024 < c).
Proof.
  unfold _premix_audio. rewrite bind_eq.
  destruct (probe_channels_returns env audio w) as (c & w1 & Hp). rewrite Hp.
  destruct (Z.leb_spec c 2) as [|Hc]; [intros [= <- <-]; by left|].
  rewrite bind_eq, log_eq. cbv zeta. rewrite bind_eq.
  destruct (mix_weight c) as [weight|] eqn:Hw; cbn [or_raise].
  2:{ intros [= <- <-]. right; right. split; [done|]. exists c, w1. split; [done|].
      destruct (Z.le_gt_cases c 1024) as [Hle|]; [|lia].
      destruct (mix_weight_near_reciprocal c ltac:(lia)) as (x & Hx & _). congruence. }
  unfold mret at 1, M_ret at 1, ret at 1.
  unfold try_except, any_exception. rewrite bind_eq. unfold subprocess_run at 1.
  cbn [files trace].
  destruct (run_process env _ _) as [e|rc out err after].
  - rewrite bind_eq, log_eq. intros [= <- <-]. by left.
  - rewrite bind_eq. destruct (rc =? 0).
    + unfold exists_ at 1. cbn [files].
      destruct (bool_decide _) eqn:Hb; rewrite bind_eq, log_eq; intros [= <- <-].
      * right; left. split; [done|]. by apply bool_decide_eq_true in Hb.
      * by left.
    + unfold mret at 1, M_ret at 1, ret at 1. rewrite bind_eq, log_eq.
      intros [= <- <-]. by left.
Qed.

Lemma _premix_audio_returned env audio w p w' :
  _premix_audio env audio w = (Return p, w') ->
  p = audio \/ p = mixed_path env audio.
Proof.
  intros H. destruct (_premix_audio_cases _ _ _ _ _ H) as [[= ->]|[[[= ->] _]|[[=] _]]]; tauto.
Qed.

End PremixResult.

(** X1. Whatever [ffprobe] and [ffmpeg] do, the premix stage hands over
    either the original recording or the temporary mixed file, and the
    latter only if it exists; it makes no request and removes no file.
    The only exception that leaves it is the [OverflowError] of
    [1.0 / channels], which needs a channel count above 1024. *)
Theorem premix_hands_over_a_usable_file env audio w r w' :
  Watcher._premix_audio env audio w = (r, w') ->
  (r = Watcher.Return audio
   \/ (r = Watcher.Return (Watcher.mixed_path env audio)
       /\ is_Some (Watcher.files w' !! Watcher.mixed_path env audio))
   \/ (r = Watcher.Raise {| Watcher.cls := Watcher.OverflowError;
                            Watcher.what := "int too large to convert to float" |}
       /\ exists c w1,
            Watcher.probe_channels env audio w = (Watcher.Return c, w1) /\ 1024 < c))
  /\ Forall Watcher.quiet (Watcher.new_actions w w').
Proof.
  intros H. split; [by eapply _premix_audio_cases|].
  eapply emits_new_actions; [apply _premix_audio_quiet|done].
Qed.

Lemma premix_hands_over_a_usable_file_witness :
  let w := Scenario.world (Scenario.recording 96044 16000) in
  let r := Watcher._premix_audio (Scenario.env "3" (Some 0) (Watcher.Response 200))
             Scenario.audio w in
  r.1 = Watcher.Return Scenario.mixed
  /\ is_Some (Watcher.files r.2 !! Scenario.mixed)
  /\ Forall Watcher.quiet (Watcher.new_actions w r.2).
Proof.
  intros w r.
  destruct (premix_hands_over_a_usable_file
              (Scenario.env "3" (Some 0) (Watcher.Response 200)) Scenario.audio w r.1 r.2)
    as [Hcases Hquiet]; [apply surjective_pairing|].
  split; [vm_compute; reflexivity|]. split; [|exact Hquiet].
  vm_compute. eauto.
Defined.

(** X2. When the channel count cannot be read, because [ffprobe]
    cannot be run or prints something that is not an integer, the
    recording is taken to have two channels: the premix stage returns the
    original path after a warning, and the mixer is not run. *)
Theorem unreadable_channel_count_skips_premix env audio w :
  match Watcher.run_process env (Watcher.probe_cmd audio) (Watcher.files w) with
  | Watcher.RunRaises _ => True
  | Watcher.RunCompleted _ stdout _ _ => PyStr.int (PyStr.strip stdout) = None
  end ->
  exists msg,
    Watcher._premix_audio env audio w
    = (Watcher.Return audio,
       {| Watcher.files :=
            match Watcher.run_process env (Watcher.probe_cmd audio) (Watcher.files w) with
            | Watcher.RunRaises _ => Watcher.files w
            | Watcher.RunCompleted _ _ _ after => after
            end;
          Watcher.trace :=
            Watcher.trace w ++ [Watcher.Subprocess (Watcher.probe_cmd audio);
                                Watcher.Log WARNING msg] |}).
Proof.
  intros H. unfold Watcher._premix_audio. rewrite bind_eq, probe_channels_eq. cbv zeta.
  destruct (Watcher.run_process env _ _) as [e|rc out err after].
  - eexists. unfold Watcher.snoc_log. cbn. by rewrite <- app_assoc.
  - rewrite H. eexists. unfold Watcher.snoc_log. cbn. by rewrite <- app_assoc.
Qed.

Lemma unreadable_channel_count_skips_premix_witness :
  exists msg,
    Watcher._premix_audio (Scenario.env "six" (Some 0) (Watcher.Response 200)) Scenario.audio
      (Scenario.world (Scenario.recording 96044 16000))
    = (Watcher.Return Scenario.audio,
       {| Watcher.files := Scenario.recording 96044 16000;
          Watcher.trace := [Watcher.Subprocess (Watcher.probe_cmd Scenario.audio);
                            Watcher.Log WARNING msg] |}).
Proof.
  apply (unreadable_channel_count_skips_premix
           (Scenario.env "six" (Some 0) (Watcher.Response 200)) Scenario.audio
           (Scenario.world (Scenario.recording 96044 16000))).
  vm_compute. reflexivity.
Defined.

(** X3. With more than two channels, the result of the mixer decides:
    the temporary file is used only if [ffmpeg] exits with code 0 and
    the file exists afterwards; in every other case (the mixer cannot be
    run, exits with another code, or leaves no file) the original
    recording is used, after a warning with the exception or with what
    the mixer wrote to stderr. *)
Theorem mixer_outcome_decides_premix env audio w c w1 weight :
  Watcher.probe_channels env audio w = (Watcher.Return c, w1) ->
  2 < c ->
  Watcher.mix_weight c = Some weight ->
  let mixed := Watcher.mixed_path env audio in
  let cmd := Watcher.mix_cmd audio (Watcher.mix_filter env weight c) mixed in
  let w2 := {| Watcher.files := Watcher.files w1;
               Watcher.trace :=
                 Watcher.trace w1
                 ++ [Watcher.Log INFO ("Pre-mixing " +:+ PyStr.str_of_Z c
                                       +:+ "-channel audio to mono");
                     Watcher.Subprocess cmd] |} in
  Watcher._premix_audio env audio w
  = match Watcher.run_process env cmd (Watcher.files w1) with
    | Watcher.RunRaises e =>
        (Watcher.Return audio,
         Watcher.snoc_log w2 WARNING ("Pre-mix error, using original: " +:+ Watcher.what e))
    | Watcher.RunCompleted returncode _ stderr after =>
        let w3 := {| Watcher.files := after; Watcher.trace := Watcher.trace w2 |} in
        if (returncode =? 0) && bool_decide (is_Some (after !! mixed))
        then (Watcher.Return mixed,
              Watcher.snoc_log w3 DEBUG ("Pre-mixed audio saved to: " +:+ mixed))
        else (Watcher.Return audio,
              Watcher.snoc_log w3 WARNING ("Pre-mix failed, using original: " +:+ stderr))
    end.
Proof.
  intros Hp Hc Hw mixed cmd w2. unfold Watcher._premix_audio. rewrite bind_eq, Hp.
  destruct (Z.leb_spec c 2); [lia|].
  rewrite bind_eq, log_eq. cbv zeta. rewrite bind_eq, Hw. cbn [Watcher.or_raise].
  unfold mret at 1, Watcher.M_ret at 1, Watcher.ret at 1.
  unfold Watcher.try_except, Watcher.any_exception. rewrite bind_eq.
  unfold Watcher.subprocess_run at 1. unfold Watcher.snoc_log. cbn [Watcher.files Watcher.trace].
  fold mixed. fold cmd.
  destruct (Watcher.run_process env cmd (Watcher.files w1)) as [e|rc out err after].
  - rewrite bind_eq, log_eq. unfold w2, Watcher.snoc_log. cbn [Watcher.files Watcher.trace].
    by rewrite <- !app_assoc.
  - rewrite bind_eq. destruct (rc =? 0); cbn [andb].
    + unfold Watcher.exists_ at 1. cbn [Watcher.files].
      destruct (bool_decide _); rewrite bind_eq, log_eq;
        unfold w2, Watcher.snoc_log; cbn [Watcher.files Watcher.trace];
        by rewrite <- !app_assoc.
    + unfold mret at 1, Watcher.M_ret at 1, Watcher.ret at 1. rewrite bind_eq, log_eq.
      unfold w2, Watcher.snoc_log. cbn [Watcher.files Watcher.trace].
      by rewrite <- !app_assoc.
Qed.

Lemma mixer_outcome_decides_premix_witness :
  exists w',
    Watcher._premix_audio Situation.broken_mixer Scenario.audio
      (Scenario.world (Scenario.recording 96044 16000))
    = (Watcher.Return Scenario.audio, w')
    /\ List.last (Watcher.trace w') (Watcher.Unlink "")
       = Watcher.Log WARNING
           "Pre-mix failed, using original: Invalid data found when processing input".
Proof.
  rewrite (mixer_outcome_decides_premix Situation.broken_mixer Scenario.audio
             (Scenario.world (Scenario.recording 96044 16000)) 3
             {| Watcher.files := Scenario.recording 96044 16000;
                Watcher.trace := [Watcher.Subprocess (Watcher.probe_cmd Scenario.audio);
                                  Watcher.Log DEBUG
                                    "Detected 3 channels in 2025-12-05_15-56-47.wav"] |}
             (S754_finite false 6004799503160661 (-54))).
  - eexists. split; vm_compute; reflexivity.
  - vm_compute. reflexivity.
  - lia.
  - vm_compute. reflexivity.
Defined.

(* ===================================================================== *)
(** ** More about the webhook request *)
(* ===================================================================== *)

Section KeepsFiles.
Import Watcher Service.
Context {A B : Type}.

Lemma keeps_files_ret (a : A) : keeps_files (mret a).
Proof. by intros w r w' [= <- <-]. Qed.

Lemma keeps_files_raise e : keeps_files (raise e : M A).
Proof. by intros w r w' [= <- <-]. Qed.

Lemma keeps_files_or_raise (o : option A) e : keeps_files (or_raise o e).
Proof. destruct o; [apply keeps_files_ret|apply keeps_files_raise]. Qed.

Lemma keeps_files_bind (m : M A) (k : A -> M B) :
  keeps_files m -> (forall a, keeps_files (k a)) -> keeps_files (m ≫= k).
Proof.
  intros Hm Hk w r w' H. unfold mbind, M_bind, bind in H.
  destruct (m w) as [[a|e] w1] eqn:E.
  - rewrite (Hk a _ _ _ H). by eapply Hm.
  - injection H as <- <-. by eapply Hm.
Qed.

Lemma keeps_files_try_except (m : M A) c h :
  keeps_files m -> (forall e, keeps_files (h e)) -> keeps_files (try_except m c h).
Proof.
  intros Hm Hh w r w' H. unfold try_except in H.
  destruct (m w) as [[a|e] w1] eqn:E.
  - injection H as <- <-. by eapply Hm.
  - destruct (c e).
    + rewrite (Hh e _ _ _ H). by eapply Hm.
    + injection H as <- <-. by eapply Hm.
Qed.

Lemma keeps_files_try_except2 (m : M A) c1 h1 c2 h2 :
  keeps_files m -> (forall e, keeps_files (h1 e)) -> (forall e, keeps_files (h2 e)) ->
  keeps_files (try_except2 m c1 h1 c2 h2).
Proof.
  intros Hm H1 H2 w r w' H. unfold try_except2 in H.
  destruct (m w) as [[a|e] w1] eqn:E.
  - injection H as <- <-. by eapply Hm.
  - destruct (c1 e); [|destruct (c2 e)].
    + rewrite (H1 e _ _ _ H). by eapply Hm.
    + rewrite (H2 e _ _ _ H). by eapply Hm.
    + injection H as <- <-. by eapply Hm.
Qed.

Lemma keeps_files_log lv msg : keeps_files (log lv msg).
Proof. by intros w r w' [= <- <-]. Qed.

Lemma keeps_files_exists p : keeps_files (exists_ p).
Proof. by intros w r w' [= <- <-]. Qed.

Lemma keeps_files_stat p : keeps_files (stat p).
Proof. intros w r w' H. unfold stat in H. by destruct (files w !! p); injection H as <- <-. Qed.

Lemma keeps_files_post env endpoint json seconds : keeps_files (post env endpoint json seconds).
Proof.
  intros w r w' H. unfold post in H.
  by destruct (requests_post env endpoint json seconds); injection H as <- <-.
Qed.

End KeepsFiles.

Lemma keeps_files_raise_for_status status :
  Service.keeps_files (Watcher.raise_for_status status).
Proof.
  unfold Watcher.raise_for_status.
  repeat case_match; first [apply keeps_files_raise | apply keeps_files_ret].
Qed.

Ltac keeps_files_step :=
  first
    [ apply keeps_files_ret | apply keeps_files_raise | apply keeps_files_or_raise
    | apply keeps_files_log | apply keeps_files_exists | apply keeps_files_stat
    | apply keeps_files_post | apply keeps_files_raise_for_status
    | apply keeps_files_bind; [|intros]
    | apply keeps_files_try_except; [|intros]
    | apply keeps_files_try_except2; [|intros|intros]
    | match goal with
      | |- Service.keeps_files (match ?x with _ => _ end) => destruct x
      | |- Service.keeps_files (let _ := _ in _) => cbv zeta
      end ].

Section RequestFacts.
Import Watcher Service.

Lemma _send_webhook_keeps_files env config audio transcript :
  keeps_files (_send_webhook env config audio transcript).
Proof. unfold _send_webhook, build_started_at. repeat keeps_files_step. Qed.


(** A call of [_send_webhook] either makes no request, or makes the one
    request below and ends as the answer to it says. *)
Lemma _send_webhook_actions env config audio transcript w r w' :
  _send_webhook env config audio transcript w = (r, w') ->
  (Forall no_post (new_actions w w') /\ forall status, r <> Return (Sent status))
  \/ exists tf af started rounded t t',
       truthy (webhook_url config) = true
       /\ files w !! transcript = Some tf
       /\ files w !! audio = Some af
       /\ duration_of_size (st_size af) = Some rounded
       /\ let payload := {| transcript_path := transcript; transcript_html := text tf;
                            started_at := started; audio_duration_seconds := rounded |} in
          new_actions w w'
          = t ++ [Post (webhook_url config) payload (webhook_timeout config)] ++ t'
          /\ Forall no_post t /\ Forall no_post t'
          /\ r = Return (outcome (requests_post env (webhook_url config) payload
                                    (webhook_timeout config))).
Proof.
  intros Hsend.
  destruct (truthy (webhook_url config)) eqn:Hurl.
  2:{ rewrite _send_webhook_unconfigured in Hsend by done. injection Hsend as <- <-.
      left. split; [|done]. unfold snoc_log. rewrite new_actions_app. by repeat constructor. }
  destruct (_send_webhook_cases env config audio transcript w Hurl)
    as [(w1 & e & t & Heq & Ht & Hall)|(tf & af & q & started & w1 & rounded & H)].
  { left. rewrite Heq in Hsend. unfold preparation_failed in Hsend.
    destruct (is_request_exception e); injection Hsend as <- <-; (split; [|done]);
      unfold new_actions, snoc_log; simpl; rewrite Ht, <- app_assoc, drop_app_length;
      (apply Forall_app; split; [done|by repeat constructor]). }
  destruct H as (Htf & Haf & Hq & Hst & Hr). right.
  destruct (build_started_at_files _ _ _ _ _ Hst) as (_ & t & Ht & Hall).
  rewrite (_send_webhook_attempt env config audio transcript w tf af q started w1 rounded)
    in Hsend by done.
  assert (duration_of_size (st_size af) = Some rounded) as Hdur
    by (unfold duration_of_size; by rewrite Hq).
  exists tf, af, started, rounded, t. cbv zeta. unfold outcome.
  destruct (requests_post env _ _ _) as [e|status].
  - destruct (is_request_exception e); injection Hsend as <- <-; eexists;
      (split; [done|]); (split; [done|]); (split; [done|]); (split; [done|]);
      (split; [unfold new_actions, snoc_log; simpl;
               rewrite Ht, <- !app_assoc, drop_app_length; reflexivity|]);
      (split; [done|]); (split; [by repeat constructor|done]).
  - destruct ((400 <=? status) && (status <? 600)); injection Hsend as <- <-; eexists;
      (split; [done|]); (split; [done|]); (split; [done|]); (split; [done|]);
      (split; [unfold new_actions, snoc_log; simpl;
               rewrite Ht, <- !app_assoc, drop_app_length; reflexivity|]);
      (split; [done|]); (split; [by repeat constructor|done]).
Qed.

Lemma posts_no_post t : Forall no_post t -> posts t = [].
Proof.
  induction 1 as [|a t Ha _ IH]; [done|].
  unfold posts in *. simpl. unfold no_post in Ha. by rewrite Ha.
Qed.

End RequestFacts.



(** X5. How a delivery ends is decided by the answer to its one
    request alone: an exception of the transport or a status from 400 to
    599 fails it, and every other status, 2xx or not, counts as sent. A
    delivery never counts as sent without a request. *)
Theorem webhook_outcome_follows_answer env config audio transcript w r w' :
  Watcher._send_webhook env config audio transcript w = (r, w') ->
  (forall endpoint payload seconds,
     Watcher.Post endpoint payload seconds ∈ Watcher.new_actions w w' ->
     r = Watcher.Return (Service.outcome (Watcher.requests_post env endpoint payload seconds)))
  /\ (forall status,
        r = Watcher.Return (Watcher.Sent status) ->
        ~ (400 <= status < 600)
        /\ exists endpoint payload seconds,
             Watcher.Post endpoint payload seconds ∈ Watcher.new_actions w w'
             /\ Watcher.requests_post env endpoint payload seconds = Watcher.Response status).
Proof.
  intros Hsend.
  destruct (_send_webhook_actions _ _ _ _ _ _ _ Hsend)
    as [[Hnone Hns]|(tf & af & started & rounded & t & t' & Hurl & Htf & Haf & _ & H)].
  - split.
    + intros endpoint payload seconds Hin. rewrite Forall_forall in Hnone.
      by specialize (Hnone _ Hin).
    + intros status Hr. by destruct (Hns status).
  - cbv zeta in H. destruct H as (Hnew & Ht & Ht' & Hr). split.
    + intros endpoint payload seconds Hin. rewrite Hnew in Hin.
      rewrite Forall_forall in Ht, Ht'.
      apply elem_of_app in Hin as [Hin|Hin]; [by specialize (Ht _ Hin)|].
      apply elem_of_app in Hin as [Hin|Hin]; [|by specialize (Ht' _ Hin)].
      apply list_elem_of_singleton in Hin. by injection Hin as -> -> ->.
    + intros status Hs. rewrite Hs in Hr. injection Hr as Hr. unfold Service.outcome in Hr.
      destruct (Watcher.requests_post env _ _ _) as [e|status'] eqn:Hans.
      { by destruct (Watcher.is_request_exception e). }
      destruct (Z.leb_spec 400 status'), (Z.ltb_spec status' 600); simpl in Hr;
        try discriminate; injection Hr as ->; (split; [lia|]);
        eexists _, _, _; (split; [|exact Hans]); rewrite Hnew;
        apply elem_of_app; right; apply list_elem_of_here.
Qed.

Lemma webhook_outcome_follows_answer_witness :
  let r := Watcher._send_webhook (Scenario.env "1" (Some 0) (Watcher.Response 204))
             (Scenario.config true Scenario.endpoint)
             Scenario.audio Scenario.transcript Scenario.delivered_world in
  r.1 = Watcher.Return (Watcher.Sent 204).
Proof.
  intros r.
  destruct (webhook_outcome_follows_answer
              (Scenario.env "1" (Some 0) (Watcher.Response 204))
              (Scenario.config true Scenario.endpoint)
              Scenario.audio Scenario.transcript Scenario.delivered_world r.1 r.2)
    as [H _]; [apply surjective_pairing|].
  apply (H Scenario.endpoint
           {| Watcher.transcript_path := Scenario.transcript;
              Watcher.transcript_html := "<html>hello</html>";
              Watcher.started_at := "2025-12-05T20:56:47Z";
              Watcher.audio_duration_seconds := 2279 |} 30).
  vm_compute. apply list_elem_of_further, list_elem_of_here.
Defined.

(* ===================================================================== *)
(** ** More about a job and about the loop *)
(* ===================================================================== *)

Section JobFacts.
Import Watcher Service.

Lemma emits_cleanup P env audio processed :
  (processed <> audio -> P (Unlink processed)) ->
  (forall lv msg, P (Log lv msg)) ->
  emits P (cleanup env audio processed).
Proof.
  intros Hun Hlog. unfold cleanup.
  destruct (String.eqb_spec processed audio) as [->|Hne]; cbn [negb].
  - apply emits_bind_returned; [apply emits_ret|]. intros w a w' [= <- _]. apply emits_ret.
  - apply emits_bind; [apply emits_exists|]. intros [|]; [|apply emits_ret].
    apply emits_try_except.
    + apply emits_bind; [apply emits_unlink; auto|]. intros _. by apply emits_log.
    + intros e. by apply emits_log.
Qed.

Lemma emits_send_webhook P env config audio transcript :
  (forall lv msg, P (Log lv msg)) ->
  (forall endpoint payload seconds, P (Post endpoint payload seconds)) ->
  emits P (_send_webhook env config audio transcript).
Proof.
  intros Hlog Hpost. unfold _send_webhook, build_started_at.
  repeat emits_with ltac:(auto).
Qed.

Lemma emits_deliver P env config audio transcript :
  (forall lv msg, P (Log lv msg)) ->
  (forall endpoint payload seconds, P (Post endpoint payload seconds)) ->
  emits P (deliver env config audio transcript).
Proof.
  intros Hlog Hpost. unfold deliver. destruct (webhook_enabled config); [|apply emits_ret].
  apply emits_bind; [by apply emits_send_webhook|]. intros d. apply emits_ret.
Qed.

(** What [_transcribe_file] does after its first record. *)
Lemma emits_transcribe_file P env config audio :
  (forall lv msg, P (Log lv msg)) ->
  (forall cmd, P (Subprocess cmd)) ->
  (forall endpoint payload seconds, P (Post endpoint payload seconds)) ->
  (mixed_path env audio <> audio -> P (Unlink (mixed_path env audio))) ->
  emits P (_transcribe_file env config audio).
Proof.
  intros Hlog Hsub Hpost Hun. unfold _transcribe_file. cbv zeta.
  apply emits_bind; [by apply emits_log|]. intros _.
  apply emits_bind_returned.
  { eapply emits_weaken; [|apply _premix_audio_quiet]. intros [] Ha; try done; auto. }
  intros w0 processed w1 Hpremix.
  apply emits_bind; [by apply emits_log|]. intros _.
  apply emits_bind.
  { apply emits_try_except.
    - apply emits_bind; [by apply emits_subprocess_run|]. intros [[rc out] err].
      destruct (negb (rc =? 0)); [|apply emits_ret].
      repeat (apply emits_bind; [by apply emits_log|intros _]). apply emits_ret.
    - intros e. apply emits_bind; [by apply emits_log|]. intros _. apply emits_ret. }
  intros [exit|]; [apply emits_ret|].
  apply emits_bind; [by apply emits_log|]. intros _.
  apply emits_bind; [|intros _; by apply emits_deliver].
  apply emits_cleanup; [|done].
  destruct (_premix_audio_returned _ _ _ _ _ Hpremix) as [->| ->]; [done|auto].
Qed.

(** The first record of a job, and what follows it. *)
Lemma _transcribe_file_trace env config audio w r w' :
  _transcribe_file env config audio w = (r, w') ->
  exists t, trace w' = trace w ++ start_record audio :: t.
Proof.
  intros H.
  assert (exists k : M Exit,
            _transcribe_file env config audio w
            = k (snoc_log w INFO ("Starting transcription: " +:+ Pathlib.name audio))
            /\ emits (fun _ => True) k) as (k & Hk & Hemits).
  { eexists. split.
    - unfold _transcribe_file. cbv zeta. rewrite bind_eq, log_eq. cbv beta iota.
      reflexivity.
    - apply emits_bind; [eapply emits_weaken; [|apply _premix_audio_quiet]; done|].
      intros processed.
      apply emits_bind; [by apply emits_log|]. intros _.
      apply emits_bind.
      { apply emits_try_except.
        - apply emits_bind; [by apply emits_subprocess_run|]. intros [[rc out] err].
          destruct (negb (rc =? 0)); [|apply emits_ret].
          repeat (apply emits_bind; [by apply emits_log|intros _]). apply emits_ret.
        - intros e. apply emits_bind; [by apply emits_log|]. intros _. apply emits_ret. }
      intros [exit|]; [apply emits_ret|].
      apply emits_bind; [by apply emits_log|]. intros _.
      apply emits_bind; [|intros _; by apply emits_deliver].
      by apply emits_cleanup. }
  rewrite Hk in H. destruct (Hemits _ _ _ H) as (t & Ht & _). exists t.
  rewrite Ht. unfold snoc_log, start_record. simpl. by rewrite <- app_assoc.
Qed.

End JobFacts.

(** X6. A job never removes the recording it was given: whatever the
    subprocesses and the endpoint do, the only file [_transcribe_file]
    ever removes is the temporary mixed file of that recording. *)
Theorem recording_is_never_removed env config audio w r w' p :
  Watcher._transcribe_file env config audio w = (r, w') ->
  Watcher.Unlink p ∈ Watcher.new_actions w w' ->
  p = Watcher.mixed_path env audio /\ p <> audio.
Proof.
  intros Hrun Hin.
  assert (Forall (Service.spares env audio) (Watcher.new_actions w w')) as Hall.
  { eapply emits_new_actions; [|exact Hrun].
    apply emits_transcribe_file; try done. }
  rewrite Forall_forall in Hall. apply (Hall _ Hin).
Qed.

Lemma recording_is_never_removed_witness :
  Scenario.mixed
  = Watcher.mixed_path (Scenario.env "3" (Some 0) (Watcher.Response 200)) Scenario.audio
  /\ Scenario.mixed <> Scenario.audio.
Proof.
  set (run := Watcher._transcribe_file (Scenario.env "3" (Some 0) (Watcher.Response 200))
                (Scenario.config false Scenario.endpoint) Scenario.audio
                (Scenario.world (Scenario.recording 96044 48000))).
  apply (recording_is_never_removed (Scenario.env "3" (Some 0) (Watcher.Response 200))
           (Scenario.config false Scenario.endpoint) Scenario.audio
           (Scenario.world (Scenario.recording 96044 48000)) run.1 run.2).
  - apply surjective_pairing.
  - vm_compute. do 9 apply list_elem_of_further. apply list_elem_of_here.
Defined.



Section RoundFacts.
Import Watcher Service.
Variables (env : Env) (config : Config).

(** One round on a queue that is not empty: the job is started, and
    the round ends normally. *)
Lemma _process_queue_started tw w audio rest :
  queue tw = audio :: rest ->
  exists w' t,
    _process_queue env config tw w = (Return (dequeued tw), w')
    /\ trace w' = trace w ++ start_record audio :: t.
Proof.
  intros Hq. rewrite (_process_queue_eq env config tw w audio rest Hq).
  destruct (_transcribe_file env config audio w) as [[x|e] w1] eqn:Hrun;
    destruct (_transcribe_file_trace _ _ _ _ _ _ Hrun) as (t & Ht).
  - by exists w1, t.
  - eexists _, (t ++ [_]). split; [reflexivity|].
    unfold snoc_log. cbn [trace]. by rewrite Ht, <- app_assoc.
Qed.

Lemma _process_queue_idle tw w :
  queue tw = [] -> _process_queue env config tw w = (Return tw, w).
Proof. intros Hq. unfold _process_queue. by rewrite Hq. Qed.

Lemma dequeued_running tw : running (dequeued tw) = running tw.
Proof. unfold dequeued. by destruct (queue tw). Qed.

Lemma dequeued_queue tw : queue (dequeued tw) = drop 1 (queue tw).
Proof. unfold dequeued. by destruct (queue tw) eqn:E; [rewrite E|]. Qed.

Lemma poll_idle n : forall tw w, queue tw = [] -> poll env config n tw w = (Return tw, w).
Proof.
  induction n as [|n IH]; intros tw w Hq; cbn [poll]; [reflexivity|].
  destruct (running tw); [|reflexivity]. rewrite bind_eq, _process_queue_idle by done.
  by apply IH.
Qed.

(** The loop takes the jobs one per round, oldest first. *)
Lemma poll_order n : forall tw w,
  running tw = true ->
  exists tw' w' t,
    poll env config n tw w = (Return tw', w')
    /\ queue tw' = drop n (queue tw)
    /\ running tw' = true
    /\ trace w' = trace w ++ t
    /\ (start_record <$> take n (queue tw)) `sublist_of` t.
Proof.
  induction n as [|n IH]; intros tw w Hrun.
  - exists tw, w, []. rewrite app_nil_r. repeat split; try done.
  - destruct (queue tw) as [|audio rest] eqn:Hq.
    + exists tw, w, []. rewrite app_nil_r, poll_idle by done. rewrite Hq.
      repeat split; try done.
    + destruct (_process_queue_started tw w audio rest Hq) as (w1 & t1 & Hround & Ht1).
      rewrite (poll_step env config n tw w w1 Hrun Hround).
      destruct (IH (dequeued tw) w1) as (tw' & w' & t2 & Hpoll & Hq' & Hrun' & Ht2 & Hsub).
      { by rewrite dequeued_running. }
      exists tw', w', (start_record audio :: t1 ++ t2). split; [done|].
      rewrite dequeued_queue, Hq in Hq'. rewrite dequeued_queue, Hq in Hsub.
      simpl in Hq', Hsub. rewrite drop_0 in Hq'.
      repeat split; try done.
      * by rewrite Ht2, Ht1, <- app_assoc.
      * simpl. apply sublist_skip. by apply sublist_inserts_l.
Qed.

End RoundFacts.

(** X8. One round of the loop never raises, whatever the job does:
    the job at the head of the queue is taken off, [processing] and
    [current_file] are reset, and everything written before stays. An
    exception that leaves [_transcribe_file] ends up in one error record.
    On an empty queue the round does nothing at all. *)
Theorem pipeline_round_isolates_failures env config tw w :
  exists w' t,
    Watcher._process_queue env config tw w = (Watcher.Return (Watcher.dequeued tw), w')
    /\ Watcher.trace w' = Watcher.trace w ++ t
    /\ (Watcher.queue tw = [] -> Watcher.dequeued tw = tw /\ w' = w)
    /\ (forall audio rest,
          Watcher.queue tw = audio :: rest ->
          Watcher.dequeued tw
          = {| Watcher.queue := rest; Watcher.processing := false;
               Watcher.current_file := None; Watcher.running := Watcher.running tw |}
          /\ forall e w1,
               Watcher._transcribe_file env config audio w = (Watcher.Raise e, w1) ->
               w' = Watcher.snoc_log w1 ERROR ("Error transcribing " +:+ Pathlib.name audio
                                               +:+ ": " +:+ Watcher.what e)).
Proof.
  destruct (Watcher.queue tw) as [|audio rest] eqn:Hq.
  - exists w, []. rewrite _process_queue_idle by done. unfold Watcher.dequeued. rewrite Hq.
    rewrite app_nil_r. repeat split; done.
  - destruct (_process_queue_started env config tw w audio rest Hq) as (w' & t & Hround & Ht).
    exists w', (Service.start_record audio :: t). split; [done|]. split; [done|].
    split; [done|]. intros audio' rest' [= <- <-]. split.
    + unfold Watcher.dequeued. by rewrite Hq.
    + intros e w1 Hraise.
      rewrite (_process_queue_eq env config tw w audio rest Hq), Hraise in Hround.
      by injection Hround as <-.
Qed.

(** X9. The loop works through the queue in order, one job per round:
    after [n] rounds the first [n] jobs have been started, oldest first,
    the others are still queued in their order, and the loop is still
    running, whatever became of each job. With an empty queue the rounds
    change nothing. *)
Theorem loop_takes_jobs_in_queue_order env config n tw w :
  Watcher.running tw = true ->
  exists tw' w' t,
    Watcher.poll env config n tw w = (Watcher.Return tw', w')
    /\ Watcher.queue tw' = drop n (Watcher.queue tw)
    /\ Watcher.running tw' = true
    /\ Watcher.trace w' = Watcher.trace w ++ t
    /\ (Service.start_record <$> take n (Watcher.queue tw)) `sublist_of` t
    /\ (Watcher.queue tw = [] -> tw' = tw /\ w' = w).
Proof.
  intros Hrun.
  destruct (poll_order env config n tw w Hrun)
    as (tw' & w' & t & Hpoll & Hq & Hrun' & Ht & Hsub).
  exists tw', w', t. do 5 (split; [done|]).
  intros Hempty. rewrite poll_idle in Hpoll by done. by injection Hpoll.
Qed.

Lemma loop_takes_jobs_in_queue_order_witness :
  exists tw' w',
    Watcher.poll (Scenario.env "2" (Some 1) (Watcher.Response 200))
      (Scenario.config true Scenario.endpoint) 1 Scenario.failing_queue
      (Scenario.world (Scenario.recording 64044 16000))
    = (Watcher.Return tw', w')
    /\ Watcher.queue tw' = ["/rec/next.wav"%string]
    /\ Service.start_record Scenario.audio ∈ Watcher.trace w'.
Proof.
  destruct (loop_takes_jobs_in_queue_order
              (Scenario.env "2" (Some 1) (Watcher.Response 200))
              (Scenario.config true Scenario.endpoint) 1 Scenario.failing_queue
              (Scenario.world (Scenario.recording 64044 16000)) eq_refl)
    as (tw' & w' & t & Hpoll & Hq & _ & Ht & Hsub & _).
  exists tw', w'. split; [exact Hpoll|]. split; [exact Hq|].
  rewrite Ht. apply elem_of_app. right.
  eapply elem_of_sublist; [|exact Hsub]. apply list_elem_of_here.
Defined.

(** X10. Startup works through the backlog: started on a fresh watcher
    and left alone, the service enqueues the recordings without
    transcript and starts each of them, in directory order, one per
    round; after as many rounds as there are such recordings the queue
    is empty again, and the service is still running. *)
Theorem startup_works_through_backlog env config rounds w :
  let found := Watcher.unprocessed config (Watcher.files w) (Watcher.glob_wav env config) in
  (length found <= rounds)%nat ->
  exists tw' w' t,
    Service.start env config rounds Service.init w = (Watcher.Return tw', w')
    /\ Watcher.queue tw' = []
    /\ Watcher.running tw' = true
    /\ Watcher.trace w' = Watcher.trace w ++ t
    /\ (Service.start_record <$> found) `sublist_of` t.
Proof.
  intros found Hlen. unfold Service.start.
  repeat (rewrite bind_eq, log_eq; cbv beta iota).
  rewrite bind_eq.
  match goal with
  | |- context [Watcher._process_existing_files env config Service.init ?w0] =>
      set (w1 := w0);
      destruct (reconcile_all_eq config (Watcher.glob_wav env config) Service.init w1)
        as [t1 Hrec]
  end.
  unfold Watcher._process_existing_files. rewrite Hrec. cbv zeta.
  rewrite bind_eq, log_eq. cbv beta iota.
  match goal with
  | |- context [Watcher.poll env config rounds ?tw2 ?w2] =>
      destruct (poll_order env config rounds tw2 w2 eq_refl)
        as (tw' & w' & t2 & Hpoll & Hq & Hrun & Ht2 & Hsub)
  end.
  cbn [Watcher.queue Watcher.enqueue_all Service.init app Watcher.files] in Hq, Hsub.
  change (Watcher.files w1) with (Watcher.files w) in Hq, Hsub. fold found in Hq, Hsub.
  rewrite drop_ge in Hq by done. rewrite take_ge in Hsub by done.
  eexists tw', w', _. split; [exact Hpoll|]. split; [done|]. split; [done|]. split.
  - rewrite Ht2. subst w1. unfold Watcher.snoc_log. cbn [Watcher.trace Watcher.files].
    rewrite <- !app_assoc. reflexivity.
  - cbn [app]. do 3 apply sublist_cons. apply sublist_inserts_l. by apply sublist_cons.
Qed.

Lemma startup_works_through_backlog_witness :
  exists tw' w',
    Service.start Scenario.two_recordings (Scenario.config false "") 1 Service.init
      Scenario.only_b_transcribed
    = (Watcher.Return tw', w')
    /\ Watcher.queue tw' = []
    /\ Service.start_record "/rec/a.wav" ∈ Watcher.trace w'.
Proof.
  destruct (startup_works_through_backlog Scenario.two_recordings (Scenario.config false "")
              1 Scenario.only_b_transcribed)
    as (tw' & w' & t & Hstart & Hq & _ & Ht & Hsub).
  - vm_compute. lia.
  - exists tw', w'. split; [exact Hstart|]. split; [exact Hq|].
    rewrite Ht. apply elem_of_app. right.
    eapply elem_of_sublist; [|exact Hsub]. vm_compute. apply list_elem_of_here.
Defined.

Section JobEnds.
Import Watcher.

Lemma cleanup_returns env audio processed w :
  exists w', cleanup env audio processed w = (Return tt, w').
Proof.
  unfold cleanup. rewrite bind_eq.
  destruct (negb _).
  - unfold exists_ at 1. destruct (bool_decide _); [|by eexists].
    destruct (try_except_returns
                (unlink env processed;; log DEBUG ("Cleaned up temp file: " +:+ processed))
                (fun e => log WARNING ("Failed to cleanup temp file: " +:+ what e)) w)
      as ([] & w' & ->); [|by eexists].
    intros e w1. rewrite log_eq. eauto.
  - by eexists.
Qed.


End JobEnds.



(** The exception of the premix stage is caught by the loop: one error
    record, and the next job is taken. *)
Example overflow_is_caught_by_the_loop :
  let r := Watcher._process_queue
             (Scenario.env Situation.absurd_channel_count (Some 0) (Watcher.Response 200))
             (Scenario.config true Scenario.endpoint) Scenario.failing_queue
             (Scenario.world (Scenario.recording 96044 16000)) in
  r.1 = Watcher.Return (Scenario.watcher ["/rec/next.wav"%string])
  /\ List.filter Watcher.is_error_log (Watcher.trace r.2)
     = [Watcher.Log ERROR
          "Error transcribing 2025-12-05_15-56-47.wav: int too large to convert to float"].
Proof. vm_compute. split; reflexivity. Qed.

(* ===================================================================== *)
(** ** More about the debounce coalescer *)
(* ===================================================================== *)

Section ScheduleFacts.
Import Debounce Schedule.
Variables (fs : FileSystem) (p : string) (D : Z).






End ScheduleFacts.





(* ===================================================================== *)
(** ** Paths: which files the live watcher and the reconciler accept *)
(* ===================================================================== *)

Section PathFacts.

Lemma rfind_free c s : PyStr.free_of c s = true -> PyStr.rfind c s = None.
Proof.
  induction s as [|a s IH]; [done|]. simpl.
  intros [Ha Hs]%andb_prop. rewrite (IH Hs). apply negb_true_iff in Ha. by rewrite Ha.
Qed.

Lemma rfind_app_sep c s t :
  PyStr.free_of c t = true -> PyStr.rfind c (s +:+ String c t) = Some (String.length s).
Proof.
  intros Ht. induction s as [|a s IH].
  - rewrite app_nil. simpl. by rewrite (rfind_free c t Ht), Ascii.eqb_refl.
  - rewrite app_cons. simpl. by rewrite IH.
Qed.

Lemma substring_all s : substring 0 (String.length s) s = s.
Proof. induction s as [|a s IH]; [done|]. simpl. by rewrite IH. Qed.

Lemma substring_app_r a b :
  substring (String.length a) (String.length b) (a +:+ b) = b.
Proof.
  induction a as [|x a IH]; [rewrite app_nil; apply substring_all|].
  rewrite app_cons. simpl. exact IH.
Qed.

Lemma substring_app_l a b : substring 0 (String.length a) (a +:+ b) = a.
Proof.
  induction a as [|x a IH]; [by destruct b|]. rewrite app_cons. simpl. by rewrite IH.
Qed.

Lemma substring_split s : forall k,
  (k <= String.length s)%nat ->
  s = substring 0 k s +:+ substring k (String.length s - k) s.
Proof.
  induction s as [|a s IH]; intros k Hk.
  - simpl in Hk. assert (k = 0%nat) as -> by lia. done.
  - destruct k as [|k].
    + simpl. rewrite app_nil. by rewrite substring_all.
    + simpl in *. rewrite app_cons. f_equal. apply IH. lia.
Qed.

Lemma length_substring s : forall k n,
  (k + n <= String.length s)%nat -> String.length (substring k n s) = n.
Proof.
  induction s as [|a s IH]; intros k n H.
  - simpl in H. assert (k = 0%nat) as -> by lia. assert (n = 0%nat) as -> by lia. done.
  - destruct k as [|k]; simpl in *.
    + destruct n as [|n]; [done|]. simpl. rewrite IH; [done|lia].
    + apply IH. lia.
Qed.

(** The name of [dir / nm] is [nm]. *)
Lemma name_joinpath dir nm :
  PyStr.free_of "/" nm = true -> Pathlib.name (Pathlib.joinpath dir nm) = nm.
Proof.
  intros Hnm. unfold Pathlib.name, Pathlib.joinpath.
  assert ("/" +:+ nm = String "/" nm) as -> by (by rewrite app_cons, app_nil).
  rewrite rfind_app_sep by done.
  assert (dir +:+ String "/" nm = (dir +:+ "/") +:+ nm) as ->.
  { by rewrite app_assoc_s, app_cons, app_nil. }
  assert (String.length (dir +:+ "/") = S (String.length dir)) as Hlen.
  { rewrite length_app_s. simpl. lia. }
  rewrite length_app_s, Hlen.
  replace (S (String.length dir) + String.length nm - S (String.length dir))%nat
    with (String.length nm) by lia.
  rewrite <- Hlen. apply substring_app_r.
Qed.

(** Stem and suffix of a name [x.e], where [x] is not empty and [e] is
    not empty and has no dot. *)
Lemma stem_suffix_of_name dir x e :
  PyStr.free_of "/" (x +:+ String "." e) = true ->
  PyStr.free_of "." e = true -> x <> EmptyString -> e <> EmptyString ->
  Pathlib.stem (Pathlib.joinpath dir (x +:+ String "." e)) = x
  /\ Pathlib.suffix (Pathlib.joinpath dir (x +:+ String "." e)) = String "." e.
Proof.
  intros Hslash He Hx Hne. unfold Pathlib.stem, Pathlib.suffix.
  rewrite name_joinpath by done. rewrite rfind_app_sep by done.
  rewrite length_app_s. simpl String.length.
  assert (0 < String.length x)%nat as Hlx by (destruct x; [done|simpl; lia]).
  assert (0 < String.length e)%nat as Hle by (destruct e; [done|simpl; lia]).
  destruct (Nat.ltb_spec 0 (String.length x)); [|lia].
  destruct (Nat.ltb_spec (String.length x) (String.length x + S (String.length e) - 1));
    [|lia].
  simpl. split; [apply substring_app_l|].
  replace (String.length x + S (String.length e) - String.length x)%nat
    with (String.length (String "." e)) by (simpl; lia).
  apply substring_app_r.
Qed.




End PathFacts.



(** X14. The reconciler and the live watcher agree on lower-case
    names: every name that the reconciler's pattern [*.wav] selects,
    other than the bare [.wav], is a path that the live watcher accepts
    too, and its transcript is looked for under the name without the
    suffix. (The converse fails: the watcher also accepts [.WAV].) *)
Theorem reconciler_names_are_accepted_by_watcher dir nm :
  PyStr.endswith nm ".wav" = true ->
  PyStr.free_of "/" nm = true ->
  nm <> ".wav"%string ->
  Debounce.is_wav (Pathlib.joinpath dir nm) = true
  /\ Pathlib.stem (Pathlib.joinpath dir nm) +:+ ".wav" = nm.
Proof.
  intros Hend Hslash Hne. unfold PyStr.endswith in Hend. simpl String.length in Hend.
  apply andb_prop in Hend as [Hlen Hsub]. apply Nat.leb_le in Hlen.
  apply String.eqb_eq in Hsub.
  pose proof (substring_split nm (String.length nm - 4) ltac:(lia)) as Hsplit.
  replace (String.length nm - (String.length nm - 4))%nat with 4%nat in Hsplit by lia.
  rewrite Hsub in Hsplit.
  set (x := substring 0 (String.length nm - 4) nm) in *.
  assert (x <> EmptyString) as Hx.
  { intros Hx. rewrite Hx in Hsplit. by rewrite app_nil in Hsplit. }
  assert (nm = x +:+ String "." "wav") as Hnm by exact Hsplit.
  rewrite Hnm in Hslash.
  destruct (stem_suffix_of_name dir x "wav" Hslash eq_refl Hx ltac:(done)) as [Hstem Hsuffix].
  rewrite Hnm. unfold Debounce.is_wav. rewrite Hsuffix, Hstem. done.
Qed.

Lemma reconciler_names_are_accepted_by_watcher_witness :
  Debounce.is_wav "/rec/a.wav" = true /\ Pathlib.stem "/rec/a.wav" +:+ ".wav" = "a.wav"%string.
Proof.
  apply (reconciler_names_are_accepted_by_watcher "/rec" "a.wav");
    [reflexivity|reflexivity|discriminate].
Defined.

(** The two exceptions: a file named [.wav] is enqueued by the
    reconciler and ignored by the live watcher, and a file with the
    suffix in upper case is accepted by the live watcher and never found
    by the reconciler. *)
Example reconciler_and_watcher_disagree :
  PyStr.endswith ".wav" ".wav" = true /\ Debounce.is_wav "/rec/.wav" = false
  /\ PyStr.endswith "A.WAV" ".wav" = false /\ Debounce.is_wav "/rec/A.WAV" = true.
Proof. repeat split; reflexivity. Qed.

(* ===================================================================== *)
(** ** The batch script *)
(* ===================================================================== *)

Section BatchFacts.
Import Watcher Batch.
Variables (env : Env) (host : Host) (fs : gmap string File).


(** The [try] block, case by case. *)
Lemma attempt_cases transcript_path :
  (exists out, attempt env host fs transcript_path = (out, inr true)
               /\ succeeds env host fs transcript_path = true)
  \/ (exists out r, attempt env host fs transcript_path = (out, r)
                    /\ r <> inr true /\ succeeds env host fs transcript_path = false).
Proof.
  unfold succeeds. destruct (attempt env host fs transcript_path) as [out [esc|[|]]].
  - right. by exists out, (inl esc).
  - left. by exists out.
  - right. by exists out, (inr false).
Qed.

Lemma process_transcript_ok transcript_path i total :
  (process_transcript env host fs transcript_path i total).1
  = succeeds env host fs transcript_path.
Proof.
  unfold process_transcript, succeeds.
  by destruct (attempt env host fs transcript_path) as [out [[|e]|[|]]].
Qed.

(** The requests of the [try] block: at most one, as described. *)
Lemma attempt_requests transcript_path out r :
  attempt env host fs transcript_path = (out, r) ->
  (List.filter is_request out = []
   /\ r <> inr true)
  \/ exists f started duration,
       fs !! transcript_path = Some f
       /\ Reprocess.parse_timestamp_from_filename env (Pathlib.name transcript_path)
          = inr started
       /\ estimate_duration (st_size f) = inr duration
       /\ let payload := {| transcript_path := transcript_path;
                            transcript_html := text f;
                            started_at := started;
                            audio_duration_seconds := duration |} in
          List.filter is_request out = [Request WEBHOOK_URL payload 180]
          /\ (r = inr true <-> exists body, post host WEBHOOK_URL payload 180 = Answers 200 body).
Proof.
  unfold attempt. destruct (fs !! transcript_path) as [f|]; [|intros [= <- <-]; by left].
  cbv zeta.
  destruct (Reprocess.parse_timestamp_from_filename _ _) as [e|started];
    [intros [= <- <-]; by left|].
  destruct (estimate_duration (st_size f)) as [e|duration] eqn:Hd;
    [intros [= <- <-]; by left|].
  intros H. right. exists f, started, duration.
  split; [done|]. split; [done|]. split; [done|]. cbv zeta.
  destruct (post host _ _ _) as [|e|status body].
  - injection H as <- <-. split; [done|]. split; [done|]. by intros [body Hb].
  - injection H as <- <-. split; [done|]. split; [done|]. by intros [body Hb].
  - destruct (Z.eqb_spec status 200) as [->|Hne]; injection H as <- <-.
    + split; [done|]. split; [by eexists|done].
    + split; [done|]. split; [done|]. intros [body' [= Hs _]]. done.
Qed.

Lemma filter_request_process transcript_path i total :
  List.filter is_request (process_transcript env host fs transcript_path i total).2
  = List.filter is_request (attempt env host fs transcript_path).1.
Proof.
  unfold process_transcript.
  destruct (attempt env host fs transcript_path) as [out [[|e]|ok]]; simpl;
    rewrite ?List.filter_app; simpl; by rewrite ?app_nil_r.
Qed.

Lemma filter_sleep_process transcript_path i total :
  List.filter is_sleep (process_transcript env host fs transcript_path i total).2 = [].
Proof.
  unfold process_transcript, attempt.
  destruct (fs !! transcript_path) as [f|]; [|done]. cbv zeta.
  destruct (Reprocess.parse_timestamp_from_filename _ _) as [e|started]; [done|].
  destruct (estimate_duration (st_size f)) as [e|duration]; [done|].
  by destruct (post host _ _ _) as [|e|status body]; [| |destruct (status =? 200)].
Qed.

(** The loop: the counters count, and there is a pause after every
    transcript but the last. *)
Lemma loop_spec transcripts : forall i total success failed s f out,
  loop env host fs transcripts i total success failed = (s, f, out) ->
  i + Z.of_nat (length transcripts) = total + 1 ->
  s = success + Z.of_nat (length (List.filter (succeeds env host fs) transcripts))
  /\ s + f = success + failed + Z.of_nat (length transcripts)
  /\ length (List.filter is_sleep out) = (length transcripts - 1)%nat
  /\ (length (List.filter is_request out) <= length transcripts)%nat.
Proof.
  induction transcripts as [|t rest IH]; intros i total success failed s f out Hloop Hi.
  - injection Hloop as <- <- <-. simpl. repeat split; lia.
  - cbn [loop] in Hloop.
    pose proof (process_transcript_ok t i total) as Hok.
    pose proof (filter_request_process t i total) as Hreq.
    pose proof (filter_sleep_process t i total) as Hsl.
    destruct (process_transcript env host fs t i total) as [ok o]. simpl in Hok, Hreq, Hsl.
    destruct (loop env host fs rest (i + 1) total _ _) as [[s' f'] out'] eqn:Hrest.
    injection Hloop as <- <- <-.
    simpl length in Hi.
    destruct (IH _ _ _ _ _ _ _ Hrest ltac:(lia)) as (Hs & Hsum & Hsleep & Hrq).
    assert (length (List.filter is_request o) <= 1)%nat as Hone.
    { rewrite Hreq. destruct (attempt env host fs t) as [out r] eqn:Hat. simpl.
      destruct (attempt_requests t out r Hat) as [[-> _]|(? & ? & ? & _ & _ & _ & H)];
        [simpl; lia|]. cbv zeta in H. destruct H as [-> _]. simpl. lia. }
    cbn [List.filter]. rewrite <- Hok. rewrite !List.filter_app, !length_app, Hsl.
    split; [|split; [|split]].
    + destruct ok; simpl length; lia.
    + destruct ok; simpl length; lia.
    + destruct (Z.ltb_spec i total); destruct rest; simpl length in *; lia.
    + assert (length (List.filter is_request (if i <? total then [Sleep 2] else [])) = 0%nat)
        as -> by (by destruct (i <? total)).
      simpl length. lia.
Qed.

End BatchFacts.


(** The endpoint answers 201: the watcher counts the delivery as sent,
    the batch script counts the transcript as failed. *)
Example created_is_sent_for_the_watcher_and_failed_for_the_script :
  (Batch.process_transcript (Scenario.env "1" (Some 0) (Watcher.Response 201))
     (Batch.answering (Batch.Answers 201 "created"))
     (<[Scenario.transcript := Scenario.html]> ∅) Scenario.transcript 1 1).1 = false
  /\ (Watcher._send_webhook (Scenario.env "1" (Some 0) (Watcher.Response 201))
        (Scenario.config true Scenario.endpoint)
        Scenario.audio Scenario.transcript Scenario.delivered_world).1
     = Watcher.Return (Watcher.Sent 201).
Proof. vm_compute. split; reflexivity. Qed.

(** X17. The exit status of the batch script is 0 if every transcript
    was processed with success and 1 otherwise; the two counters it
    reports add up to the number of transcripts. The script pauses after
    every transcript but the last, and makes at most one request per
    transcript; with no transcript at all it makes no request, does not
    pause, and exits with 0. *)
Theorem batch_exit_status_reports_failures env host fs :
  let transcripts :=
    map (Pathlib.joinpath (Batch.TRANSCRIPTS_DIR host))
      (Batch.sorted (Batch.glob_html env host)) in
  let total := Z.of_nat (length transcripts) in
  let run := Batch.main env host fs in
  exists success failed out,
    Batch.loop env host fs transcripts 1 total 0 0 = (success, failed, out)
    /\ success = Z.of_nat (length (List.filter (Batch.succeeds env host fs) transcripts))
    /\ success + failed = total
    /\ run.1 = (if failed =? 0 then 0 else 1)
    /\ (run.1 = 0 <-> Forall (fun t => Batch.succeeds env host fs t = true) transcripts)
    /\ length (List.filter Batch.is_sleep run.2) = (length transcripts - 1)%nat
    /\ (length (List.filter Batch.is_request run.2) <= length transcripts)%nat.
Proof.
  intros transcripts total run. subst run. unfold Batch.main. fold transcripts. fold total.
  destruct (Batch.loop env host fs transcripts 1 total 0 0) as [[success failed] out] eqn:Hloop.
  destruct (loop_spec env host fs transcripts 1 total 0 0 success failed out Hloop
              ltac:(unfold total; lia)) as (Hs & Hsum & Hsleep & Hreq).
  exists success, failed, out. cbn [fst snd].
  split; [done|]. split; [lia|]. split; [unfold total; lia|]. split; [done|].
  split; [|split].
  - assert (failed = 0 <-> Forall (fun t => Batch.succeeds env host fs t = true) transcripts)
      as Hiff.
    { assert (failed = Z.of_nat (length transcripts)
                       - Z.of_nat (length (List.filter (Batch.succeeds env host fs)
                                             transcripts))) as -> by lia.
      clear. induction transcripts as [|t l IH]; [simpl; split; [constructor|lia]|].
      cbn [List.filter]. pose proof (List.filter_length_le (Batch.succeeds env host fs) l).
      destruct (Batch.succeeds env host fs t) eqn:Ht; simpl length.
      - rewrite Forall_cons. split; [intros; split; [done|apply IH; lia]|].
        intros [_ H']. apply IH in H'. lia.
      - rewrite Forall_cons. split; [lia|]. intros [H' _]. congruence. }
    rewrite <- Hiff. destruct (Z.eqb_spec failed 0); split; (lia || done).
  - rewrite !List.filter_app, !length_app. simpl. lia.
  - rewrite !List.filter_app, !length_app. simpl. lia.
Qed.

(* ===================================================================== *)
(** ** Exact float arithmetic in the duration estimate *)
(* ===================================================================== *)

Section ExactFacts.

Lemma Zdigits2_unique m k :
  0 < k -> 2 ^ (k - 1) <= m < 2 ^ k -> Zdigits2 m = k.
Proof.
  intros Hk [Hlo Hhi].
  assert (0 < m) as Hm by (pose proof (Z.pow_pos_nonneg 2 (k - 1)); lia).
  destruct m as [|p|p]; try lia.
  pose proof (Zdigits2_bounds p) as [Hlo' Hhi'].
  pose proof (Zdigits2_nonneg (Z.pos p)) as Hd.
  destruct (Z.lt_trichotomy (Zdigits2 (Z.pos p)) k) as [Hlt|[Heq|Hgt]]; [|done|].
  - assert (2 ^ Zdigits2 (Z.pos p) <= 2 ^ (k - 1)) by (apply Z.pow_le_mono_r; lia). lia.
  - assert (2 ^ k <= 2 ^ (Zdigits2 (Z.pos p) - 1)) by (apply Z.pow_le_mono_r; lia). lia.
Qed.

Lemma Zdigits2_mul_pow2 c n :
  0 < c -> 0 <= n -> Zdigits2 (c * 2 ^ n) = Zdigits2 c + n.
Proof.
  intros Hc Hn. destruct c as [|p|p]; try lia.
  pose proof (Zdigits2_bounds p) as [Hlo Hhi].
  assert (0 < Zdigits2 (Z.pos p)) as Hd by (simpl; lia).
  assert (0 < 2 ^ n) by (apply Z.pow_pos_nonneg; lia).
  apply Zdigits2_unique; [lia|].
  replace (Zdigits2 (Z.pos p) + n - 1) with (Zdigits2 (Z.pos p) - 1 + n) by lia.
  rewrite !Z.pow_add_r by lia. nia.
Qed.

Lemma shr_1_double c :
  0 <= c ->
  shr_1 {| shr_m := 2 * c; shr_r := false; shr_s := false |}
  = {| shr_m := c; shr_r := false; shr_s := false |}.
Proof. intros Hc. destruct c as [|p|p]; try lia; reflexivity. Qed.

Lemma iter_shr_1_exact n : forall c,
  0 <= c ->
  SpecFloat.iter_pos shr_1 n {| shr_m := c * 2 ^ Zpos n; shr_r := false; shr_s := false |}
  = {| shr_m := c; shr_r := false; shr_s := false |}.
Proof.
  induction n as [n IH|n IH|]; intros c Hc; cbn [SpecFloat.iter_pos].
  - assert (0 < 2 ^ Z.pos n) by (apply Z.pow_pos_nonneg; lia).
    replace (c * 2 ^ Z.pos n~1) with (2 * ((c * 2 ^ Z.pos n) * 2 ^ Z.pos n)).
    2:{ assert (Z.pos n~1 = Z.pos n + Z.pos n + 1) as -> by lia.
        rewrite !Z.pow_add_r, Z.pow_1_r by lia. lia. }
    rewrite shr_1_double by nia. rewrite IH by nia. by rewrite IH.
  - assert (0 < 2 ^ Z.pos n) by (apply Z.pow_pos_nonneg; lia).
    replace (c * 2 ^ Z.pos n~0) with ((c * 2 ^ Z.pos n) * 2 ^ Z.pos n).
    2:{ assert (Z.pos n~0 = Z.pos n + Z.pos n) as -> by lia.
        rewrite !Z.pow_add_r by lia. lia. }
    rewrite IH by nia. by rewrite IH.
  - rewrite Z.pow_1_r, Z.mul_comm. by apply shr_1_double.
Qed.

(** Rounding is exact on a mantissa that fits: [c * 2^n * 2^e], where
    [c] has at most 53 bits (exactly 53 if [n > 0]), is represented as
    [c * 2^(e + n)]. *)
Lemma binary_round_aux_exact s c n e :
  0 < c -> 0 <= n -> Zdigits2 c <= 53 -> (0 < n -> Zdigits2 c = 53) ->
  -1074 <= Zdigits2 c + n + e - 53 -> e + n <= 971 ->
  binary_round_aux 53 1024 s (c * 2 ^ n) e loc_Exact = S754_finite s (Z.to_pos c) (e + n).
Proof.
  intros Hc Hn Hd Hfull Hlo Hhi. unfold binary_round_aux.
  assert (shr_fexp 53 1024 (c * 2 ^ n) e loc_Exact
          = ({| shr_m := c; shr_r := false; shr_s := false |}, e + n)) as ->.
  { unfold shr_fexp. rewrite Zdigits2_mul_pow2 by lia.
    assert (fexp 53 1024 (Zdigits2 c + n + e) = Zdigits2 c + n + e - 53) as ->.
    { unfold fexp, emin. lia. }
    destruct (Z.eq_dec n 0) as [->|Hnz].
    - rewrite Z.pow_0_r, Z.mul_1_r, !Z.add_0_r. unfold shr.
      replace (Zdigits2 c + e - 53 - e) with (Zdigits2 c - 53) by lia.
      destruct (Zdigits2 c - 53) as [|p|p] eqn:E; try reflexivity. lia.
    - rewrite Hfull by lia. replace (53 + n + e - 53 - e) with n by lia.
      unfold shr. destruct n as [|p|p]; try lia.
      simpl shr_record_of_loc. by rewrite iter_shr_1_exact by lia. }
  simpl loc_of_shr_record. simpl round_nearest_even. cbn [shr_m].
  assert (shr_fexp 53 1024 c (e + n) loc_Exact
          = ({| shr_m := c; shr_r := false; shr_s := false |}, e + n)) as ->.
  { unfold shr_fexp.
    assert (fexp 53 1024 (Zdigits2 c + (e + n)) - (e + n) <= 0) as Hle.
    { unfold fexp, emin. lia. }
    unfold shr. destruct (fexp 53 1024 (Zdigits2 c + (e + n)) - (e + n)) as [|p|p];
      try reflexivity. lia. }
  cbn [shr_m]. destruct c as [|p|p]; try lia.
  destruct (Z.leb_spec (e + n) (1024 - 53)); [reflexivity|lia].
Qed.

End ExactFacts.

Section EstimateFacts.
Import Batch.

(** [size / 1024] is exact. *)
Lemma int_truediv_1024_exact size :
  0 < size < 2 ^ 53 ->
  PyFloat.int_truediv size 1024
  = Some (S754_finite false (Z.to_pos (size * 2 ^ (53 - Zdigits2 size)))
            (Zdigits2 size - 63)).
Proof.
  intros Hsize. destruct size as [|p|p]; try lia.
  set (d := Zdigits2 (Z.pos p)).
  assert (1 <= d <= 53) as Hd.
  { unfold d. split; [simpl; lia|apply Zdigits2_le; lia]. }
  unfold PyFloat.int_truediv. cbn [PyFloat.raw_of_int]. unfold SFdiv.
  assert (SFdiv_core_binary PyFloat.prec PyFloat.emax (Z.pos p) 0 1024 0
          = (Z.pos p * 2 ^ (53 - d) * 2 ^ 1, d - 64, loc_Exact)) as ->.
  { unfold SFdiv_core_binary. fold d.
    change (Zdigits2 1024) with 11.
    assert (Z.min (fexp PyFloat.prec PyFloat.emax (d + 0 - (11 + 0))) (0 - 0) = d - 64) as ->.
    { unfold fexp, emin, PyFloat.prec, PyFloat.emax. lia. }
    replace (0 - 0 - (d - 64)) with (64 - d) by lia.
    destruct (64 - d) as [|k|k] eqn:Ek; try lia.
    rewrite Z.shiftl_mul_pow2 by lia. rewrite <- Ek.
    assert (Z.pos p * 2 ^ (64 - d) = (Z.pos p * 2 ^ (53 - d) * 2 ^ 1) * 1024) as ->.
    { replace (64 - d) with ((53 - d) + 1 + 10) by lia.
      rewrite !Z.pow_add_r by lia. change (2 ^ 10) with 1024. lia. }
    assert (0 < 2 ^ (53 - d)) by (apply Z.pow_pos_nonneg; lia).
    pose proof (Z.div_eucl_eq (Z.pos p * 2 ^ (53 - d) * 2 ^ 1 * 1024) 1024 ltac:(lia)) as Heq.
    pose proof (Z.mod_pos_bound (Z.pos p * 2 ^ (53 - d) * 2 ^ 1 * 1024) 1024 ltac:(lia)) as Hm.
    unfold Z.modulo in Hm.
    destruct (Z.div_eucl (Z.pos p * 2 ^ (53 - d) * 2 ^ 1 * 1024) 1024) as [q r].
    assert (r = 0) as -> by lia. assert (q = Z.pos p * 2 ^ (53 - d) * 2 ^ 1) as -> by lia.
    reflexivity. }
  assert (0 < 2 ^ (53 - d)) by (apply Z.pow_pos_nonneg; lia).
  unfold PyFloat.prec, PyFloat.emax.
  rewrite binary_round_aux_exact; try lia.
  - by replace (d - 64 + 1) with (d - 63) by lia.
  - rewrite Zdigits2_mul_pow2 by lia. fold d. lia.
  - intros _. rewrite Zdigits2_mul_pow2 by lia. fold d. lia.
  - rewrite Zdigits2_mul_pow2 by lia. fold d. lia.
Qed.

(** The estimate is computed without rounding error: for every size
    below [2^49] bytes it is [max(60, floor(30 * size / 1024))]. *)
Lemma estimate_duration_eq size :
  0 <= size < 2 ^ 49 ->
  estimate_duration size = inr (Z.max 60 (size * 30 / 1024)).
Proof.
  intros Hsize. destruct (Z.eq_dec size 0) as [->|Hnz]; [reflexivity|].
  unfold estimate_duration.
  rewrite int_truediv_1024_exact by lia.
  set (d := Zdigits2 size).
  assert (1 <= d <= 49) as Hd.
  { unfold d. split; [destruct size; simpl; lia|apply Zdigits2_le; lia]. }
  assert (0 < 2 ^ (53 - d)) by (apply Z.pow_pos_nonneg; lia).
  unfold mul_int.
  assert (PyFloat.of_int 30 = Some (S754_finite false (Z.to_pos (15 * 2 ^ 49)) (-48))) as ->
    by reflexivity.
  cbn [mbind option_bind]. unfold SFmul. cbn [xorb].
  set (P := size * 15).
  set (dP := Zdigits2 P).
  assert (d <= dP <= 53) as HdP.
  { unfold dP, P. split.
    - pose proof (Zdigits2_upper (size * 15) ltac:(lia)).
      pose proof (Zdigits2_nonneg (size * 15)).
      destruct (Z.le_gt_cases d (Zdigits2 (size * 15))) as [|Hgt]; [done|].
      assert (2 ^ (d - 1) <= size).
      { unfold d. destruct size as [|p|p]; try lia. apply Zdigits2_bounds. }
      assert (2 ^ Zdigits2 (size * 15) <= 2 ^ (d - 1)) by (apply Z.pow_le_mono_r; lia).
      lia.
    - apply Zdigits2_le; [lia|lia|]. change (2 ^ 53) with (2 ^ 49 * 16). lia. }
  assert (0 < 2 ^ (53 - dP)) by (apply Z.pow_pos_nonneg; lia).
  assert (Z.pos (Z.to_pos (size * 2 ^ (53 - d)) * Z.to_pos (15 * 2 ^ 49))
          = (P * 2 ^ (53 - dP)) * 2 ^ (49 - d + dP)) as ->.
  { rewrite Pos2Z.inj_mul, !Z2Pos.id by lia. unfold P.
    replace (2 ^ (53 - d)) with (2 ^ (53 - d) * 1) by lia.
    assert (2 ^ (53 - d) * 2 ^ 49 = 2 ^ (53 - dP) * 2 ^ (49 - d + dP)) as Hpow.
    { rewrite <- !Z.pow_add_r by lia. f_equal. lia. }
    nia. }
  unfold PyFloat.prec, PyFloat.emax.
  rewrite binary_round_aux_exact; try (unfold P; nia).
  2:{ rewrite Zdigits2_mul_pow2 by (unfold P; lia). fold dP. lia. }
  2:{ intros _. rewrite Zdigits2_mul_pow2 by (unfold P; lia). fold dP. lia. }
  2:{ rewrite Zdigits2_mul_pow2 by (unfold P; lia). fold dP. lia. }
  unfold int_of_float.
  replace (d - 63 + -48 + (49 - d + dP)) with (dP - 62) by lia.
  destruct (dP - 62) as [|k|k] eqn:Ek; try lia.
  rewrite Z2Pos.id by (unfold P; nia).
  rewrite Z.shiftr_div_pow2 by lia.
  assert (Z.pos k = (53 - dP) + 9) as -> by lia.
  rewrite Z.pow_add_r by lia. rewrite (Z.mul_comm (2 ^ (53 - dP)) (2 ^ 9)).
  rewrite Z.div_mul_cancel_r by lia.
  change (2 ^ 9) with 512. unfold P.
  do 2 f_equal.
  replace (size * 30) with (size * 15 * 2) by lia. change 1024 with (512 * 2).
  by rewrite Z.div_mul_cancel_r by lia.
Qed.

End EstimateFacts.

(** X18. The duration estimate of the batch script is computed
    without rounding error: for a transcript of [size] bytes, up to
    [2^49], it is exactly [max(60, floor(30 * size / 1024))] seconds, so
    that it is 60 for every file of at most 2082 bytes, never less, and
    never decreases when the size grows. *)
Theorem batch_duration_estimate_is_exact size :
  0 <= size < 2 ^ 49 ->
  Batch.estimate_duration size = inr (Z.max 60 (size * 30 / 1024))
  /\ (size <= 2082 -> Batch.estimate_duration size = inr 60)
  /\ forall size',
       size <= size' < 2 ^ 49 ->
       exists n n',
         Batch.estimate_duration size = inr n
         /\ Batch.estimate_duration size' = inr n'
         /\ 60 <= n <= n'.
Proof.
  intros Hsize. split; [by apply estimate_duration_eq|]. split.
  - intros Hsmall. rewrite estimate_duration_eq by done. f_equal.
    assert (size * 30 / 1024 <= 60); [|lia].
    apply Z.lt_succ_r, Z.div_lt_upper_bound; lia.
  - intros size' Hle. rewrite !estimate_duration_eq by lia.
    eexists _, _. split; [done|]. split; [done|].
    assert (size * 30 / 1024 <= size' * 30 / 1024) by (apply Z.div_le_mono; lia). lia.
Qed.

Lemma batch_duration_estimate_is_exact_witness :
  Batch.estimate_duration 123457 = inr 3616.
Proof.
  refine (eq_trans (proj1 (batch_duration_estimate_is_exact 123457 _)) _).
  - lia.
  - reflexivity.
Defined.

(* ===================================================================== *)
(** ** The recorder *)
(* ===================================================================== *)

Section RecorderFacts.
Import Capture.

Lemma capture_idle chunks r : recording r = false -> capture chunks r = r.
Proof.
  intros Hr. unfold capture. induction chunks as [|c l IH]; [done|]. simpl.
  unfold _audio_callback at 2. by rewrite Hr.
Qed.

Lemma capture_recording chunks : forall r,
  recording r = true ->
  capture chunks r = update r true (audio_data r ++ chunks) (stream r) (output_file r).
Proof.
  unfold capture. induction chunks as [|c l IH]; intros r Hr.
  - simpl. rewrite app_nil_r. destruct r. simpl in Hr. by subst.
  - simpl. unfold _audio_callback at 2. rewrite Hr. rewrite IH by done.
    unfold update. simpl. by rewrite <- app_assoc.
Qed.

End RecorderFacts.

(** X19. What the recorder saves is what it captured between start and
    stop. Chunks that arrive while no recording is going on are dropped;
    a start resets the buffer, so nothing of an earlier session is left;
    a second start during a recording is refused and changes nothing;
    and stop writes the chunks captured since the start, in the order of
    their arrival, with the configured sample rate, to the file given to
    the first start. If no chunk was captured, stop writes nothing and
    returns [None]. After stop the recorder is idle again. *)
Theorem recorder_saves_what_it_captured write_error r file other before first second disk :
  Capture.recording r = false ->
  write_error file = None ->
  let r1 := (Capture.start Capture.Starts file (Capture.capture before r)).2 in
  let r2 := Capture.capture first r1 in
  let refused := Capture.start Capture.Starts other r2 in
  let r3 := Capture.capture second refused.2 in
  let stopped := Capture.stop write_error r3 disk in
  refused = (inr false, r2)
  /\ stopped.1.1 = inr (if decide (first ++ second = []) then None else Some file)
  /\ stopped.2
     = (if decide (first ++ second = []) then disk
        else <[file := (concat (first ++ second), Capture.sample_rate r)]> disk)
  /\ Capture.recording stopped.1.2 = false
  /\ Capture.stream stopped.1.2 = None
  /\ forall late, Capture.capture late stopped.1.2 = stopped.1.2.
Proof.
  intros Hidle Hwrite r1 r2 refused r3 stopped.
  assert (r1 = Capture.update r true [] (Some Capture.Active) (Some file)) as Hr1.
  { unfold r1. rewrite capture_idle by done. unfold Capture.start. by rewrite Hidle. }
  assert (r2 = Capture.update r true first (Some Capture.Active) (Some file)) as Hr2.
  { unfold r2. rewrite Hr1. by rewrite capture_recording. }
  assert (refused = (inr false, r2)) as Href.
  { unfold refused. by rewrite Hr2. }
  assert (r3 = Capture.update r true (first ++ second) (Some Capture.Active) (Some file))
    as Hr3.
  { unfold r3. rewrite Href. cbn [snd]. rewrite Hr2. by rewrite capture_recording. }
  split; [done|].
  unfold stopped. rewrite Hr3. unfold Capture.stop. cbn.
  destruct (first ++ second) as [|c l] eqn:E.
  - rewrite decide_True by done. repeat split. intros late. by apply capture_idle.
  - rewrite decide_False by done. rewrite Hwrite. cbn. repeat split.
    intros late. by apply capture_idle.
Qed.

Lemma recorder_saves_what_it_captured_witness :
  let r1 := (Capture.start Capture.Starts Scenario.audio Capture.init).2 in
  let r2 := Capture.capture [[[1]; [2]]; [[3]]] r1 in
  (Capture.stop (fun _ => None) r2 ∅).2
  = <[Scenario.audio := ([[1]; [2]; [3]], 16000)]> ∅.
Proof.
  intros r1 r2.
  pose proof (recorder_saves_what_it_captured (fun _ => None) Capture.init Scenario.audio
                "" [] [[[1]; [2]]; [[3]]] [] ∅ eq_refl eq_refl) as (_ & _ & H & _).
  exact H.
Defined.

(** When the device fails, [start] raises and the recorder is idle, so
    that the next start is not refused. *)
Example failed_start_leaves_the_recorder_idle :
  let failed := Capture.start (Capture.StartFails "Invalid device") Scenario.audio
                  Capture.init in
  failed.1 = inl "Failed to start recording: Invalid device"%string
  /\ Capture.recording failed.2 = false
  /\ (Capture.start Capture.Starts Scenario.audio failed.2).1 = inr true.
Proof. repeat split. Qed.

(* ===================================================================== *)
(** ** The import script for markdown transcripts *)
(* ===================================================================== *)

Section MarkdownFacts.
Import Watcher Markdown.










End MarkdownFacts.


(** Hours are read as minutes, and more than two digits of minutes are
    not read at all. *)
Example hours_are_read_as_minutes :
  Markdown.estimate_duration "Recording ends at 1:42:15" = 102
  /\ Markdown.estimate_duration "Recording ends at 102:15" = 60.
Proof. split; reflexivity. Qed.

Section FilenameFacts.
Import Watcher Markdown.





End FilenameFacts.



(* ===================================================================== *)
(** ** Paths are debounced independently *)
(* ===================================================================== *)

(** X22. Paths are debounced independently of each other: the number
    of jobs for a [.wav] path depends only on the times of the
    notifications for that path (and on the state of its file when its
    timers fire), not on what is notified about other paths in between. *)
Theorem other_paths_do_not_interfere fs D p sched sched' horizon lo lo' :
  Debounce.is_wav p = true ->
  Debounce.chronological lo sched horizon ->
  Debounce.chronological lo' sched' horizon ->
  Debounce.times_for p sched = Debounce.times_for p sched' ->
  Debounce.jobs_for p (Debounce.observe fs D sched horizon)
  = Debounce.jobs_for p (Debounce.observe fs D sched' horizon).
Proof.
  intros Hwav Hch Hch' Hts. unfold Debounce.observe.
  assert (Debounce.St p D (Debounce.init D) None 0) as Hst.
  { split; [apply WF_init|]. repeat split.
    intros i tm H. simpl in H. rewrite ?lookup_nil in H. done. }
  rewrite (run_jobs fs p D Hwav sched (Debounce.init D) None 0%nat lo horizon Hst Hch).
  rewrite (run_jobs fs p D Hwav sched' (Debounce.init D) None 0%nat lo' horizon Hst Hch').
  by rewrite Hts.
Qed.

Lemma other_paths_do_not_interfere_witness :
  Debounce.jobs_for "/rec/a.wav"
    (Debounce.observe Scenario.present 2 Scenario.burst_schedule 14)
  = Debounce.jobs_for "/rec/a.wav"
      (Debounce.observe Scenario.present 2
         [(10, created_wav "/rec/a.wav"); (11, created_wav "/rec/a.wav");
          (12, created_wav "/rec/a.wav"); (13, created_wav "/rec/c.wav")] 14).
Proof.
  apply (other_paths_do_not_interfere Scenario.present 2 "/rec/a.wav"
           Scenario.burst_schedule
           [(10, created_wav "/rec/a.wav"); (11, created_wav "/rec/a.wav");
            (12, created_wav "/rec/a.wav"); (13, created_wav "/rec/c.wav")] 14 10 10).
  - reflexivity.
  - simpl. lia.
  - simpl. lia.
  - reflexivity.
Defined.

(* ===================================================================== *)
(** ** The requests of a job *)
(* ===================================================================== *)

Section JobRequests.
Import Watcher Service.

Lemma cleanup_no_post env audio processed :
  emits no_post (cleanup env audio processed).
Proof. by apply emits_cleanup. Qed.

Lemma new_actions_eq w w' t : trace w' = trace w ++ t -> new_actions w w' = t.
Proof. intros H. unfold new_actions. by rewrite H, drop_app_length. Qed.

(** A job up to its delivery step: either it ends before, having made
    no request, or it reaches [_send_webhook] in a world [w5], after
    actions that are not requests. *)
Lemma _transcribe_file_delivery env config audio w r w' :
  _transcribe_file env config audio w = (r, w') ->
  (Forall no_post (new_actions w w') /\ forall d, r <> Return (Transcribed (Some d)))
  \/ exists w5 t d,
       webhook_enabled config = true
       /\ trace w5 = trace w ++ t /\ Forall no_post t
       /\ _send_webhook env config audio (transcript_path_of config audio) w5 = (Return d, w')
       /\ r = Return (Transcribed (Some d)).
Proof.
  intros Hrun.
  destruct (_premix_audio env audio
              (snoc_log w INFO ("Starting transcription: " +:+ Pathlib.name audio)))
    as [[processed|e0] w1] eqn:Hpremix.
  2:{ left. rewrite (_transcribe_file_premix_raises env config audio w e0 w1 Hpremix) in Hrun.
      injection Hrun as <- <-. split; [|done].
      destruct (_premix_audio_quiet env audio _ _ _ Hpremix) as (t & Ht & Hq).
      rewrite (new_actions_eq w w1
                 (Log INFO ("Starting transcription: " +:+ Pathlib.name audio) :: t)).
      - constructor; [done|]. eapply Forall_impl; [exact Hq|]. by intros [].
      - rewrite Ht. unfold snoc_log. cbn [trace]. by rewrite <- app_assoc. }
  destruct (_premix_audio_quiet env audio _ _ _ Hpremix) as (t1 & Ht1 & Hq1).
  assert (Forall no_post t1) as Hn1 by (eapply Forall_impl; [exact Hq1|]; by intros []).
  rewrite (_transcribe_file_eq env config audio w processed w1 Hpremix) in Hrun.
  set (cmd := noscribe_cmd env config processed (transcript_path_of config audio)) in *.
  set (w2 := snoc_log w1 DEBUG ("Command: " +:+ PyStr.join " " cmd)) in *.
  set (pre := Log INFO ("Starting transcription: " +:+ Pathlib.name audio) :: t1
              ++ [Log DEBUG ("Command: " +:+ PyStr.join " " cmd); Subprocess cmd]).
  assert (Forall no_post pre) as Hnpre.
  { constructor; [done|]. apply Forall_app. split; [done|]. by repeat constructor. }
  assert (forall rest, (trace w2 ++ [Subprocess cmd]) ++ rest = trace w ++ pre ++ rest)
    as Hpre.
  { intros rest. unfold w2, snoc_log, pre. cbn [trace]. rewrite Ht1. unfold snoc_log.
    cbn [trace]. cbn [app]. rewrite <- !app_assoc. reflexivity. }
  assert (forall fs res,
            Forall no_post
              (new_actions w {| files := fs;
                                trace := (trace w2 ++ [Subprocess cmd])
                                         ++ failure_records res |})) as Hfail.
  { intros fs res. rewrite (new_actions_eq _ _ (pre ++ failure_records res)).
    - apply Forall_app. split; [done|]. destruct res; by repeat constructor.
    - apply Hpre. }
  destruct (run_process env cmd (files w2)) as [e|rc out err after] eqn:Hengine.
  { left. injection Hrun as <- <-. split; [|done]. apply (Hfail _ (RunRaises e)). }
  destruct (negb (rc =? 0)).
  { left. injection Hrun as <- <-. split; [|done].
    apply (Hfail _ (RunCompleted rc out err after)). }
  rewrite bind_eq, log_eq in Hrun. cbv beta iota in Hrun. rewrite bind_eq in Hrun.
  match type of Hrun with
  | context [cleanup env audio processed ?w4] =>
      destruct (cleanup_returns env audio processed w4) as (w5 & Hclean);
      destruct (cleanup_no_post env audio processed _ _ _ Hclean) as (t3 & Ht3 & Hn3)
  end.
  rewrite Hclean in Hrun.
  unfold snoc_log in Ht3. cbn [trace] in Ht3. rewrite Hpre, <- !app_assoc in Ht3.
  unfold deliver in Hrun. destruct (webhook_enabled config) eqn:Hon.
  - rewrite bind_eq in Hrun.
    destruct (_send_webhook_returns env config audio (transcript_path_of config audio) w5)
      as (d & w6 & Hd).
    rewrite Hd in Hrun. injection Hrun as <- <-.
    right. exists w5, (pre ++ ([Log INFO ("Transcription complete: "
                         +:+ Pathlib.name (transcript_path_of config audio)
                         +:+ " (" +:+ elapsed env +:+ "s)")] ++ t3)), d.
    split; [done|]. split; [|split; [|done]].
    + exact Ht3.
    + apply Forall_app. split; [done|]. constructor; done.
  - left. injection Hrun as <- <-. split; [|done].
    rewrite (new_actions_eq _ _ _ Ht3).
    apply Forall_app. split; [done|]. constructor; done.
Qed.

End JobRequests.

(** X23. A job makes at most one request to the webhook, whatever
    happens to it, and none at all when the webhook is disabled or when
    the job does not get as far as the delivery (the premix raises, or
    the transcription fails). *)
Theorem job_makes_at_most_one_request env config audio w r w' :
  Watcher._transcribe_file env config audio w = (r, w') ->
  (length (Watcher.posts (Watcher.new_actions w w')) <= 1)%nat
  /\ (Watcher.webhook_enabled config = false -> Watcher.posts (Watcher.new_actions w w') = [])
  /\ ((forall d, r <> Watcher.Return (Watcher.Transcribed d)) ->
      Watcher.posts (Watcher.new_actions w w') = []).
Proof.
  intros Hrun.
  destruct (_transcribe_file_delivery env config audio w r w' Hrun)
    as [[Hnone _]|(w5 & t & d & Hon & Ht & Hnt & Hsend & ->)].
  - rewrite (posts_no_post _ Hnone). repeat split; simpl; lia.
  - assert (exists t5, Watcher.trace w' = Watcher.trace w5 ++ t5
                       /\ (length (Watcher.posts t5) <= 1)%nat) as (t5 & Ht5 & Hone).
    { destruct (emits_send_webhook (fun _ => True) env config audio
                  (Watcher.transcript_path_of config audio) ltac:(done) ltac:(done)
                  _ _ _ Hsend) as (t5 & Ht5 & _).
      exists t5. split; [done|].
      assert (Watcher.new_actions w5 w' = t5) as Hnew
        by (unfold Watcher.new_actions; by rewrite Ht5, drop_app_length).
      destruct (_send_webhook_actions _ _ _ _ _ _ _ Hsend)
        as [[Hno _]|(tf & af & st & rd & ta & tb & _ & _ & _ & _ & Hacts & Hna & Hnb & _)].
      - rewrite Hnew in Hno. rewrite (posts_no_post _ Hno). simpl. lia.
      - rewrite Hnew in Hacts. rewrite Hacts. unfold Watcher.posts.
        rewrite !List.filter_app. fold (Watcher.posts ta). fold (Watcher.posts tb).
        rewrite (posts_no_post _ Hna), (posts_no_post _ Hnb). simpl. lia. }
    assert (Watcher.new_actions w w' = t ++ t5) as ->.
    { unfold Watcher.new_actions. by rewrite Ht5, Ht, <- app_assoc, drop_app_length. }
    unfold Watcher.posts. rewrite List.filter_app.
    fold (Watcher.posts t). fold (Watcher.posts t5). rewrite (posts_no_post _ Hnt).
    split; [done|]. split; [congruence|]. intros Hno. by destruct (Hno (Some d)).
Qed.

Lemma job_makes_at_most_one_request_witness :
  let run := Watcher._transcribe_file (Scenario.env "1" (Some 0) (Watcher.Response 200))
               (Scenario.config true Scenario.endpoint) Scenario.audio
               (Scenario.world (Scenario.recording 96044 48000)) in
  (length (Watcher.posts (Watcher.new_actions
                            (Scenario.world (Scenario.recording 96044 48000)) run.2)) <= 1)%nat.
Proof.
  intros run.
  destruct (job_makes_at_most_one_request
              (Scenario.env "1" (Some 0) (Watcher.Response 200))
              (Scenario.config true Scenario.endpoint) Scenario.audio
              (Scenario.world (Scenario.recording 96044 48000)) run.1 run.2)
    as (H & _); [apply surjective_pairing|exact H].
Defined.

(** X24. A job that ends with its transcript sent has made exactly one
    request: to the configured URL, for the transcript path derived from
    the recording's name, carrying the text that this file holds when the
    job returns, and answered with the status the job reports, which is
    not from 400 to 599. The recording is still there. *)
Theorem sent_job_posted_the_transcript_on_disk env config audio w status w' :
  Watcher._transcribe_file env config audio w
  = (Watcher.Return (Watcher.Transcribed (Some (Watcher.Sent status))), w') ->
  exists payload tf,
    Watcher.posts (Watcher.new_actions w w')
    = [Watcher.Post (Watcher.webhook_url config) payload (Watcher.webhook_timeout config)]
    /\ Watcher.transcript_path payload = Watcher.transcript_path_of config audio
    /\ Watcher.files w' !! Watcher.transcript_path_of config audio = Some tf
    /\ Watcher.transcript_html payload = Watcher.text tf
    /\ Watcher.requests_post env (Watcher.webhook_url config) payload
         (Watcher.webhook_timeout config) = Watcher.Response status
    /\ ~ (400 <= status < 600)
    /\ Watcher.webhook_enabled config = true
    /\ is_Some (Watcher.files w' !! audio).
Proof.
  intros Hrun.
  destruct (_transcribe_file_delivery env config audio w _ w' Hrun)
    as [[_ Hno]|(w5 & t & d & Hon & Ht & Hnt & Hsend & Hd)]; [by destruct (Hno (Watcher.Sent status))|].
  injection Hd as <-.
  pose proof (_send_webhook_keeps_files _ _ _ _ _ _ _ Hsend) as Hfiles.
  destruct (_send_webhook_actions _ _ _ _ _ _ _ Hsend)
    as [[_ Hno]|(tf & af & started & rounded & ta & tb & Hurl & Htf & Haf & _ & H)];
    [by destruct (Hno status)|].
  cbv zeta in H. destruct H as (Hnew & Hna & Hnb & Hout).
  exists {| Watcher.transcript_path := Watcher.transcript_path_of config audio;
            Watcher.transcript_html := Watcher.text tf;
            Watcher.started_at := started;
            Watcher.audio_duration_seconds := rounded |}, tf.
  split; [|split; [reflexivity|]].
  - assert (Watcher.new_actions w w' = t ++ Watcher.new_actions w5 w') as ->.
    { unfold Watcher.new_actions at 1.
      destruct (emits_send_webhook (fun _ => True) env config audio
                  (Watcher.transcript_path_of config audio) ltac:(done) ltac:(done)
                  _ _ _ Hsend) as (t5 & Ht5 & _).
      rewrite (new_actions_eq _ _ _ Ht5).
      by rewrite Ht5, Ht, <- app_assoc, drop_app_length. }
    rewrite Hnew. unfold Watcher.posts. rewrite !List.filter_app.
    fold (Watcher.posts t). fold (Watcher.posts ta). fold (Watcher.posts tb).
    rewrite (posts_no_post _ Hnt), (posts_no_post _ Hna), (posts_no_post _ Hnb).
    reflexivity.
  - rewrite Hfiles. split; [exact Htf|]. split; [reflexivity|].
    injection Hout as Hout. unfold Service.outcome in Hout.
    destruct (Watcher.requests_post env _ _ _) as [e|st].
    { by destruct (Watcher.is_request_exception e). }
    destruct (Z.leb_spec 400 st), (Z.ltb_spec st 600); simpl in Hout; try done;
      injection Hout as ->; (split; [done|]); (split; [lia|]); (split; [done|]);
      by rewrite Haf.
Qed.

Lemma sent_job_posted_the_transcript_on_disk_witness :
  let run := Watcher._transcribe_file (Scenario.env "1" (Some 0) (Watcher.Response 200))
               (Scenario.config true Scenario.endpoint) Scenario.audio
               (Scenario.world (Scenario.recording 96044 48000)) in
  exists payload tf,
    Watcher.posts (Watcher.new_actions (Scenario.world (Scenario.recording 96044 48000)) run.2)
    = [Watcher.Post Scenario.endpoint payload 30]
    /\ Watcher.files run.2 !! Scenario.transcript = Some tf
    /\ Watcher.transcript_html payload = Watcher.text tf.
Proof.
  intros run.
  destruct (sent_job_posted_the_transcript_on_disk
              (Scenario.env "1" (Some 0) (Watcher.Response 200))
              (Scenario.config true Scenario.endpoint) Scenario.audio
              (Scenario.world (Scenario.recording 96044 48000)) 200 run.2)
    as (payload & tf & H1 & _ & H3 & H4 & _).
  - vm_compute. reflexivity.
  - exists payload, tf. split; [exact H1|]. split; [exact H3|exact H4].
Defined.

(* ===================================================================== *)
(** ** The dictionary of pending timers *)
(* ===================================================================== *)

Section PendingFacts.
Import Debounce.
Variables (fs : FileSystem) (D : Z).

(** The notification times known for each path. *)
Variable T : string -> Z -> Prop.

(** Every timer was started by a notification for its path, with the
    configured interval, and every entry of the dictionary refers to a
    timer for its key that can still fire. *)
Let Tracked (h : AudioFileHandler) : Prop :=
  debounce_seconds h = D
  /\ (forall i tm, timers h !! i = Some tm -> interval tm = D /\ T (args tm) (started tm))
  /\ (forall q i, pending_files h !! q = Some i ->
        exists tm, timers h !! i = Some tm /\ args tm = q /\ finished tm = false).

(** The timer at index [i], if any, has fired, was cancelled, or is not due. *)
Let Settled (now : Z) (h : AudioFileHandler) (i : nat) : Prop :=
  forall tm, timers h !! i = Some tm -> finished tm = true \/ now < deadline tm.

Lemma Tracked_init : Tracked (init D).
Proof.
  split; [done|]. split.
  - intros i tm H. simpl in H. by rewrite lookup_nil in H.
  - intros q i H. simpl in H. by rewrite lookup_empty in H.
Qed.

Lemma Tracked_run_timer now h i : Tracked h -> Tracked (run_timer fs now h i).
Proof.
  intros (Hd & Ht & Hp).
  destruct (run_timer_cases fs now h i) as [->|(tm & E & F & _ & ->)]; [done|].
  split; [|split].
  - change (debounce_seconds (finish i ?x)) with (debounce_seconds x).
    by rewrite _add_to_queue_debounce.
  - intros k tm' Ek. rewrite lookup_finish, _add_to_queue_timers in Ek.
    destruct (decide (k = i)) as [->|]; [|by eapply Ht].
    rewrite E in Ek. simpl in Ek. injection Ek as <-. simpl. by eapply Ht.
  - intros q k Hq.
    change (pending_files (finish i ?x)) with (pending_files x) in Hq.
    rewrite _add_to_queue_pending in Hq.
    apply lookup_delete_Some in Hq as [Hne Hq].
    destruct (Hp _ _ Hq) as (tm' & Ek & Ha & Fk).
    exists tm'. rewrite lookup_finish, _add_to_queue_timers.
    destruct (decide (k = i)) as [->|]; [|done]. congruence.
Qed.

Lemma Tracked_advance now h : Tracked h -> Tracked (advance fs now h).
Proof.
  unfold advance. generalize (seq 0 (length (timers h))). intros l. revert h.
  induction l as [|i l IH]; intros h Hh; simpl; [done|].
  apply IH. by apply Tracked_run_timer.
Qed.

Lemma Tracked_on_created now ev h :
  (is_directory ev = false -> T (src_path ev) now) ->
  Tracked h -> Tracked (on_created now ev h).
Proof.
  intros Hknown (Hd & Ht & Hp).
  destruct (is_directory ev) eqn:Hdir; [by rewrite on_created_ignore; auto|].
  destruct (is_wav (src_path ev)) eqn:Hw; [|by rewrite on_created_ignore; auto].
  split; [|split].
  - by rewrite on_created_debounce.
  - intros k tm Ek. rewrite on_created_timers in Ek by done.
    apply lookup_app_Some in Ek as [Ek|[Hlen Ek]].
    + rewrite lookup_cancelled in Ek.
      destruct (pending_files h !! src_path ev) as [i|]; [|by eapply Ht].
      destruct (decide (k = i)) as [->|]; [|by eapply Ht].
      destruct (timers h !! i) as [tm0|] eqn:E; [|done].
      simpl in Ek. injection Ek as <-. simpl. by eapply Ht.
    + apply list_lookup_singleton_Some in Ek as [_ <-]. simpl. auto.
  - intros q k Hq. rewrite on_created_pending in Hq by done.
    rewrite on_created_timers by done.
    apply lookup_insert_Some in Hq as [[<- <-]|[Hne Hq]].
    + eexists. split; [apply list_lookup_middle; by rewrite length_cancelled|done].
    + destruct (Hp _ _ Hq) as (tm & Ek & Ha & Fk).
      exists tm. split; [|done]. apply lookup_app_l_Some.
      rewrite lookup_cancelled.
      destruct (pending_files h !! src_path ev) as [i|] eqn:Ei; [|done].
      destruct (decide (k = i)) as [->|]; [|done].
      destruct (Hp _ _ Ei) as (tm0 & E0 & A0 & _). congruence.
Qed.

Lemma Tracked_run sched : forall h,
  (forall t ev, (t, ev) ∈ sched -> is_directory ev = false -> T (src_path ev) t) ->
  Tracked h -> Tracked (run fs sched h).
Proof.
  induction sched as [|[t ev] rest IH]; intros h Hknown Hh; simpl; [done|].
  apply IH.
  - intros t' ev' Hin. apply Hknown. by right.
  - apply Tracked_on_created; [apply Hknown; left|by apply Tracked_advance].
Qed.

Lemma Settled_run_timer_self now h i : Settled now (run_timer fs now h i) i.
Proof.
  intros tm' E'.
  destruct (run_timer_cases fs now h i) as [Heq|(tm & E & F & Hdue & Heq)].
  - rewrite Heq in E'. destruct (finished tm') eqn:F'; [by left|right].
    destruct (Z.lt_ge_cases now (deadline tm')) as [|Hdue]; [done|].
    rewrite (run_timer_fire fs now h i tm' E' F' Hdue) in Heq.
    apply (f_equal (fun x => timers x !! i)) in Heq.
    rewrite lookup_finish, _add_to_queue_timers, decide_True, E' in Heq by done.
    simpl in Heq. injection Heq as Heq. rewrite <- Heq in F'. done.
  - rewrite Heq, lookup_finish, _add_to_queue_timers, decide_True, E in E' by done.
    simpl in E'. injection E' as <-. by left.
Qed.

Lemma Settled_run_timer now h j k :
  Settled now h k -> Settled now (run_timer fs now h j) k.
Proof.
  intros Hk tm' E'.
  destruct (run_timer_cases fs now h j) as [Heq|(tm & E & F & Hdue & Heq)].
  - rewrite Heq in E'. by apply Hk.
  - rewrite Heq, lookup_finish, _add_to_queue_timers in E'.
    destruct (decide (k = j)) as [->|]; [|by apply Hk].
    rewrite E in E'. simpl in E'. injection E' as <-. by left.
Qed.

Lemma Settled_foldl now l : forall h k,
  k ∈ l \/ Settled now h k -> Settled now (foldl (run_timer fs now) h l) k.
Proof.
  induction l as [|j l IH]; intros h k Hk; simpl.
  - destruct Hk as [Hk|Hk]; [by apply elem_of_nil in Hk|done].
  - apply IH. destruct Hk as [Hk|Hk].
    + apply elem_of_cons in Hk as [->|Hk]; [right; apply Settled_run_timer_self|by left].
    + right. by apply Settled_run_timer.
Qed.

(** Once the clock has reached [now], no timer that is due is left. *)
Lemma advance_settles now h i tm :
  timers (advance fs now h) !! i = Some tm -> finished tm = false -> now < deadline tm.
Proof.
  intros E F.
  assert (Settled now (advance fs now h) i) as Hs.
  { unfold advance. apply Settled_foldl.
    destruct (decide (i < length (timers h))%nat) as [Hlt|Hge].
    - left. apply elem_of_seq. lia.
    - right. intros tm' E'. apply lookup_lt_Some in E'. lia. }
  destruct (Hs tm E) as [F'|]; [congruence|done].
Qed.

End PendingFacts.

Lemma elem_of_times_for p t ev sched :
  (t, ev) ∈ sched -> Debounce.is_directory ev = false -> Debounce.src_path ev = p ->
  t ∈ Debounce.times_for p sched.
Proof.
  intros Hin Hd Hp. unfold Debounce.times_for.
  apply (list_elem_of_fmap_2 fst _ (t, ev)).
  apply list_elem_of_In, List.filter_In. split; [by apply list_elem_of_In|].
  unfold Debounce.event_for. simpl. rewrite Hd, Hp. simpl. apply String.eqb_refl.
Qed.

(** X25. The dictionary of pending timers holds no stale entry: whenever
    the handler is observed, each entry refers to a timer for its own
    path that was started by one of the notifications for that path and
    is still waiting, its deadline lying after the time of observation.
    So once the debounce interval has passed since the last
    notification, the dictionary is empty. *)
Theorem pending_files_hold_only_waiting_timers fs D sched horizon lo :
  Debounce.chronological lo sched horizon ->
  let h := Debounce.observe fs D sched horizon in
  (forall q i, Debounce.pending_files h !! q = Some i ->
     exists tl,
       Debounce.timers h !! i
       = Some {| Debounce.interval := D; Debounce.args := q;
                 Debounce.started := tl; Debounce.finished := false |}
       /\ tl ∈ Debounce.times_for q sched
       /\ horizon < tl + D)
  /\ (Forall (fun te => te.1 + D <= horizon) sched -> Debounce.pending_files h = ∅).
Proof.
  intros _ h.
  assert (forall q i, Debounce.pending_files h !! q = Some i ->
     exists tl,
       Debounce.timers h !! i
       = Some {| Debounce.interval := D; Debounce.args := q;
                 Debounce.started := tl; Debounce.finished := false |}
       /\ tl ∈ Debounce.times_for q sched
       /\ horizon < tl + D) as Hentries.
  { intros q i Hq.
    destruct (Tracked_advance fs D (fun p t => t ∈ Debounce.times_for p sched) horizon _
                (Tracked_run fs D (fun p t => t ∈ Debounce.times_for p sched) sched _
                   ltac:(intros t ev Hin Hd; by eapply elem_of_times_for)
                   (Tracked_init D _)))
      as (_ & Ht & Hp).
    destruct (Hp _ _ Hq) as (tm & E & Ha & F).
    destruct (Ht _ _ E) as (Hi & Hs).
    pose proof (advance_settles fs horizon _ _ _ E F) as Hdue.
    unfold Debounce.deadline in Hdue. rewrite Hi in Hdue.
    exists (Debounce.started tm). unfold h, Debounce.observe. rewrite E. rewrite Ha in Hs.
    split; [|done]. destruct tm; simpl in *. by subst. }
  split; [exact Hentries|].
  intros Hall. apply map_eq. intros q. rewrite lookup_empty.
  destruct (Debounce.pending_files h !! q) as [i|] eqn:Hq; [|done].
  destruct (Hentries _ _ Hq) as (tl & _ & Hin & Hlate).
  unfold Debounce.times_for in Hin.
  apply list_elem_of_fmap in Hin as (te & -> & Hin).
  apply list_elem_of_In, List.filter_In in Hin as [Hin _].
  rewrite Forall_forall in Hall. apply list_elem_of_In in Hin.
  specialize (Hall _ Hin). simpl in Hall. lia.
Qed.

Lemma pending_files_hold_only_waiting_timers_witness :
  Debounce.pending_files (Debounce.observe Scenario.present 2 Scenario.burst_schedule 14) = ∅.
Proof.
  destruct (pending_files_hold_only_waiting_timers
              Scenario.present 2 Scenario.burst_schedule 14 10) as [_ H].
  - simpl. lia.
  - apply H. repeat constructor; simpl; lia.
Defined.

(* ===================================================================== *)
(** ** The menu bar application *)
(* ===================================================================== *)

Section MenuFacts.
Import Capture Menu.

Lemma start_idle dev file r :
  recording r = false ->
  recording (start dev file r).2 = match dev with Starts => true | _ => false end
  /\ audio_data (start dev file r).2 = []
  /\ match (start dev file r).1 with
     | inr _ => dev = Starts
     | inl _ => dev <> Starts
     end.
Proof. intros Hr. unfold start. rewrite Hr. by destruct dev. Qed.

Lemma stop_recording_off write_error r disk :
  recording (stop write_error r disk).1.2 = false.
Proof.
  unfold stop. destruct (recording r) eqn:Hr; [|done]. cbn [negb].
  cbn [update audio_data output_file].
  destruct (audio_data r), (output_file r); try done.
  by destruct (write_error _).
Qed.

Lemma stop_raises write_error r disk e :
  (stop write_error r disk).1.1 = inl e ->
  (stop write_error r disk).2 = disk
  /\ recording r = true
  /\ audio_data r <> []
  /\ exists file, output_file r = Some file /\ write_error file = Some e.
Proof.
  unfold stop. destruct (recording r) eqn:Hr; [|done]. cbn [negb].
  cbn [update audio_data output_file].
  destruct (audio_data r) as [|c l]; [by destruct (output_file r)|].
  destruct (output_file r) as [file|]; [|done].
  destruct (write_error file) as [e'|] eqn:He; [|done].
  intros [= <-]. split; [done|]. split; [done|]. split; [done|]. by exists file.
Qed.

End MenuFacts.

(** X26. One click on the menu item keeps the menu in step with the
    recorder, with one exception. From the idle state a click starts a
    recording if the device starts, and otherwise reports the error and
    leaves the menu idle. During a recording a click stops the recorder;
    if the recording is saved (or there is nothing to save), the menu is
    idle again and one notification is shown. But if saving fails, the
    recorder is idle while the menu still shows a recording in progress;
    nothing is written and nothing is shown, and the next click does not
    retry: it starts a new recording, dropping the captured audio. *)
Theorem click_keeps_menu_in_step dev write_error elapsed now now' app disk :
  Menu.in_step app ->
  let result := Menu.toggle_recording dev write_error elapsed now now' app disk in
  let app' := result.1.2 in
  (Capture.recording (Menu.recorder app) = false ->
     result.1.1 = inr tt /\ result.2 = disk /\ Menu.in_step app'
     /\ (Capture.recording (Menu.recorder app') = true <-> dev = Capture.Starts)
     /\ exists n, Menu.notifications app' = Menu.notifications app ++ [n]
                  /\ Menu.subtitle n
                     = (if Capture.recording (Menu.recorder app')
                        then "Recording started" else "Error")%string)
  /\ (Capture.recording (Menu.recorder app) = true ->
      Capture.recording (Menu.recorder app') = false
      /\ match result.1.1 with
         | inr _ =>
             Menu.in_step app' /\ Menu.recording_start_time app' = None
             /\ exists n, Menu.notifications app' = Menu.notifications app ++ [n]
         | inl e =>
             Menu.title app' = Menu.TITLE_RECORDING
             /\ Menu.sender_title app' = "Stop Recording"%string
             /\ result.2 = disk
             /\ Menu.notifications app' = Menu.notifications app
             /\ forall dev2 now2 now2',
                  let next := Menu.toggle_recording dev2 write_error elapsed now2 now2'
                                app' result.2 in
                  next.1.1 = inr tt /\ next.2 = disk
                  /\ Capture.audio_data (Menu.recorder next.1.2) = []
                  /\ (Menu.in_step next.1.2 <-> dev2 = Capture.Starts)
         end).
Proof.
  intros [Htitle Hsender] result app'. split.
  - intros Hidle. subst app' result. unfold Menu.toggle_recording. rewrite Hidle.
    cbn [fst snd]. split; [done|]. split; [done|].
    rewrite Hidle in Htitle, Hsender.
    unfold Menu._start_recording. cbv zeta.
    destruct (start_idle dev (Recorder.output_file (Menu.recordings_dir app) now)
                (Menu.recorder app) Hidle) as (Hrec & _ & Hres).
    destruct (Capture.start dev _ (Menu.recorder app)) as [[e|b] r] eqn:Hstart;
      cbn [fst snd] in *.
    + unfold Menu.in_step, Menu.notification, Menu.with_recorder. cbn.
      rewrite Hrec. destruct dev; try done; repeat split; try done; eauto.
    + subst dev. unfold Menu.in_step, Menu.notification. cbn. rewrite Hrec.
      repeat split; eauto.
  - intros Hrec. subst app' result. unfold Menu.toggle_recording. rewrite Hrec.
    unfold Menu._stop_recording.
    pose proof (stop_recording_off write_error (Menu.recorder app) disk) as Hoff.
    pose proof (stop_raises write_error (Menu.recorder app) disk) as Hraises.
    destruct (Capture.stop write_error (Menu.recorder app) disk) as [[[e|file] r] disk']
      eqn:Hstop; cbn [fst snd] in *.
    + destruct (Hraises e eq_refl) as (-> & _). split; [done|].
      rewrite Hrec in Htitle, Hsender. do 4 (split; [done|]).
      intros dev2 now2 now2'. cbv zeta. unfold Menu.toggle_recording.
      cbn [Menu.with_recorder Menu.recorder]. rewrite Hoff. cbn [fst snd].
      split; [done|]. split; [done|].
      unfold Menu._start_recording. cbv zeta. cbn [Menu.with_recorder Menu.recorder
        Menu.recordings_dir Menu.notifications Menu.title Menu.sender_title].
      destruct (start_idle dev2 (Recorder.output_file (Menu.recordings_dir app) now2)
                  r Hoff) as (Hrec2 & Hdata & Hres).
      destruct (Capture.start dev2 _ r) as [[e2|b] r2] eqn:Hstart; cbn [fst snd] in *.
      * unfold Menu.in_step, Menu.notification, Menu.with_recorder. cbn.
        rewrite Hrec2. split; [done|]. rewrite Htitle.
        destruct dev2; try done; split; try done; by intros [? _].
      * subst dev2. unfold Menu.in_step, Menu.notification. cbn. rewrite Hrec2. done.
    + cbv zeta. split.
      * by destruct file as [f|]; [destruct (bool_decide _)|].
      * unfold Menu.in_step.
        destruct file as [f|]; [destruct (bool_decide _)|]; cbn; rewrite Hoff; eauto.
Qed.

Lemma click_keeps_menu_in_step_witness :
  let result := Menu.toggle_recording Capture.Starts (fun _ => None) (fun _ => (0, 0))
                  {| PyDatetime.year := 2025; PyDatetime.month := 12; PyDatetime.day := 5;
                     PyDatetime.hour := 15; PyDatetime.minute := 56;
                     PyDatetime.second := 47 |}
                  {| PyDatetime.year := 2025; PyDatetime.month := 12; PyDatetime.day := 5;
                     PyDatetime.hour := 15; PyDatetime.minute := 56;
                     PyDatetime.second := 48 |}
                  (Menu.init "/rec" Capture.init) ∅ in
  Menu.in_step result.1.2 /\ Capture.recording (Menu.recorder result.1.2) = true.
Proof.
  intros result.
  destruct (click_keeps_menu_in_step Capture.Starts (fun _ => None) (fun _ => (0, 0))
              {| PyDatetime.year := 2025; PyDatetime.month := 12; PyDatetime.day := 5;
                 PyDatetime.hour := 15; PyDatetime.minute := 56; PyDatetime.second := 47 |}
              {| PyDatetime.year := 2025; PyDatetime.month := 12; PyDatetime.day := 5;
                 PyDatetime.hour := 15; PyDatetime.minute := 56; PyDatetime.second := 48 |}
              (Menu.init "/rec" Capture.init) ∅) as [H _].
  - split; reflexivity.
  - destruct (H eq_refl) as (_ & _ & Hstep & Hrec & _).
    split; [exact Hstep|]. by apply Hrec.
Defined.

(** A failed save: the menu keeps showing a recording, and the file is
    not there. *)
Example failed_save_leaves_the_menu_recording :
  let app1 := Menu._start_recording Capture.Starts
                {| PyDatetime.year := 2025; PyDatetime.month := 12; PyDatetime.day := 5;
                   PyDatetime.hour := 15; PyDatetime.minute := 56; PyDatetime.second := 47 |}
                {| PyDatetime.year := 2025; PyDatetime.month := 12; PyDatetime.day := 5;
                   PyDatetime.hour := 15; PyDatetime.minute := 56; PyDatetime.second := 47 |}
                (Menu.init "/rec" Capture.init) in
  let app2 := Menu.with_recorder (Capture.capture [[[1]; [2]]] (Menu.recorder app1)) app1 in
  let result := Menu.toggle_recording Capture.Starts (fun _ => Some "No space left on device"%string)
                  (fun _ => (0, 3))
                  {| PyDatetime.year := 2025; PyDatetime.month := 12; PyDatetime.day := 5;
                     PyDatetime.hour := 15; PyDatetime.minute := 56; PyDatetime.second := 50 |}
                  {| PyDatetime.year := 2025; PyDatetime.month := 12; PyDatetime.day := 5;
                     PyDatetime.hour := 15; PyDatetime.minute := 56; PyDatetime.second := 50 |}
                  app2 ∅ in
  result.1.1 = inl "No space left on device"%string
  /\ Menu.title result.1.2 = Menu.TITLE_RECORDING
  /\ Capture.recording (Menu.recorder result.1.2) = false
  /\ result.2 = ∅.
Proof. vm_compute. repeat split. Qed.

Section DeviceFacts.
Import Devices.

Lemma prefix_spec sub : forall s,
  String.prefix sub s = true <-> exists post, s = sub +:+ post.
Proof.
  induction sub as [|a sub IH]; intros s.
  - split; [intros _; by exists s|intros _; by destruct s].
  - destruct s as [|b s]; simpl.
    + split; [done|]. intros [post H]. by rewrite app_cons in H.
    + destruct (Ascii.ascii_dec a b) as [->|Hne].
      * rewrite IH. split; intros [post H]; exists post; rewrite app_cons in *; congruence.
      * split; [done|]. intros [post H]. rewrite app_cons in H. congruence.
Qed.

Lemma contains_spec sub : forall s, contains sub s = true <-> occurs sub s.
Proof.
  induction s as [|c s IH]; cbn [contains]; rewrite orb_true_iff, prefix_spec.
  - split.
    + intros [[post H]|H]; [|done]. by exists EmptyString, post.
    + intros ([|c pre] & post & H); [left; by exists post|by rewrite app_cons in H].
  - rewrite IH. split.
    + intros [[post H]|(pre & post & H)]; [by exists EmptyString, post|].
      exists (String c pre), post. by rewrite app_cons, H.
    + intros ([|c' pre] & post & H); [left; by exists post|].
      right. exists pre, post. rewrite app_cons in H. congruence.
Qed.

Lemma first_match_spec wanted devices : forall i,
  match first_match wanted i devices with
  | Some k =>
      i <= k < i + Z.of_nat (length devices)
      /\ (exists dev, devices !! Z.to_nat (k - i) = Some dev
                      /\ occurs wanted (PyStr.lower (name dev)))
      /\ forall j dev, (j < Z.to_nat (k - i))%nat -> devices !! j = Some dev ->
                       ~ occurs wanted (PyStr.lower (name dev))
  | None => forall dev, dev ∈ devices -> ~ occurs wanted (PyStr.lower (name dev))
  end.
Proof.
  induction devices as [|d rest IH]; intros i; cbn [first_match].
  - intros dev H. by apply elem_of_nil in H.
  - destruct (contains wanted (PyStr.lower (name d))) eqn:Hc.
    + apply contains_spec in Hc. rewrite Z.sub_diag. simpl. split; [lia|].
      split; [by exists d|]. intros j dev Hj. lia.
    + assert (~ occurs wanted (PyStr.lower (name d))) as Hno.
      { rewrite <- contains_spec. by rewrite Hc. }
      specialize (IH (i + 1)). destruct (first_match wanted (i + 1) rest) as [k|].
      * destruct IH as (Hk & (dev & Hdev & Hocc) & Hfirst).
        assert (Z.to_nat (k - i) = S (Z.to_nat (k - (i + 1)))) as -> by lia.
        split; [simpl length; lia|]. split; [by exists dev|].
        intros [|j] dev' Hj Hd; [by injection Hd as <-|].
        apply (Hfirst j dev'); [lia|done].
      * intros dev Hin. apply elem_of_cons in Hin as [->|Hin]; [done|by apply IH].
Qed.

End DeviceFacts.

(** X27. The configured device name selects the first device, in the
    order of [sd.query_devices()], whose name contains it, upper and
    lower case being the same; the name [default] in any case, and a
    name that no device contains, select the system default ([None]),
    without any error. The empty name selects the first device. *)
Theorem device_name_selects_first_match devices device_name :
  let wanted := PyStr.lower device_name in
  match Devices.get_audio_device_index devices device_name with
  | Some i =>
      wanted <> "default"%string
      /\ 0 <= i < Z.of_nat (length devices)
      /\ (exists dev, devices !! Z.to_nat i = Some dev
                      /\ Devices.occurs wanted (PyStr.lower (Devices.name dev)))
      /\ forall j dev, (j < Z.to_nat i)%nat -> devices !! j = Some dev ->
                       ~ Devices.occurs wanted (PyStr.lower (Devices.name dev))
  | None =>
      wanted = "default"%string
      \/ forall dev, dev ∈ devices ->
                     ~ Devices.occurs wanted (PyStr.lower (Devices.name dev))
  end
  /\ (device_name = EmptyString -> devices <> [] ->
      Devices.get_audio_device_index devices device_name = Some 0).
Proof.
  intros wanted. split.
  - unfold Devices.get_audio_device_index. fold wanted.
    destruct (String.eqb_spec wanted "default") as [Hd|Hd]; [by left|].
    pose proof (first_match_spec wanted devices 0) as H.
    destruct (Devices.first_match wanted 0 devices) as [k|]; [|by right].
    rewrite Z.sub_0_r in H. destruct H as (Hk & Hdev & Hfirst).
    split; [done|]. split; [lia|]. by split.
  - intros -> Hne. destruct devices as [|d rest]; [done|].
    unfold Devices.get_audio_device_index. cbn.
    by destruct (PyStr.lower (Devices.name d)).
Qed.

(** A name that is not found is not an error: the recorder falls back
    to the default device. A device called "Default Microphone" is found
    by part of its name. *)
Example unknown_device_falls_back_to_default :
  let devices := [{| Devices.name := "MacBook Pro Microphone"; Devices.max_input_channels := 1 |};
                  {| Devices.name := "BlackHole 2ch"; Devices.max_input_channels := 2 |};
                  {| Devices.name := "Default Microphone"; Devices.max_input_channels := 1 |}] in
  Devices.get_audio_device_index devices "blackhole" = Some 1
  /\ Devices.get_audio_device_index devices "Aggregate Device" = None
  /\ Devices.get_audio_device_index devices "DEFAULT" = None
  /\ Devices.get_audio_device_index devices "default m" = Some 2.
Proof. repeat split. Qed.
